(** * ChatWeb: a shallow embedding of the chat client and its properties

    The development follows the TypeScript sources:
    - [Str], [Arr], [Json], [JsonText], [Url]: what the platform gives
      (string methods, the stable sort, JSON values with property access
      and truthiness, [JSON.stringify] and [JSON.parse], the [URL] class);
    - [Client]: [src/api/client.ts];
    - [Storage]: [src/utils/storage.ts];
    - [ChatView], [Chat]: [src/components/Chat.tsx];
    - [JsonTree]: [src/components/JsonTree.tsx];
    - [Onboarding]: [src/components/Onboarding.tsx];
    - [ChatText], [ChatPanel]: the text of a bubble, the inspector
      panel, the thread history and the push channel of
      [src/components/Chat.tsx];
    - [OnboardingFlow]: the form of [src/components/Onboarding.tsx] from
      its first state to the click;
    - [App]: [src/App.tsx];
    - [JsonTreeView]: what a node of [src/components/JsonTree.tsx] shows
      of itself.
    The modules that follow them state and prove the properties.

    Strings are sequences of code units; the code units are modelled by
    [ascii], that is the range 0..255 of JavaScript's code units. *)

From Stdlib Require Import Bool Arith ZArith Lia List Ascii String.
From Stdlib Require Import DecimalString Sorted Permutation OrdersEx.
Import ListNotations.

Local Open Scope list_scope.
Local Open Scope string_scope.
Local Open Scope nat_scope.

(* ================================================================== *)
(** * Strings, as the string methods of the platform use them *)

Module Str.

(** The quote and the backslash. *)
Definition dquote : ascii := ascii_of_nat 34.
Definition backslash : ascii := ascii_of_nat 92.
Definition char (c : ascii) : string := String c "".

(** White space of [String.prototype.trim] in the range 0..255:
    TAB, LF, VT, FF, CR, SPACE and NBSP. *)
Definition is_space (c : ascii) : bool :=
  let n := nat_of_ascii c in
  ((9 <=? n) && (n <=? 13)) || (n =? 32) || (n =? 160).

Definition is_digit (c : ascii) : bool :=
  let n := nat_of_ascii c in (48 <=? n) && (n <=? 57).

Definition is_empty (s : string) : bool :=
  match s with "" => true | _ => false end.

(** [s.trimStart()] *)
Fixpoint trimStart (s : string) : string :=
  match s with
  | "" => ""
  | String c r => if is_space c then trimStart r else s
  end.

(** [s.trimEnd()] *)
Fixpoint trimEnd (s : string) : string :=
  match s with
  | "" => ""
  | String c r =>
      let r' := trimEnd r in
      if is_space c && is_empty r' then "" else String c r'
  end.

(** [s.trim()] *)
Definition trim (s : string) : string := trimEnd (trimStart s).

(** [s.startsWith(p)] *)
Definition startsWith (s p : string) : bool := String.prefix p s.

(** [s.includes(p)] *)
Fixpoint includes (s p : string) : bool :=
  String.prefix p s ||
  match s with
  | "" => false
  | String _ r => includes r p
  end.

(** [s.replace(/c+$/, '')]: drop the run of [c] that ends the string. *)
Fixpoint strip_trailing (c : ascii) (s : string) : string :=
  match s with
  | "" => ""
  | String d r =>
      let r' := strip_trailing c r in
      if Ascii.eqb d c && is_empty r' then "" else String d r'
  end.

(** [s.replace(/[^\d]/g, '')]: keep the decimal digits. *)
Fixpoint keep_digits (s : string) : string :=
  match s with
  | "" => ""
  | String c r => if is_digit c then String c (keep_digits r) else keep_digits r
  end.

Fixpoint all_chars (p : ascii -> bool) (s : string) : bool :=
  match s with
  | "" => true
  | String c r => p c && all_chars p r
  end.

(** [String(n)] for an integer [n]. *)
Definition of_Z (n : Z) : string := NilZero.string_of_int (Z.to_int n).
Definition of_nat (n : nat) : string := NilZero.string_of_uint (Nat.to_uint n).

(** [xs.join(sep)] *)
Definition join (sep : string) (xs : list string) : string := String.concat sep xs.

(** Truthiness of a string: non-empty. *)
Definition truthy (s : string) : bool := negb (is_empty s).

Definition hex_digit (n : nat) : ascii :=
  ascii_of_nat (if n <? 10 then 48 + n else 55 + n).

(** [%XX], upper-case hexadecimal, for one byte. *)
Definition percent_byte (n : nat) : string :=
  String "%" (String (hex_digit (n / 16)) (String (hex_digit (n mod 16)) "")).

(** Characters [encodeURIComponent] leaves alone:
    letters, digits and [- _ . ! ~ * ' ( )]. *)
Definition uri_unreserved (c : ascii) : bool :=
  let n := nat_of_ascii c in
  ((65 <=? n) && (n <=? 90)) || ((97 <=? n) && (n <=? 122)) || is_digit c ||
  (n =? 45) || (n =? 95) || (n =? 46) || (n =? 33) || (n =? 126) ||
  (n =? 42) || (n =? 39) || (n =? 40) || (n =? 41).

(** One code unit percent-encoded through its UTF-8 bytes. *)
Definition percent_encode_unit (c : ascii) : string :=
  let n := nat_of_ascii c in
  if n <? 128 then percent_byte n
  else percent_byte (192 + n / 64) ++ percent_byte (128 + n mod 64).

(** [encodeURIComponent(s)] *)
Fixpoint encodeURIComponent (s : string) : string :=
  match s with
  | "" => ""
  | String c r =>
      (if uri_unreserved c then char c else percent_encode_unit c)
      ++ encodeURIComponent r
  end.

End Str.

(* ================================================================== *)
(** * Arrays *)

Module Arr.

(** [xs.sort(compare)] for a consistent comparator: the sort is
    stable. [lt a b] is [compare(a, b) < 0]. *)
Section Sort.
Context {A : Type} (lt : A -> A -> bool).

Fixpoint insert (x : A) (ys : list A) : list A :=
  match ys with
  | [] => [x]
  | y :: r => if lt y x then y :: insert x r else x :: ys
  end.

Fixpoint sort (xs : list A) : list A :=
  match xs with
  | [] => []
  | x :: r => insert x (sort r)
  end.
End Sort.

End Arr.

(* ================================================================== *)
(** * JavaScript values that come out of [JSON.parse], and [undefined] *)

Module Json.

(** A number is carried as the exact decimal [mantissa * 10^exponent];
    the rounding of doubles plays no part in the code modelled here. *)
Record number : Type := { mantissa : Z; exponent : Z }.

#[warnings="-register-all"]
Inductive value : Type :=
| VUndef
| VNull
| VBool (b : bool)
| VNum (n : number)
| VStr (s : string)
| VArr (xs : list value)
| VObj (fields : list (string * value)).

(** Own properties in creation order. (The platform lists the keys
    that are array indices first; the objects built by the sources have
    none.) *)
Definition fields := list (string * value).

Fixpoint lookup (k : string) (fs : fields) : option value :=
  match fs with
  | [] => None
  | (k', v) :: r => if String.eqb k k' then Some v else lookup k r
  end.

(** [o[k] = v]: the value is replaced in place, or the key is added
    last. *)
Fixpoint set_prop (k : string) (v : value) (fs : fields) : fields :=
  match fs with
  | [] => [(k, v)]
  | (k', v') :: r =>
      if String.eqb k k' then (k', v) :: r else (k', v') :: set_prop k v r
  end.

(** [Boolean(v)] *)
Definition truthy (v : value) : bool :=
  match v with
  | VUndef | VNull => false
  | VBool b => b
  | VNum n => negb (Z.eqb (mantissa n) 0)
  | VStr s => Str.truthy s
  | VArr _ | VObj _ => true
  end.

(** [typeof v === 'string'] and [typeof v === 'object']. *)
Definition is_string (v : value) : bool :=
  match v with VStr _ => true | _ => false end.

Definition typeof_object (v : value) : bool :=
  match v with VNull | VArr _ | VObj _ => true | _ => false end.

Definition isArray (v : value) : bool :=
  match v with VArr _ => true | _ => false end.

(** [v == null] *)
Definition nullish (v : value) : bool :=
  match v with VUndef | VNull => true | _ => false end.

(** What a failed operation throws. [attached] holds the fields that
    [sendMessage] hangs on the errors of its own. *)
Record attachment : Type := {
  a_response : value;
  a_status : Z;
  a_rawText : option string;
  a_request : string * fields;
  a_timingMs : Z
}.

Record js_error : Type := {
  message : string;
  attached : option attachment
}.

Inductive completion (A : Type) : Type :=
| Normal (a : A)
| Throw (e : js_error).
Arguments Normal {A} a.
Arguments Throw {A} e.

Definition bind {A B} (c : completion A) (k : A -> completion B) : completion B :=
  match c with
  | Normal a => k a
  | Throw e => Throw e
  end.

Definition TypeError (msg : string) : js_error :=
  {| message := msg; attached := None |}.

(** [v.k] for a key [k] that no prototype defines (every key the
    sources read is of that kind): an own property of an object,
    [undefined] on any other value, a [TypeError] on [null] and
    [undefined]. *)
Definition member (v : value) (k : string) : completion value :=
  match v with
  | VUndef =>
      Throw (TypeError ("Cannot read properties of undefined (reading '" ++ k ++ "')"))
  | VNull =>
      Throw (TypeError ("Cannot read properties of null (reading '" ++ k ++ "')"))
  | VObj fs => Normal (match lookup k fs with Some x => x | None => VUndef end)
  | _ => Normal VUndef
  end.

(** [v?.k] *)
Definition opt_member (v : value) (k : string) : value :=
  match member v k with
  | Normal x => x
  | Throw _ => VUndef
  end.

(** [String(n)] for a number: the decimal expansion. *)
Definition number_to_string (n : number) : string :=
  let m := mantissa n in
  let e := exponent n in
  if (0 <=? e)%Z then Str.of_Z (m * 10 ^ e)
  else
    let p := (10 ^ (- e))%Z in
    let a := Z.abs m in
    let frac := Str.of_Z (p + a mod p) in
    (if (m <? 0)%Z then "-" else "") ++ Str.of_Z (a / p) ++
    (if (a mod p =? 0)%Z then ""
     else "." ++ match frac with
                 | String _ r => Str.strip_trailing "0" r
                 | "" => ""
                 end).

(** [String(v)] *)
Fixpoint ToString (v : value) : string :=
  match v with
  | VUndef => "undefined"
  | VNull => "null"
  | VBool true => "true"
  | VBool false => "false"
  | VNum n => number_to_string n
  | VStr s => s
  | VArr xs =>
      Str.join "," (map (fun x => if nullish x then "" else ToString x) xs)
  | VObj _ => "[object Object]"
  end.

(** The object [{ type: 'text', message: m }]. *)
Definition text_item (m : string) : value :=
  VObj [("type", VStr "text"); ("message", VStr m)].

End Json.

(* ================================================================== *)
(** * [JSON.stringify] and [JSON.parse] *)

Module JsonText.
Import Json.

(** ** Writing *)

Definition hex4 (n : nat) : string :=
  let h d := Str.char (ascii_of_nat (if d <? 10 then 48 + d else 87 + d)) in
  "00" ++ h (n / 16) ++ h (n mod 16).

(** One code unit inside a string literal. *)
Definition escape_unit (c : ascii) : string :=
  let n := nat_of_ascii c in
  if n =? 34 then String Str.backslash (Str.char Str.dquote)
  else if n =? 92 then String Str.backslash (Str.char Str.backslash)
  else if n =? 8 then String Str.backslash "b"
  else if n =? 9 then String Str.backslash "t"
  else if n =? 10 then String Str.backslash "n"
  else if n =? 12 then String Str.backslash "f"
  else if n =? 13 then String Str.backslash "r"
  else if n <? 32 then String Str.backslash ("u" ++ hex4 n)
  else Str.char c.

Fixpoint escape (s : string) : string :=
  match s with
  | "" => ""
  | String c r => escape_unit c ++ escape r
  end.

Definition quote (s : string) : string :=
  String Str.dquote (escape s ++ Str.char Str.dquote).

Definition newline : string := Str.char (ascii_of_nat 10).

(** The brackets around the already written members; with a gap the
    members stand one per line. *)
Definition wrap (open close gap indent : string) (items : list string) : string :=
  match items with
  | [] => open ++ close
  | _ =>
      if Str.is_empty gap then open ++ Str.join "," items ++ close
      else
        let inner := indent ++ gap in
        open ++ newline ++ inner ++
        Str.join ("," ++ newline ++ inner) items ++ newline ++ indent ++ close
  end.

(** [JSON.stringify(v, null, gap)] at the current indentation; [None]
    is [undefined]. *)
Fixpoint stringify_at (gap indent : string) (v : value) : option string :=
  match v with
  | VUndef => None
  | VNull => Some "null"
  | VBool true => Some "true"
  | VBool false => Some "false"
  | VNum n => Some (number_to_string n)
  | VStr s => Some (quote s)
  | VArr xs =>
      Some (wrap "[" "]" gap indent
              (map (fun x =>
                      match stringify_at gap (indent ++ gap) x with
                      | Some t => t
                      | None => "null"
                      end) xs))
  | VObj fs =>
      Some (wrap "{" "}" gap indent
              (flat_map (fun kv =>
                           match kv with
                           | (k, x) =>
                               match stringify_at gap (indent ++ gap) x with
                               | Some t =>
                                   [quote k ++ (if Str.is_empty gap then ":" else ": ") ++ t]
                               | None => []
                               end
                           end) fs))
  end.

(** [JSON.stringify(v)] *)
Definition stringify (v : value) : option string := stringify_at "" "" v.

(** [JSON.stringify(v, null, 2)] *)
Definition stringify_pretty (v : value) : option string := stringify_at "  " "" v.

(** ** Reading: the tokens *)

Inductive token : Type :=
| TLBrace | TRBrace | TLBracket | TRBracket | TColon | TComma
| TString (s : string)
| TNumber (n : number)
| TTrue | TFalse | TNull.

(** The lexer reads one code unit at a time. *)
Inductive mode : Type :=
| Top
| InString (acc : list ascii)               (* reversed *)
| InEscape (acc : list ascii)
| InUnicode (acc : list ascii) (digits : list nat)
| InNumber (acc : list ascii)               (* reversed *)
| InLiteral (rest : string) (t : token).

Definition json_ws (c : ascii) : bool :=
  let n := nat_of_ascii c in (n =? 32) || (n =? 9) || (n =? 10) || (n =? 13).

Definition hex_value (c : ascii) : option nat :=
  let n := nat_of_ascii c in
  if (48 <=? n) && (n <=? 57) then Some (n - 48)
  else if (65 <=? n) && (n <=? 70) then Some (n - 55)
  else if (97 <=? n) && (n <=? 102) then Some (n - 87)
  else None.

Definition is_number_char (c : ascii) : bool :=
  let n := nat_of_ascii c in
  Str.is_digit c || (n =? 45) || (n =? 43) || (n =? 46) || (n =? 69) || (n =? 101).

Fixpoint digits_value (acc : Z) (s : string) : Z :=
  match s with
  | "" => acc
  | String c r => digits_value (10 * acc + Z.of_nat (nat_of_ascii c - 48)) r
  end.

Fixpoint span_digits (s : string) : string * string :=
  match s with
  | "" => ("", "")
  | String c r =>
      if Str.is_digit c
      then let (d, t) := span_digits r in (String c d, t)
      else ("", s)
  end.

(** The grammar of a number: an optional minus sign, an integer part
    without a leading zero, an optional fraction and an optional
    exponent. *)
Definition read_number (s : string) : option number :=
  let (neg, s1) :=
    match s with
    | String "-" r => (true, r)
    | _ => (false, s)
    end in
  let (int, s2) := span_digits s1 in
  let int_ok :=
    match int with
    | "" => false
    | String "0" (String _ _) => false
    | _ => true
    end in
  let '(frac_ok, frac, s3) :=
    match s2 with
    | String "." r =>
        let (f, t) := span_digits r in (negb (Str.is_empty f), f, t)
    | _ => (true, "", s2)
    end in
  let '(exp_ok, ex, s4) :=
    match s3 with
    | String c r =>
        if (Ascii.eqb c "e" || Ascii.eqb c "E")%bool then
          let (eneg, r1) :=
            match r with
            | String "-" t => (true, t)
            | String "+" t => (false, t)
            | _ => (false, r)
            end in
          let (e, t) := span_digits r1 in
          (negb (Str.is_empty e),
           (if eneg then - digits_value 0 e else digits_value 0 e)%Z, t)
        else (true, 0%Z, s3)
    | "" => (true, 0%Z, s3)
    end in
  if int_ok && frac_ok && exp_ok && Str.is_empty s4 then
    let m := digits_value 0 (int ++ frac) in
    Some {| mantissa := (if neg then - m else m)%Z;
            exponent := (ex - Z.of_nat (String.length frac))%Z |}
  else None.

Definition cons_token (t : token) (r : option (list token)) : option (list token) :=
  option_map (cons t) r.

(** What the lexer does with [c] between two tokens; [k] reads on. *)
Definition lex_top (c : ascii) (k : mode -> option (list token)) : option (list token) :=
  let n := nat_of_ascii c in
  if json_ws c then k Top
  else if n =? 123 then cons_token TLBrace (k Top)
  else if n =? 125 then cons_token TRBrace (k Top)
  else if n =? 91 then cons_token TLBracket (k Top)
  else if n =? 93 then cons_token TRBracket (k Top)
  else if n =? 58 then cons_token TColon (k Top)
  else if n =? 44 then cons_token TComma (k Top)
  else if n =? 34 then k (InString [])
  else if Str.is_digit c || (n =? 45) then k (InNumber [c])
  else if n =? 116 then k (InLiteral "rue" TTrue)
  else if n =? 102 then k (InLiteral "alse" TFalse)
  else if n =? 110 then k (InLiteral "ull" TNull)
  else None.

Definition number_token (acc : list ascii) : option token :=
  option_map TNumber (read_number (string_of_list_ascii (rev acc))).

(** The escapes of a string literal. *)
Definition unescape (c : ascii) : option ascii :=
  let n := nat_of_ascii c in
  if (n =? 34) || (n =? 92) || (n =? 47) then Some c
  else if n =? 98 then Some (ascii_of_nat 8)
  else if n =? 102 then Some (ascii_of_nat 12)
  else if n =? 110 then Some (ascii_of_nat 10)
  else if n =? 114 then Some (ascii_of_nat 13)
  else if n =? 116 then Some (ascii_of_nat 9)
  else None.

(** The lexer. An escape [\uXXXX] above 255 denotes a code unit outside
    the modelled range and is refused. *)
Fixpoint lex (m : mode) (s : string) : option (list token) :=
  match s with
  | "" =>
      match m with
      | Top => Some []
      | InNumber acc => option_map (fun t => [t]) (number_token acc)
      | InLiteral "" t => Some [t]
      | _ => None
      end
  | String c r =>
      match m with
      | Top => lex_top c (fun m' => lex m' r)
      | InString acc =>
          let n := nat_of_ascii c in
          if n =? 34 then
            cons_token (TString (string_of_list_ascii (rev acc))) (lex Top r)
          else if n =? 92 then lex (InEscape acc) r
          else if n <? 32 then None
          else lex (InString (c :: acc)) r
      | InEscape acc =>
          if nat_of_ascii c =? 117 then lex (InUnicode acc []) r
          else
            match unescape c with
            | Some d => lex (InString (d :: acc)) r
            | None => None
            end
      | InUnicode acc ds =>
          match hex_value c with
          | None => None
          | Some d =>
              match ds with
              | [d2; d1; d0] =>
                  let n := ((d0 * 16 + d1) * 16 + d2) * 16 + d in
                  if n <? 256 then lex (InString (ascii_of_nat n :: acc)) r
                  else None
              | _ => lex (InUnicode acc (d :: ds)) r
              end
          end
      | InNumber acc =>
          if is_number_char c then lex (InNumber (c :: acc)) r
          else
            match number_token acc with
            | Some t => cons_token t (lex_top c (fun m' => lex m' r))
            | None => None
            end
      | InLiteral "" t => cons_token t (lex_top c (fun m' => lex m' r))
      | InLiteral (String e rest) t =>
          if Ascii.eqb c e then lex (InLiteral rest t) r else None
      end
  end.

(** ** Reading: the values *)

(** An open array with its elements so far (reversed), or an open
    object with its properties so far and the key being read. *)
Inductive frame : Type :=
| FArr (acc : list value)
| FObj (fs : fields) (key : string).

Inductive expect : Type :=
| EValue | EValueOrClose | EKey | EKeyOrClose | EColon | EAfter
| EDone (v : value).

Definition pstate : Type := (list frame * expect)%type.

(** A complete value goes to the innermost open container. *)
Definition push_value (v : value) (stack : list frame) : pstate :=
  match stack with
  | [] => ([], EDone v)
  | FArr acc :: rest => (FArr (v :: acc) :: rest, EAfter)
  | FObj fs k :: rest => (FObj (set_prop k v fs) k :: rest, EAfter)
  end.

Definition accepts_value (e : expect) : bool :=
  match e with EValue | EValueOrClose => true | _ => false end.

Definition step (st : pstate) (t : token) : option pstate :=
  let (stack, e) := st in
  match t with
  | TString s =>
      match e, stack with
      | (EKey | EKeyOrClose), FObj fs _ :: rest => Some (FObj fs s :: rest, EColon)
      | (EValue | EValueOrClose), _ => Some (push_value (VStr s) stack)
      | _, _ => None
      end
  | TNumber n => if accepts_value e then Some (push_value (VNum n) stack) else None
  | TTrue => if accepts_value e then Some (push_value (VBool true) stack) else None
  | TFalse => if accepts_value e then Some (push_value (VBool false) stack) else None
  | TNull => if accepts_value e then Some (push_value VNull stack) else None
  | TLBracket => if accepts_value e then Some (FArr [] :: stack, EValueOrClose) else None
  | TLBrace => if accepts_value e then Some (FObj [] "" :: stack, EKeyOrClose) else None
  | TRBracket =>
      match e, stack with
      | (EValueOrClose | EAfter), FArr acc :: rest => Some (push_value (VArr (rev acc)) rest)
      | _, _ => None
      end
  | TRBrace =>
      match e, stack with
      | (EKeyOrClose | EAfter), FObj fs _ :: rest => Some (push_value (VObj fs) rest)
      | _, _ => None
      end
  | TColon =>
      match e with
      | EColon => Some (stack, EValue)
      | _ => None
      end
  | TComma =>
      match e, stack with
      | EAfter, FArr _ :: _ => Some (stack, EValue)
      | EAfter, FObj _ _ :: _ => Some (stack, EKey)
      | _, _ => None
      end
  end.

Fixpoint run (st : pstate) (ts : list token) : option pstate :=
  match ts with
  | [] => Some st
  | t :: r =>
      match step st t with
      | Some st' => run st' r
      | None => None
      end
  end.

(** [JSON.parse(text)]; [None] is a [SyntaxError]. *)
Definition parse (text : string) : option value :=
  match lex Top text with
  | None => None
  | Some ts =>
      match run ([], EValue) ts with
      | Some ([], EDone v) => Some v
      | _ => None
      end
  end.

End JsonText.

(* ================================================================== *)
(** * [src/types.ts] and [src/api/client.ts] *)

Module Client.
Import Json.

Record ChatSettings : Type := {
  companyId : string;
  customerPhone : string;
  customerName : option string;
  apiBaseUrl : option string
}.

(** What [fetch] gives: a rejection, or a response with its status and
    its body ([None] when reading the body fails). *)
Inductive fetch_outcome : Type :=
| NetworkError (e : js_error)
| Response (status : Z) (body : option string).

(** [resp.ok] *)
Definition resp_ok (status : Z) : bool := ((200 <=? status) && (status <=? 299))%Z.

Definition or_empty (s : option string) : string :=
  match s with Some x => x | None => "" end.

Definition normalizeBaseUrl (baseUrl : option string) : string :=
  let trimmed := Str.trim (or_empty baseUrl) in
  if Str.is_empty trimmed then ""
  else Str.strip_trailing "/" trimmed.

Definition buildMessagesUrl (settings : ChatSettings) : string :=
  let base := normalizeBaseUrl (apiBaseUrl settings) in
  base ++ "/v1/messages/simple/" ++ Str.encodeURIComponent (companyId settings).

(** The request body of [sendMessage]. *)
Definition buildPayload (settings : ChatSettings) (message : string) : fields :=
  let payload :=
    [("message", VStr message); ("customer_phone", VStr (customerPhone settings))] in
  match customerName settings with
  | Some name =>
      if Str.truthy (Str.trim name)
      then set_prop "customer_name" (VStr (Str.trim name)) payload
      else payload
  | None => payload
  end.

Definition toAnswerItems (raw : value) : list value :=
  match raw with
  | VArr xs =>
      flat_map (fun x =>
                  match x with
                  | VStr s => [text_item s]
                  | _ => if truthy x && typeof_object x then [x] else []
                  end) xs
  | VStr s => if Str.truthy (Str.trim s) then [text_item s] else []
  | _ => if truthy raw && typeof_object raw then [raw] else []
  end.

Definition extractDisparoItems (data : value) : completion (list value) :=
  bind (member data "data") (fun d =>
    let items := toAnswerItems (opt_member (opt_member d "disparo") "answer") in
    match items with
    | _ :: _ => Normal items
    | [] => Normal (toAnswerItems (opt_member (opt_member d "assistant_response") "answer"))
    end).

Definition blank_line : string := JsonText.newline ++ JsonText.newline.

(** ['type' in it && it.type === 'text'] for a truthy [it] of type object. *)
Definition is_text_item (it : value) : bool :=
  match it with
  | VObj fs =>
      match lookup "type" fs with
      | Some (VStr t) => String.eqb t "text"
      | _ => false
      end
  | _ => false
  end.

Definition itemsToText (items : list value) : string :=
  let texts :=
    map (fun it =>
           if truthy it && typeof_object it && is_text_item it then
             match opt_member it "message" with
             | VStr m => m
             | _ => ""
             end
           else "") items in
  Str.trim (Str.join blank_line (filter Str.truthy texts)).

(** [None] is [null]. *)
Definition extractAssistantAnswerText (data : value) : completion (option string) :=
  bind (member data "data") (fun d =>
    let raw := opt_member (opt_member d "assistant_response") "answer" in
    match raw with
    | VStr s => Normal (Some s)
    | VUndef | VNull => Normal None
    | _ => Normal (JsonText.stringify raw)
    end).

Record send_result : Type := {
  answerText : string;
  answerItems : list value;
  raw : value;
  status : Z;
  ok : bool;
  request : string * fields;
  rawText : option string;
  timingMs : Z
}.

(** The reply that stands for a body that cannot be read as JSON. *)
Definition invalid_reply (status : Z) : value :=
  VObj [("success", VBool false); ("provider", VStr "simple");
        ("error", VStr ("Resposta inv" ++ Str.char (ascii_of_nat 225) ++ "lida ("
                        ++ Str.of_Z status ++ ")"))].

Definition is_false (v : value) : bool :=
  match v with VBool false => true | _ => false end.

(** [fetch] is the network; [t0] and [t1] are the two readings of
    [performance.now()]. *)
Definition sendMessage
    (fetch : string -> option string -> fetch_outcome) (t0 t1 : Z)
    (settings : ChatSettings) (message : string) : completion send_result :=
  let url := buildMessagesUrl settings in
  let payload := buildPayload settings message in
  match fetch url (JsonText.stringify (VObj payload)) with
  | NetworkError e => Throw e
  | Response st body =>
      let '(data, rawText) :=
        match body with
        | None => (invalid_reply st, None)
        | Some text =>
            match JsonText.parse text with
            | Some d => (d, Some text)
            | None => (invalid_reply st, Some text)
            end
        end in
      bind (if negb (resp_ok st) then Normal true
            else bind (member data "success") (fun s => Normal (is_false s)))
        (fun failed =>
           if (failed : bool) then
             bind (member data "error") (fun er =>
               let msg := if truthy er then er
                          else VStr ("Erro HTTP " ++ Str.of_Z st) in
               Throw {| message := ToString msg;
                        attached := Some {| a_response := data;
                                            a_status := st;
                                            a_rawText := rawText;
                                            a_request := (url, payload);
                                            a_timingMs := Z.max 0 (t1 - t0) |} |})
           else
             bind (extractDisparoItems data) (fun items =>
             let text1 := itemsToText items in
             bind (if Str.truthy text1 then Normal text1
                   else bind (extractAssistantAnswerText data) (fun a =>
                          Normal (or_empty a)))
               (fun text =>
                  Normal {| answerText := text;
                            answerItems := items;
                            raw := data;
                            status := st;
                            ok := resp_ok st;
                            request := (url, payload);
                            rawText := rawText;
                            timingMs := Z.max 0 (t1 - t0) |})))
  end.

End Client.

(* ================================================================== *)
(** * [src/utils/storage.ts] *)

Module Storage.
Import Json Client.

Definition KEY : string := "chatweb:settings:v1".

(** [localStorage]: the stored strings by key. A storage that refuses
    to read or to write is not modelled. *)
Definition localStorage : Type := list (string * string).

Fixpoint getItem (k : string) (st : localStorage) : option string :=
  match st with
  | [] => None
  | (k', v) :: r => if String.eqb k k' then Some v else getItem k r
  end.

Fixpoint removeItem (k : string) (st : localStorage) : localStorage :=
  match st with
  | [] => []
  | (k', v) :: r =>
      if String.eqb k k' then removeItem k r else (k', v) :: removeItem k r
  end.

Definition setItem (k v : string) (st : localStorage) : localStorage :=
  (k, v) :: removeItem k st.

(** A settings object as a JavaScript value: an absent optional field
    is a property whose value is [undefined]. *)
Definition opt_str (s : option string) : value :=
  match s with Some x => VStr x | None => VUndef end.

Definition settings_value (s : ChatSettings) : value :=
  VObj [("companyId", VStr (companyId s));
        ("customerPhone", VStr (customerPhone s));
        ("customerName", opt_str (customerName s));
        ("apiBaseUrl", opt_str (apiBaseUrl s))].

(** [loadSettings] returns whatever [JSON.parse] gives ([None] is
    [null]). *)
Definition loadSettings (st : localStorage) : option value :=
  match getItem KEY st with
  | None => None
  | Some raw =>
      if Str.is_empty raw then None else JsonText.parse raw
  end.

Definition saveSettings (s : value) (st : localStorage) : localStorage :=
  match JsonText.stringify s with
  | Some text => setItem KEY text st
  | None => setItem KEY "undefined" st
  end.

Definition clearSettings (st : localStorage) : localStorage :=
  removeItem KEY st.

(** Reading the fields of a loaded value at the type [ChatSettings]:
    [s.companyId] and so on. *)
Definition read_string (v : value) (k : string) : option string :=
  match opt_member v k with
  | VStr s => Some s
  | _ => None
  end.

(** The loaded value seen as [ChatSettings], when it has the two
    fields that the type requires. *)
Definition as_settings (v : value) : option ChatSettings :=
  match read_string v "companyId", read_string v "customerPhone" with
  | Some c, Some p =>
      Some {| companyId := c; customerPhone := p;
              customerName := read_string v "customerName";
              apiBaseUrl := read_string v "apiBaseUrl" |}
  | _, _ => None
  end.

End Storage.

(* ================================================================== *)
(** * The browser's [URL] class, as far as the chat view uses it *)

Module Url.

(** [new URL(href, base)] ([None] when it throws), [url.toString()] and
    the three methods of [url.searchParams] that are called. *)
Record Api : Type := {
  URL : Type;
  URL_new : string -> string -> option URL;
  URL_toString : URL -> string;
  searchParams_has : URL -> string -> bool;
  searchParams_get : URL -> string -> option string;
  searchParams_set : URL -> string -> string -> URL
}.

End Url.

(* ================================================================== *)
(** * [src/components/Chat.tsx]: the functions outside the component *)

Module ChatView.
Import Json Client.

Inductive ChatRole : Type := user | assistant | system.

Record ApiTrace : Type := {
  tr_url : string;
  tr_payload : fields;
  tr_status : Z;
  tr_ok : bool;
  tr_json : value;
  tr_rawText : option string;
  tr_timingMs : Z
}.

Record ChatMessage : Type := {
  id : string;
  role : ChatRole;
  text : string;
  createdAt : Z;
  answerItems : option (list value);
  trace : option ApiTrace
}.

Definition toLowerCase_unit (c : ascii) : ascii :=
  let n := nat_of_ascii c in
  if ((65 <=? n) && (n <=? 90)) || ((192 <=? n) && (n <=? 222) && negb (n =? 215))
  then ascii_of_nat (n + 32) else c.

Fixpoint toLowerCase (s : string) : string :=
  match s with
  | "" => ""
  | String c r => String (toLowerCase_unit c) (toLowerCase r)
  end.

Definition typeText : string := Str.char Str.dquote ++ "type" ++ Str.char Str.dquote.

Definition tryParseCtaUrl (text : string) : option value :=
  if Str.is_empty text then None
  else
    let t := Str.trim text in
    if negb (Str.startsWith t "{") || negb (Str.includes t typeText)
       || negb (Str.includes t "cta_url")
    then None
    else
      match JsonText.parse t with
      | Some o =>
          match opt_member o "type", opt_member o "url" with
          | VStr ty, VStr u =>
              if truthy o && String.eqb ty "cta_url" && Str.truthy u
              then Some (VObj [("type", VStr "cta_url"); ("url", VStr u);
                               ("display", opt_member o "display")])
              else None
          | _, _ => None
          end
      | None => None
      end.

(** The loop over a parsed array: a string becomes a text segment, an
    object is kept, anything else is dropped. *)
Definition segments_of_array (parsed : list value) : list value :=
  flat_map (fun it =>
              match it with
              | VStr s => [text_item s]
              | _ => if truthy it && typeof_object it then [it] else []
              end) parsed.

(** [None] is [null]. *)
Definition tryParseDisparoItemsFromText (text : string) : option (list value) :=
  if Str.is_empty text then None
  else
    let t := Str.trim text in
    if Str.is_empty t then None
    else if negb (Str.startsWith t "{" || Str.startsWith t "[") then None
    else if negb (Str.includes t typeText) then None
    else
      match JsonText.parse t with
      | Some (VArr parsed) =>
          match segments_of_array parsed with
          | [] => None
          | out => Some out
          end
      | Some parsed =>
          if truthy parsed && typeof_object parsed then Some [parsed] else None
      | None => None
      end.

Section WithUrl.
Variable api : Url.Api.

(** [origin] is [window.location.origin] when the page has one. *)
Definition withRedirectUrlParam (origin : option string)
           (href redirectUrl : string) : string :=
  if Str.is_empty href then href
  else
    let base :=
      match origin with
      | Some o => if Str.truthy o then o else "http://localhost"
      | None => "http://localhost"
      end in
    match Url.URL_new api href base with
    | None => href
    | Some url =>
        if Url.searchParams_has api url "redirect_url"
        then Url.URL_toString api url
        else Url.URL_toString api (Url.searchParams_set api url "redirect_url" redirectUrl)
    end.

(** What [MessageContent] puts on the page for one item. *)
#[warnings="-register-all"]
Inductive node : Type :=
| NText (msg : string)
| NLink (href : string) (display : value) (msg : option string)
| NRaw (json : option string)
| NGroup (children : list node).

(** The [href] of a call-to-action: [window.location.href] is
    [page], or absent when there is no window. *)
Definition cta_href (origin page : option string) (url : value) : value :=
  let redirectUrl := or_empty page in
  match url with
  | VStr u =>
      if Str.truthy redirectUrl && Str.truthy u
      then VStr (withRedirectUrlParam origin u redirectUrl)
      else url
  | _ => url
  end.

(** One item that is not a text item. *)
Definition render_other (origin page : option string) (it : value) : list node :=
  let fallback := [NRaw (JsonText.stringify_pretty it)] in
  match opt_member it "type" with
  | VStr "cta_url" =>
      let msg := opt_member it "message" in
      let display :=
        let d := opt_member it "display" in
        if truthy d then d else VStr "Abrir link" in
      match cta_href origin page (opt_member it "url") with
      | VStr href =>
          if Str.truthy href then
            [NLink href display
                   match msg with
                   | VStr m => if Str.truthy (Str.trim m) then Some m else None
                   | _ => None
                   end]
          else fallback
      | _ => fallback
      end
  | _ => fallback
  end.

(** [MessageContent]; every nested component takes one unit of
    [depth], and at depth 0 a text is shown as it is. A nested component
    is given texts shorter than the text they were read from: the length
    of the longest text of [items] is a depth that is never used up. *)
Fixpoint MessageContent (depth : nat) (origin page : option string)
         (items : list value) : list node :=
  flat_map (fun it =>
    if negb (truthy it && typeof_object it) then []
    else
      match opt_member it "type" with
      | VStr "text" =>
          match opt_member it "message" with
          | VStr msg =>
              if Str.truthy msg then
                match depth, tryParseDisparoItemsFromText msg with
                | S d, Some (x :: xs) => [NGroup (MessageContent d origin page (x :: xs))]
                | _, _ => [NText msg]
                end
              else []
          | _ => []
          end
      | _ => render_other origin page it
      end) items.

End WithUrl.

End ChatView.

(* ================================================================== *)
(** * [src/components/Chat.tsx]: the component and its [onSend] *)

Module Chat.
Import Json Client ChatView.

Definition itemsToRenderableText (items : list value) : string :=
  match items with
  | [] => ""
  | _ =>
      let parts :=
        map (fun it =>
               match it with
               | VObj fs =>
                   match lookup "type" fs, lookup "message" fs with
                   | Some (VStr "text"), Some (VStr m) => m
                   | _, _ => or_empty (JsonText.stringify_pretty it)
                   end
               | _ => or_empty (JsonText.stringify_pretty it)
               end) items in
      Str.trim (Str.join blank_line parts)
  end.

Record ConversationContext : Type := {
  assistantId : option string;
  customerId : option string;
  companyId : option string;
  threadId : option string;
  platform : option string;
  assistantExternalId : option string;
  threadAssistantExternalId : option string
}.

(** [None] is [undefined]. *)
Definition getString (obj : value) (key : string) : option string :=
  match opt_member obj key with
  | VUndef | VNull => None
  | VStr s => Some s
  | v => Some (ToString v)
  end.

(** Truthiness of a [string | undefined]. *)
Definition some_text (s : option string) : bool :=
  match s with Some x => Str.truthy x | None => false end.

(** [a || b] *)
Definition or_else (a b : option string) : option string :=
  if some_text a then a else b.

(** [None] is [null]. *)
Definition extractConversationContextFromResponseJson
           (json : value) : option ConversationContext :=
  if negb (truthy json && typeof_object json) then None
  else
    let data := opt_member json "data" in
    if negb (truthy data && typeof_object data) then None
    else
      let ctx :=
        {| assistantId :=
             or_else (getString data "assistant_id")
                     (getString data "thread_current_assistant_id");
           customerId := getString data "customer_id";
           companyId := getString data "company_id";
           threadId := getString data "thread_id";
           platform :=
             (let p := toLowerCase (or_empty (or_else (getString data "platform") (Some ""))) in
              if Str.truthy p then Some p else None);
           assistantExternalId := getString data "external_id";
           threadAssistantExternalId := getString data "thread_assistant_external_id" |} in
      let hasAny :=
        some_text (assistantId ctx) || some_text (customerId ctx)
        || some_text (companyId ctx) || some_text (platform ctx)
        || some_text (assistantExternalId ctx)
        || some_text (threadAssistantExternalId ctx) in
      if hasAny then Some ctx else None.

(** ** The world outside the component *)

(** [uuid_at n] and [now_at n] are what the [n]-th call of the
    platform answers to [uuid()] and to [Date.now()]; [Date_parse] is
    [Date.parse] ([None] when the result is not finite); [fetch] is
    the network and [perf_at] the clock of [performance.now()]. *)
Record Platform : Type := {
  uuid_at : nat -> string;
  now_at : nat -> Z;
  perf_at : nat -> Z;
  Date_parse : string -> option Z;
  fetch : string -> option string -> fetch_outcome
}.

(** A computation that calls the platform: the number of calls made
    so far is threaded through. *)
Definition M (A : Type) : Type := nat -> A * nat.
Definition ret {A} (a : A) : M A := fun n => (a, n).
Definition bindM {A B} (m : M A) (k : A -> M B) : M B :=
  fun n => let (a, n') := m n in k a n'.

Notation "x <- m ;; k" := (bindM m (fun x => k))
  (at level 61, m at next level, right associativity).

Section WithPlatform.
Variable P : Platform.

Definition uuid : M string := fun n => (uuid_at P n, S n).
Definition Date_now : M Z := fun n => (now_at P n, S n).
Definition performance_now : M Z := fun n => (perf_at P n, S n).

Fixpoint mapM {A B} (f : A -> M B) (xs : list A) : M (list B) :=
  match xs with
  | [] => ret []
  | x :: r => y <- f x ;; ys <- mapM f r ;; ret (y :: ys)
  end.

(** One step of the loop over [steps]: the message it contributes,
    if any. *)
Definition open_message_of_step (s : value) : M (list (string * Z)) :=
  let name := match opt_member s "name" with VStr n => n | _ => "" end in
  if negb (Str.startsWith name "tool_open_message.")
     && negb (Str.startsWith name "assistant_open_message.")
  then ret []
  else
    match opt_member (opt_member s "request") "message" with
    | VStr msg =>
        if Str.truthy (Str.trim msg) then
          let startIso := match opt_member s "start" with VStr x => x | _ => "" end in
          let ms := if Str.truthy startIso then Date_parse P startIso else None in
          match ms with
          | Some t => ret [(Str.trim msg, t)]
          | None => t <- Date_now ;; ret [(Str.trim msg, t)]
          end
        else ret []
    | _ => ret []
    end.

Definition extractOpenMessagesFromSteps (rawResponse : value) : M (list (string * Z)) :=
  match opt_member rawResponse "steps" with
  | VArr steps =>
      out <- mapM open_message_of_step steps ;;
      ret (Arr.sort (fun a b => (snd a <? snd b)%Z) (List.concat out))
  | _ => ret []
  end.

(** ** The state of the component and of the page *)

(** The two query parameters of the page URL that carry a thread id. *)
Record Location : Type := {
  q_thread_id : option string;
  q_threadId : option string
}.

Definition getThreadIdFromLocation (loc : Location) : option string :=
  let tid := Str.trim (or_empty (or_else (or_else (q_thread_id loc) (q_threadId loc))
                                         (Some ""))) in
  if Str.truthy tid then Some tid else None.

(** [lastOpenMsgRef.current] *)
Record OpenMark : Type := { m_threadId : string; m_text : string; m_ts : Z }.

Record State : Type := {
  messages : list ChatMessage;
  draft : string;
  loading : bool;
  error : option string;
  selectedId : option string;
  inspected : option (string * value);
  inspectError : option string;
  loadedThreadId : option string;
  suppressNextUrlSync : bool;
  lastOpenMsg : option OpenMark;
  location : Location;
  (** [window.location.href] is the text that [url.toString()] gives
      for [url = new URL(window.location.href)] once the search
      parameters of [url] have been written again, as they are after
      [replaceState(url.toString())]; an address that was typed, such as
      one that ends with [?thread_id=T2&debug], need not be. *)
  hrefWritten : bool;
  (** the calls of [loadThreadToChat] that were started *)
  threadLoads : list string
}.

Definition setMessages (f : list ChatMessage -> list ChatMessage) (s : State) : State :=
  {| messages := f (messages s); draft := draft s; loading := loading s;
     error := error s; selectedId := selectedId s; inspected := inspected s;
     inspectError := inspectError s; loadedThreadId := loadedThreadId s;
     suppressNextUrlSync := suppressNextUrlSync s; lastOpenMsg := lastOpenMsg s;
     location := location s; hrefWritten := hrefWritten s;
     threadLoads := threadLoads s |}.

Definition setDraft (x : string) (s : State) : State :=
  {| messages := messages s; draft := x; loading := loading s;
     error := error s; selectedId := selectedId s; inspected := inspected s;
     inspectError := inspectError s; loadedThreadId := loadedThreadId s;
     suppressNextUrlSync := suppressNextUrlSync s; lastOpenMsg := lastOpenMsg s;
     location := location s; hrefWritten := hrefWritten s;
     threadLoads := threadLoads s |}.

Definition setLoading (x : bool) (s : State) : State :=
  {| messages := messages s; draft := draft s; loading := x;
     error := error s; selectedId := selectedId s; inspected := inspected s;
     inspectError := inspectError s; loadedThreadId := loadedThreadId s;
     suppressNextUrlSync := suppressNextUrlSync s; lastOpenMsg := lastOpenMsg s;
     location := location s; hrefWritten := hrefWritten s;
     threadLoads := threadLoads s |}.

Definition setError (x : option string) (s : State) : State :=
  {| messages := messages s; draft := draft s; loading := loading s;
     error := x; selectedId := selectedId s; inspected := inspected s;
     inspectError := inspectError s; loadedThreadId := loadedThreadId s;
     suppressNextUrlSync := suppressNextUrlSync s; lastOpenMsg := lastOpenMsg s;
     location := location s; hrefWritten := hrefWritten s;
     threadLoads := threadLoads s |}.

Definition setSelectedId (x : option string) (s : State) : State :=
  {| messages := messages s; draft := draft s; loading := loading s;
     error := error s; selectedId := x; inspected := inspected s;
     inspectError := inspectError s; loadedThreadId := loadedThreadId s;
     suppressNextUrlSync := suppressNextUrlSync s; lastOpenMsg := lastOpenMsg s;
     location := location s; hrefWritten := hrefWritten s;
     threadLoads := threadLoads s |}.

Definition setInspected (x : option (string * value)) (s : State) : State :=
  {| messages := messages s; draft := draft s; loading := loading s;
     error := error s; selectedId := selectedId s; inspected := x;
     inspectError := inspectError s; loadedThreadId := loadedThreadId s;
     suppressNextUrlSync := suppressNextUrlSync s; lastOpenMsg := lastOpenMsg s;
     location := location s; hrefWritten := hrefWritten s;
     threadLoads := threadLoads s |}.

Definition setInspectError (x : option string) (s : State) : State :=
  {| messages := messages s; draft := draft s; loading := loading s;
     error := error s; selectedId := selectedId s; inspected := inspected s;
     inspectError := x; loadedThreadId := loadedThreadId s;
     suppressNextUrlSync := suppressNextUrlSync s; lastOpenMsg := lastOpenMsg s;
     location := location s; hrefWritten := hrefWritten s;
     threadLoads := threadLoads s |}.

Definition setLoadedThreadId (x : option string) (s : State) : State :=
  {| messages := messages s; draft := draft s; loading := loading s;
     error := error s; selectedId := selectedId s; inspected := inspected s;
     inspectError := inspectError s; loadedThreadId := x;
     suppressNextUrlSync := suppressNextUrlSync s; lastOpenMsg := lastOpenMsg s;
     location := location s; hrefWritten := hrefWritten s;
     threadLoads := threadLoads s |}.

Definition setSuppress (x : bool) (s : State) : State :=
  {| messages := messages s; draft := draft s; loading := loading s;
     error := error s; selectedId := selectedId s; inspected := inspected s;
     inspectError := inspectError s; loadedThreadId := loadedThreadId s;
     suppressNextUrlSync := x; lastOpenMsg := lastOpenMsg s;
     location := location s; hrefWritten := hrefWritten s;
     threadLoads := threadLoads s |}.

Definition setLastOpenMsg (x : option OpenMark) (s : State) : State :=
  {| messages := messages s; draft := draft s; loading := loading s;
     error := error s; selectedId := selectedId s; inspected := inspected s;
     inspectError := inspectError s; loadedThreadId := loadedThreadId s;
     suppressNextUrlSync := suppressNextUrlSync s; lastOpenMsg := x;
     location := location s; hrefWritten := hrefWritten s;
     threadLoads := threadLoads s |}.

Definition setLocation (x : Location) (s : State) : State :=
  {| messages := messages s; draft := draft s; loading := loading s;
     error := error s; selectedId := selectedId s; inspected := inspected s;
     inspectError := inspectError s; loadedThreadId := loadedThreadId s;
     suppressNextUrlSync := suppressNextUrlSync s; lastOpenMsg := lastOpenMsg s;
     location := x; hrefWritten := hrefWritten s;
     threadLoads := threadLoads s |}.

(** [window.history.replaceState({}, '', url.toString())] *)
Definition replaceState (x : Location) (s : State) : State :=
  {| messages := messages s; draft := draft s; loading := loading s;
     error := error s; selectedId := selectedId s; inspected := inspected s;
     inspectError := inspectError s; loadedThreadId := loadedThreadId s;
     suppressNextUrlSync := suppressNextUrlSync s; lastOpenMsg := lastOpenMsg s;
     location := x; hrefWritten := true;
     threadLoads := threadLoads s |}.

Definition startThreadLoad (tid : string) (s : State) : State :=
  {| messages := messages s; draft := draft s; loading := loading s;
     error := error s; selectedId := selectedId s; inspected := inspected s;
     inspectError := inspectError s; loadedThreadId := loadedThreadId s;
     suppressNextUrlSync := suppressNextUrlSync s; lastOpenMsg := lastOpenMsg s;
     location := location s; hrefWritten := hrefWritten s;
     threadLoads := (threadLoads s ++ [tid])%list |}.

Definition systemBanner (i : string) (t : string) (at_ : Z) : ChatMessage :=
  {| id := i; role := system; text := t; createdAt := at_;
     answerItems := None; trace := None |}.

Definition startedText : string :=
  "Conversa iniciada. Envie uma mensagem para o ai-framework (provider: simple).".

Definition closedText : string :=
  "Conversa encerrada. Voc" ++ Str.char (ascii_of_nat 234) ++ " j"
  ++ Str.char (ascii_of_nat 225) ++ " pode iniciar uma nova conversa.".

Definition resetConversation (systemText : option string) (s : State) : M State :=
  now <- Date_now ;;
  i <- uuid ;;
  let t := if some_text systemText then or_empty systemText else startedText in
  ret (setError None
         (setInspectError None
            (setInspected None
               (setSelectedId None
                  (setMessages (fun _ => [systemBanner i t now]) s))))).

(** The listener of [popstate] and of [chatweb:thread_id_changed],
    also run by the effect that depends on [loadedThreadId]. The
    asynchronous [loadThreadToChat] it starts is only recorded. *)
Definition syncFromUrl (s : State) : M State :=
  if suppressNextUrlSync s then ret (setSuppress false s)
  else
    match getThreadIdFromLocation (location s) with
    | None => resetConversation None (setLoadedThreadId None s)
    | Some tid =>
        match loadedThreadId s with
        | Some l =>
            if String.eqb l tid then ret s
            else
              s' <- resetConversation (Some ("Carregando thread: " ++ tid ++ "...")) s ;;
              ret (startThreadLoad tid s')
        | None =>
            s' <- resetConversation (Some ("Carregando thread: " ++ tid ++ "...")) s ;;
            ret (startThreadLoad tid s')
        end
    end.

Definition opt_eqb (a b : option string) : bool :=
  match a, b with
  | Some x, Some y => String.eqb x y
  | None, None => true
  | _, _ => false
  end.

(** The page URL is rewritten and, unless nothing changed, the event
    [chatweb:thread_id_changed] is dispatched: its listener runs at
    once. Nothing changed when the thread id is the one asked for and
    [url.toString()] is [window.location.href]: the two parameters are
    as they will be written, and so is the rest of the address. *)
Definition setThreadIdInLocation (threadId : option string) (s : State) : M State :=
  let loc := location s in
  let tid := Str.trim (or_empty threadId) in
  let prev := Str.trim (or_empty (q_thread_id loc)) in
  let loc' := {| q_thread_id := if Str.truthy tid then Some tid else None;
                 q_threadId := None |} in
  if String.eqb prev tid
     && opt_eqb (q_thread_id loc) (q_thread_id loc')
     && opt_eqb (q_threadId loc) (q_threadId loc')
     && hrefWritten s
  then ret s
  else syncFromUrl (replaceState loc' s).

(** ** [onSend] *)

(** What [onSend] keeps in its closure across the [await]. *)
Record Pending : Type := {
  p_text : string;
  p_prevThreadId : option string;
  p_sentAt : Z;
  p_userMsg : ChatMessage
}.

(** Up to the call of [sendMessage]; [None] when nothing is sent. *)
Definition onSend_begin (s : State) : M (option Pending * State) :=
  let t := Str.trim (draft s) in
  if Str.is_empty t || loading s then ret (None, s)
  else
    let s1 := setError None (setDraft "" s) in
    let prevThreadId := getThreadIdFromLocation (location s1) in
    sentAt <- Date_now ;;
    i <- uuid ;;
    let userMsg := {| id := i; role := user; text := t; createdAt := sentAt;
                      answerItems := None; trace := None |} in
    let s2 := setMessages (fun prev => (prev ++ [userMsg])%list) s1 in
    let s3 := setSelectedId (Some i) s2 in
    ret (Some {| p_text := t; p_prevThreadId := prevThreadId;
                 p_sentAt := sentAt; p_userMsg := userMsg |},
         setLoading true s3).

(** The loop over [openEvents]: the messages to show again and the
    mark left in [lastOpenMsgRef]. *)
Fixpoint openMsgs_loop (tidForDedup : string) (now : Z)
         (events : list (string * Z)) (last : option OpenMark)
  : M (list ChatMessage * option OpenMark) :=
  match events with
  | [] => ret ([], last)
  | (t, ts) :: r =>
      let dup :=
        match last with
        | Some l =>
            String.eqb (m_threadId l) tidForDedup && String.eqb (m_text l) t
            && ((now - m_ts l <? 10000)%Z || (Z.abs (ts - m_ts l) <? 10000)%Z)
        | None => false
        end in
      if dup then openMsgs_loop tidForDedup now r last
      else
        i <- uuid ;;
        rest <- openMsgs_loop tidForDedup now r
                  (Some {| m_threadId := tidForDedup; m_text := t; m_ts := ts |}) ;;
        ret ({| id := i; role := assistant; text := t; createdAt := ts;
                answerItems := None; trace := None |} :: fst rest, snd rest)
  end.

(** [String(v || '').trim().toLowerCase()] *)
Definition command_word (v : value) : string :=
  toLowerCase (Str.trim (ToString (if truthy v then v else VStr ""))).

Definition is_close_command (raw : value) : bool :=
  let cmd := command_word (opt_member (opt_member raw "data") "command") in
  let action := command_word (opt_member (opt_member raw "data") "action") in
  String.eqb cmd "#close" || String.eqb cmd "#delete-user"
  || String.eqb action "close_threads" || String.eqb action "delete_user".

(** [(ctx?.threadId || '').trim() || null] *)
Definition nextThreadId_of (raw : value) : option string :=
  let tid :=
    match extractConversationContextFromResponseJson raw with
    | Some ctx => Str.trim (or_empty (or_else (threadId ctx) (Some "")))
    | None => ""
    end in
  if Str.truthy tid then Some tid else None.

Definition first_truthy (a b : string) : string :=
  if Str.truthy a then a else b.

(** The messages of the [steps] of the reply that are shown again,
    and the mark left in [lastOpenMsgRef]. *)
Definition replayOpenMessages (p : Pending) (raw : value) (last : option OpenMark)
  : M (list ChatMessage * option OpenMark) :=
  openEvents <- extractOpenMessagesFromSteps raw ;;
  match openEvents with
  | [] => ret ([], last)
  | _ =>
      let tidForDedup :=
        Str.trim
          (or_empty
             (or_else
                (or_else
                   match extractConversationContextFromResponseJson raw with
                   | Some ctx => threadId ctx
                   | None => None
                   end
                   (p_prevThreadId p))
                (Some ""))) in
      now <- Date_now ;;
      openMsgs_loop tidForDedup now openEvents last
  end.

(** The [try] block after the [await], for a call that returned. *)
Definition onSend_resolved (settings : ChatSettings) (p : Pending)
           (res : send_result) (s : State) : M State :=
  let assistantText :=
    first_truthy
      (Str.trim (first_truthy (itemsToRenderableText (Client.answerItems res))
                              (answerText res)))
      "[sem resposta]" in
  receivedAt <- Date_now ;;
  let measuredTimingMs :=
    if (0 <? timingMs res)%Z then timingMs res else (receivedAt - p_sentAt p)%Z in
  aid <- uuid ;;
  let assistantMsg :=
    {| id := aid; role := assistant; text := assistantText; createdAt := receivedAt;
       answerItems := Some (Client.answerItems res);
       trace := Some {| tr_url := fst (request res);
                        tr_payload := snd (request res);
                        tr_status := status res;
                        tr_ok := ok res;
                        tr_json := raw res;
                        tr_rawText := rawText res;
                        tr_timingMs := measuredTimingMs |} |} in
  opened <- replayOpenMessages p (raw res) (lastOpenMsg s) ;;
  let openMsgs := fst opened in
  let s := setLastOpenMsg (snd opened) s in
  if is_close_command (raw res) then
    s <- setThreadIdInLocation None (setSuppress true s) ;;
    let s := setLoadedThreadId None s in
    i <- uuid ;;
    at_ <- Date_now ;;
    let s := setMessages (fun _ => systemBanner i closedText at_
                                     
                                     :: p_userMsg p :: (openMsgs ++ [assistantMsg])%list) s in
    ret (setInspectError None (setInspected None (setSelectedId (Some aid) s)))
  else
    let append (s : State) : State :=
      setInspectError None
        (setInspected None
           (setSelectedId (Some aid)
              (setMessages (fun prev => (prev ++ openMsgs ++ [assistantMsg])%list) s))) in
    match nextThreadId_of (raw res) with
    | Some nextThreadId =>
        if match p_prevThreadId p with
           | Some prev => negb (String.eqb prev nextThreadId)
           | None => false
           end
        then
          s <- setThreadIdInLocation (Some nextThreadId) (setSuppress true s) ;;
          let s := setLoadedThreadId (Some nextThreadId) s in
          i <- uuid ;;
          at_ <- Date_now ;;
          let s := setMessages (fun _ => systemBanner i ("Thread: " ++ nextThreadId) at_
                                           
                                     :: p_userMsg p :: (openMsgs ++ [assistantMsg])%list) s in
          ret (setInspectError None (setInspected None (setSelectedId (Some aid) s)))
        else
          s <- setThreadIdInLocation (Some nextThreadId) (setSuppress true s) ;;
          ret (append (setLoadedThreadId (Some nextThreadId) s))
    | None => ret (append s)
    end.

(** The [catch] block. *)
Definition onSend_rejected (settings : ChatSettings) (p : Pending)
           (e : js_error) (s : State) : M State :=
  let msg := message e in
  let s := setError (Some msg) s in
  let st := match attached e with Some a => a_status a | None => 0%Z end in
  let raw := match attached e with Some a => a_response a | None => VUndef end in
  let rawText := match attached e with Some a => a_rawText a | None => None end in
  receivedAt <- Date_now ;;
  aid <- uuid ;;
  let url :=
    match attached e with
    | Some a => first_truthy (fst (a_request a)) "(desconhecido)"
    | None => "(desconhecido)"
    end in
  let payload :=
    match attached e with
    | Some a => snd (a_request a)
    | None => [("message", VStr (p_text p));
               ("customer_phone", VStr (customerPhone settings))]
    end in
  let assistantMsg :=
    {| id := aid; role := assistant;
       text := "Erro ao chamar o backend: " ++ msg;
       createdAt := receivedAt;
       answerItems := None;
       trace := Some {| tr_url := url;
                        tr_payload := payload;
                        tr_status := st;
                        tr_ok := false;
                        tr_json := if nullish raw then VNull else raw;
                        tr_rawText := rawText;
                        tr_timingMs := (receivedAt - p_sentAt p)%Z |} |} in
  ret (setInspected None
         (setSelectedId (Some aid)
            (setMessages (fun prev => (prev ++ [assistantMsg])%list) s))).

(** After the [await]: [try], [catch] and [finally]. *)
Definition onSend_end (settings : ChatSettings) (p : Pending)
           (outcome : completion send_result) (s : State) : M State :=
  s' <- match outcome with
        | Normal res => onSend_resolved settings p res s
        | Throw e => onSend_rejected settings p e s
        end ;;
  ret (setLoading false s').

(** The call of [sendMessage] made by [onSend]. *)
Definition callSendMessage (settings : ChatSettings) (message : string)
  : M (completion send_result) :=
  fun n =>
    (sendMessage (fetch P) (perf_at P n) (perf_at P (S n)) settings message, S (S n)).

(** [onSend] when nothing else happens while the reply is awaited. *)
Definition onSend (settings : ChatSettings) (s : State) : M State :=
  b <- onSend_begin s ;;
  match fst b with
  | None => ret (snd b)
  | Some p =>
      outcome <- callSendMessage settings (p_text p) ;;
      onSend_end settings p outcome (snd b)
  end.

End WithPlatform.

End Chat.

(* ================================================================== *)
(** * [src/components/JsonTree.tsx] *)

Module JsonTree.
Import Json.

Definition isPlainObject (v : value) : bool :=
  match v with VObj _ => true | _ => false end.

Section WithCollation.
(** [a.localeCompare(b)]: negative, zero or positive. *)
Variable localeCompare : string -> string -> Z.

Definition sortKeys (keys : list string) : list string :=
  Arr.sort (fun a b => (localeCompare a b <? 0)%Z) keys.

Definition getNamedArrayLabel (item : value) (index : nat) : string :=
  let by_index := "[" ++ Str.of_nat index ++ "]" in
  if isPlainObject item then
    match opt_member item "name" with
    | VStr nm =>
        if Str.truthy (Str.trim nm) then "[" ++ Str.trim nm ++ "]"
        else
          match opt_member item "id" with
          | VStr i => if Str.truthy (Str.trim i) then "[" ++ Str.trim i ++ "]" else by_index
          | _ => by_index
          end
    | _ =>
        match opt_member item "id" with
        | VStr i => if Str.truthy (Str.trim i) then "[" ++ Str.trim i ++ "]" else by_index
        | _ => by_index
        end
    end
  else by_index.

(** [Object.keys(o)] *)
Definition keys (fs : fields) : list string := map fst fs.

Record entry : Type := { key : string; child : value; label : string }.

Fixpoint array_entries (i : nat) (xs : list value) : list entry :=
  match xs with
  | [] => []
  | v :: r =>
      {| key := Str.of_nat i; child := v; label := getNamedArrayLabel v i |}
        :: array_entries (S i) r
  end.

(** The children that [Node] shows under an expanded array or
    object. *)
Definition entries (v : value) : list entry :=
  match v with
  | VArr xs => array_entries 0 xs
  | VObj fs =>
      map (fun k => {| key := k; child := opt_member v k; label := k |})
          (sortKeys (keys fs))
  | _ => []
  end.

End WithCollation.

End JsonTree.

(* ================================================================== *)
(** * [src/components/Onboarding.tsx] *)

Module Onboarding.
Import Client.

Definition normalizeDigits (v : string) : string := Str.keep_digits v.

Inductive ApiEnv : Type := DEV | PROD.

(** [API_OPTIONS] *)
Definition baseUrl_of (e : ApiEnv) : string :=
  match e with
  | DEV => ""
  | PROD => "https://api.zibb.com.br"
  end.

(** The state of the form. *)
Record Form : Type := {
  apiEnv : ApiEnv;
  f_companyId : string;
  f_customerPhone : string;
  f_customerName : string;
  starting : bool
}.

Definition canStart (f : Form) : bool :=
  (0 <? String.length (Str.trim (f_companyId f)))
  && (8 <=? String.length (normalizeDigits (f_customerPhone f))).

(** The settings that the click on the start button hands to
    [onStart]; [None] while the button is disabled. *)
Definition start (f : Form) : option ChatSettings :=
  if negb (canStart f) || starting f then None
  else
    Some {| companyId := Str.trim (f_companyId f);
            customerPhone := normalizeDigits (f_customerPhone f);
            customerName :=
              (let n := Str.trim (f_customerName f) in
               if Str.truthy n then Some n else None);
            apiBaseUrl := Some (baseUrl_of (apiEnv f)) |}.

End Onboarding.

(* ================================================================== *)
(** * An implementation of the [URL] class for plain web addresses *)

(** Modelled from the URL Standard, for the addresses
    [http(s)://host[/path][?query][#fragment]] written with lower-case
    letters, digits, [.] and [-] in the host, letters, digits and
    [/ _ - . ~] in the path, letters, digits, [_ . ~ * = & + -] and
    escapes in the query, and the same with the escapes [%00] to [%7F]
    in the fragment. The query is one that [URLSearchParams] writes:
    reading its pairs and writing them again gives the same text. On
    these the platform changes nothing but an empty path, which becomes
    [/]. Every other input, a relative reference included, is outside
    this implementation and is reported as a failure. *)
Module SimpleUrl.

Record t : Type := {
  scheme : string;
  host : string;
  path : string;
  query : option string;
  fragment : option string
}.

Definition alnum (c : ascii) : bool :=
  let n := nat_of_ascii c in
  ((65 <=? n) && (n <=? 90)) || ((97 <=? n) && (n <=? 122)) || Str.is_digit c.

Definition host_unit (c : ascii) : bool :=
  let n := nat_of_ascii c in
  ((97 <=? n) && (n <=? 122)) || Str.is_digit c || (n =? 46) || (n =? 45).

Definition path_unit (c : ascii) : bool :=
  let n := nat_of_ascii c in
  alnum c || (n =? 47) || (n =? 95) || (n =? 45) || (n =? 46) || (n =? 126).

Definition query_unit (c : ascii) : bool :=
  let n := nat_of_ascii c in
  alnum c || (n =? 95) || (n =? 46) || (n =? 126) || (n =? 42) || (n =? 61)
  || (n =? 38) || (n =? 43) || (n =? 45) || (n =? 37).

(** Every [%] starts an escape of a byte below 128. *)
Fixpoint escapes_ascii (s : string) : bool :=
  match s with
  | "" => true
  | String "%" r =>
      match r with
      | String a (String b _) =>
          match JsonText.hex_value a, JsonText.hex_value b with
          | Some x, Some _ => (x <? 8) && escapes_ascii r
          | _, _ => false
          end
      | _ => false
      end
  | String _ r => escapes_ascii r
  end.

(** The text before the first code unit that satisfies [stop], and the
    text from there on. *)
Fixpoint break (stop : ascii -> bool) (s : string) : string * string :=
  match s with
  | "" => ("", "")
  | String c r =>
      if stop c then ("", s)
      else let (a, b) := break stop r in (String c a, b)
  end.

Definition is_unit (n : nat) (c : ascii) : bool := nat_of_ascii c =? n.

(** [.] and [..] segments are rewritten by the platform: not here. *)
Fixpoint has_dot_segment (s : string) : bool :=
  match s with
  | String "/" (String "." r) =>
      match r with
      | "" | String "/" _ | String "." "" | String "." (String "/" _) => true
      | _ => has_dot_segment r
      end
  | String _ r => has_dot_segment r
  | "" => false
  end.

Definition drop (n : nat) (s : string) : string :=
  String.substring n (String.length s - n) s.

(** ** [application/x-www-form-urlencoded] *)

Definition form_safe (c : ascii) : bool :=
  let n := nat_of_ascii c in
  alnum c || (n =? 42) || (n =? 45) || (n =? 46) || (n =? 95).

(** One code unit as the serializer writes it. *)
Definition form_encode_unit (c : ascii) : string :=
  if form_safe c then Str.char c
  else if nat_of_ascii c =? 32 then "+"
  else Str.percent_encode_unit c.

Fixpoint form_encode (s : string) : string :=
  match s with
  | "" => ""
  | String c r => form_encode_unit c ++ form_encode r
  end.

Definition hex2 (a b : ascii) : option nat :=
  match JsonText.hex_value a, JsonText.hex_value b with
  | Some x, Some y => Some (16 * x + y)
  | _, _ => None
  end.

(** Bytes: [+] is a space, [%XX] is the byte [XX]. *)
Fixpoint form_bytes (s : string) : list nat :=
  match s with
  | "" => []
  | String "+" r => 32 :: form_bytes r
  | String "%" (String a (String b r as r1) as r2) =>
      match hex2 a b with
      | Some n => n :: form_bytes r
      | None => 37 :: form_bytes r2
      end
  | String c r => nat_of_ascii c :: form_bytes r
  end.

(** UTF-8 to code units, for the code units up to 255. *)
Fixpoint utf8_units (bs : list nat) : string :=
  match bs with
  | [] => ""
  | b :: r =>
      match r with
      | b2 :: r' =>
          if ((b =? 194) || (b =? 195)) && (128 <=? b2) && (b2 <=? 191)
          then String (ascii_of_nat ((b - 192) * 64 + (b2 - 128))) (utf8_units r')
          else String (ascii_of_nat b) (utf8_units r)
      | [] => String (ascii_of_nat b) ""
      end
  end.

Definition form_decode (s : string) : string := utf8_units (form_bytes s).

(** The pieces between [&]. *)
Fixpoint split_amp (cur : string) (s : string) : list string :=
  match s with
  | "" => [cur]
  | String c r =>
      if is_unit 38 c then cur :: split_amp "" r
      else split_amp (cur ++ Str.char c) r
  end.

Definition pair_of (piece : string) : string * string :=
  let (k, r) := break (is_unit 61) piece in
  (form_decode k, form_decode match r with String _ v => v | "" => "" end).

(** The pairs that a query holds. *)
Definition pairs (q : string) : list (string * string) :=
  map pair_of (filter (fun x => negb (Str.is_empty x)) (split_amp "" q)).

Definition serialize (l : list (string * string)) : string :=
  Str.join "&" (map (fun kv => form_encode (fst kv) ++ "=" ++ form_encode (snd kv)) l).

(** The query is as [URLSearchParams] writes it. *)
Definition written (q : string) : bool := String.eqb (serialize (pairs q)) q.

(** ** Reading and writing an address *)

(** What follows [://]. *)
Definition read_after (sch r : string) : option t :=
  let (h, r1) := break (fun c => is_unit 47 c || is_unit 63 c || is_unit 35 c) r in
  let (p, r2) := break (fun c => is_unit 63 c || is_unit 35 c) r1 in
  let (q, r3) :=
    match r2 with
    | String "?" x =>
        let (a, b) := break (is_unit 35) x in (Some a, b)
    | _ => (None, r2)
    end in
  let f :=
    match r3 with
    | String "#" x => Some x
    | _ => None
    end in
  if negb (Str.is_empty h) && Str.all_chars host_unit h
     && Str.all_chars path_unit p && negb (has_dot_segment p)
     && Str.all_chars query_unit (Client.or_empty q)
     && written (Client.or_empty q)
     && Str.all_chars query_unit (Client.or_empty f)
     && escapes_ascii (Client.or_empty f)
  then Some {| scheme := sch; host := h;
               path := if Str.is_empty p then "/" else p;
               query := q; fragment := f |}
  else None.

Definition read (href : string) : option t :=
  if Str.startsWith href "https://" then read_after "https" (drop 8 href)
  else if Str.startsWith href "http://" then read_after "http" (drop 7 href)
  else None.

Definition toString (u : t) : string :=
  scheme u ++ "://" ++ host u ++ path u
  ++ match query u with Some q => "?" ++ q | None => "" end
  ++ match fragment u with Some f => "#" ++ f | None => "" end.

(** ** The search parameters *)

Definition params (u : t) : list (string * string) :=
  match query u with
  | None => []
  | Some q => pairs q
  end.

Definition has (u : t) (k : string) : bool :=
  existsb (fun kv => String.eqb (fst kv) k) (params u).

Definition get (u : t) (k : string) : option string :=
  option_map snd (find (fun kv => String.eqb (fst kv) k) (params u)).

(** The first pair named [k] takes the value, the others go; a name
    that is new goes last. *)
Fixpoint set_pair (k v : string) (l : list (string * string)) : list (string * string) :=
  match l with
  | [] => [(k, v)]
  | (k', v') :: r =>
      if String.eqb k' k
      then (k, v) :: filter (fun kv => negb (String.eqb (fst kv) k)) r
      else (k', v') :: set_pair k v r
  end.

Definition set (u : t) (k v : string) : t :=
  {| scheme := scheme u; host := host u; path := path u;
     query := Some (serialize (set_pair k v (params u)));
     fragment := fragment u |}.

Definition api : Url.Api :=
  {| Url.URL := t;
     Url.URL_new := fun href _ => read href;
     Url.URL_toString := toString;
     Url.searchParams_has := has;
     Url.searchParams_get := get;
     Url.searchParams_set := set |}.

End SimpleUrl.

(* ================================================================== *)
(** * [src/components/Chat.tsx]: [FormattedText] *)

Module ChatText.

(** What [FormattedText] puts on the page: [<span>] or [<strong>]. *)
Inductive piece : Type :=
| Span (s : string)
| Strong (s : string).

(** The text before the first asterisk and the text after it; [None]
    when [indexOf('*')] finds none. *)
Fixpoint cut (s : string) : option (string * string) :=
  match s with
  | "" => None
  | String c r =>
      if Ascii.eqb c "*" then Some ("", r)
      else
        match cut r with
        | Some (a, b) => Some (String c a, b)
        | None => None
        end
  end.

Definition star : string := "*".

(** The [while] loop, on [rest = text.slice(i)]; every turn moves [i]
    past two asterisks, so that [fuel] turns are enough for a text of
    that length. *)
Fixpoint FormattedText_loop (fuel : nat) (rest : string) : list piece :=
  match fuel with
  | 0 => []
  | S fuel' =>
      if Str.is_empty rest then []
      else
        match cut rest with
        | None => [Span rest]
        | Some (before, after_start) =>
            match cut after_start with
            | None => [Span rest]
            | Some (content, after_end) =>
                ((if Str.truthy before then [Span before] else [])
                   ++ (if String.length (Str.trim content) =? 0
                       then Span (star ++ content ++ star)
                       else Strong content)
                   :: FormattedText_loop fuel' after_end)%list
            end
        end
  end.

Definition FormattedText (text : string) : list piece :=
  FormattedText_loop (String.length text) text.

End ChatText.

(* ================================================================== *)
(** * [src/components/Onboarding.tsx]: the form from its start to the click *)

Module OnboardingFlow.
Import Json Client Onboarding.

(** [initialApi] *)
Definition initialApi (initial : option ChatSettings) : ApiEnv :=
  let saved :=
    Str.trim (or_empty match initial with
                       | Some s => apiBaseUrl s
                       | None => None
                       end) in
  if Str.is_empty saved then DEV
  else if Str.includes saved "api.zibb.com.br" then PROD
  else DEV.

(** The state with which the form starts. *)
Definition initForm (initial : option ChatSettings) : Form :=
  {| apiEnv := initialApi initial;
     f_companyId := match initial with Some s => companyId s | None => "" end;
     f_customerPhone := match initial with Some s => customerPhone s | None => "" end;
     f_customerName :=
       match initial with Some s => or_empty (customerName s) | None => "" end;
     starting := false |}.

(** The [onChange] of the four fields. *)
Definition chooseApi (e : ApiEnv) (f : Form) : Form :=
  {| apiEnv := e; f_companyId := f_companyId f; f_customerPhone := f_customerPhone f;
     f_customerName := f_customerName f; starting := starting f |}.

Definition chooseCompany (v : string) (f : Form) : Form :=
  {| apiEnv := apiEnv f; f_companyId := v; f_customerPhone := f_customerPhone f;
     f_customerName := f_customerName f; starting := starting f |}.

Definition typePhone (v : string) (f : Form) : Form :=
  {| apiEnv := apiEnv f; f_companyId := f_companyId f;
     f_customerPhone := normalizeDigits v;
     f_customerName := f_customerName f; starting := starting f |}.

Definition typeName (v : string) (f : Form) : Form :=
  {| apiEnv := apiEnv f; f_companyId := f_companyId f; f_customerPhone := f_customerPhone f;
     f_customerName := v; starting := starting f |}.

(** [setThreadIdInLocation] of the form: the page URL is rewritten, no
    event is sent. *)
Definition setThreadIdInLocation (threadId : option string) (loc : Chat.Location)
  : Chat.Location :=
  {| Chat.q_thread_id :=
       match threadId with
       | Some t => if Str.truthy t && Str.truthy (Str.trim t) then Some (Str.trim t) else None
       | None => None
       end;
     Chat.q_threadId := None |}.

(** What a [GET] gives once its body is read: a rejection (of [fetch]
    or of [resp.text()]), or the status and the text. *)
Inductive get_outcome : Type :=
| GetError (e : js_error)
| GetText (status : Z) (text : string).

Definition Error (msg : string) : js_error := {| message := msg; attached := None |}.

(** The address asked by [resolveOpenThreadId]. *)
Definition openThreadUrl (f : Form) : string :=
  let cid := Str.trim (f_companyId f) in
  let phone := normalizeDigits (f_customerPhone f) in
  let base := Str.strip_trailing "/" (Str.trim (baseUrl_of (apiEnv f))) in
  let path := "/v1/threads/open?company_id=" ++ Str.encodeURIComponent cid
              ++ "&customer_phone=" ++ Str.encodeURIComponent phone in
  if Str.truthy base then base ++ path else path.

(** What the click on the start button leaves behind. *)
Record Started : Type := {
  st_location : Chat.Location;
  st_startError : option string;
  st_settings : ChatSettings
}.

Section WithNetwork.
(** [fetch] is the network. [parse_error text] is the [SyntaxError]
    that [JSON.parse] raises on [text], and [not_a_function v] the
    [TypeError] raised by the call of [trim] on a value that has no such
    method: their messages are the engine's own. *)
Variable fetch : string -> get_outcome.
Variable parse_error : string -> js_error.
Variable not_a_function : value -> js_error.

(** [(json?.thread_id || '').trim() || null] *)
Definition thread_id_of (json : value) : completion (option string) :=
  let t := opt_member json "thread_id" in
  match (if truthy t then t else VStr "") with
  | VStr x => let tid := Str.trim x in Normal (if Str.truthy tid then Some tid else None)
  | v => Throw (not_a_function v)
  end.

Definition resolveOpenThreadId (f : Form) : completion (option string) :=
  let cid := Str.trim (f_companyId f) in
  let phone := normalizeDigits (f_customerPhone f) in
  if Str.is_empty cid || Str.is_empty phone then Normal None
  else
    match fetch (openThreadUrl f) with
    | GetError e => Throw e
    | GetText st text =>
        if negb (resp_ok st) then Throw (Error ("HTTP " ++ Str.of_Z st ++ ": " ++ text))
        else if Str.is_empty text then thread_id_of VNull
        else
          match JsonText.parse text with
          | Some json => thread_id_of json
          | None => Throw (parse_error text)
          end
    end.

(** The click on the start button, for a button that is enabled: the
    page URL, the error shown and the settings handed to [onStart]. *)
Definition onStartClick (f : Form) (loc : Chat.Location) : option Started :=
  match start f with
  | None => None
  | Some s =>
      Some match resolveOpenThreadId f with
           | Normal tid => {| st_location := setThreadIdInLocation tid loc;
                              st_startError := None; st_settings := s |}
           | Throw e => {| st_location := setThreadIdInLocation None loc;
                           st_startError := Some (message e); st_settings := s |}
           end
  end.

End WithNetwork.

End OnboardingFlow.

(* ================================================================== *)
(** * [src/App.tsx] *)

Module App.
Import Json Client Storage.

(** [saved] is what [loadSettings()] gave when the page was opened. *)
Record AppState : Type := {
  storage : localStorage;
  saved : option value;
  settings : option value
}.

(** Opening the page. *)
Definition mount (st : localStorage) : AppState :=
  {| storage := st; saved := loadSettings st; settings := loadSettings st |}.

Definition onReset (a : AppState) : AppState :=
  {| storage := clearSettings (storage a); saved := saved a; settings := None |}.

Definition onStart (s : ChatSettings) (a : AppState) : AppState :=
  {| storage := saveSettings (settings_value s) (storage a);
     saved := saved a;
     settings := Some (settings_value s) |}.

Inductive view : Type :=
| ShowChat (settings : value)
| ShowOnboarding (initial : option value).

Definition render (a : AppState) : view :=
  match settings a with
  | Some v => if truthy v then ShowChat v else ShowOnboarding (saved a)
  | None => ShowOnboarding (saved a)
  end.

End App.

(* ================================================================== *)
(** * [src/components/Chat.tsx]: the inspector panel, the thread history
      and the push channel *)

Module ChatPanel.
Import Json Client ChatView Chat.

(** [(settings.apiBaseUrl || '').trim().replace(/\/+$/, '')] *)
Definition apiBase (settings : ChatSettings) : string :=
  Str.strip_trailing "/" (Str.trim (or_empty (apiBaseUrl settings))).

Definition with_slash (path : string) : string :=
  if Str.startsWith path "/" then path else "/" ++ path.

Definition buildApiUrl (settings : ChatSettings) (path : string) : string :=
  let base := apiBase settings in
  if Str.is_empty base then with_slash path
  else base ++ with_slash path.

(** [headerMeta.apiEnv] *)
Definition headerApiEnv (settings : ChatSettings) : Onboarding.ApiEnv :=
  let base := Str.trim (or_empty (apiBaseUrl settings)) in
  if Str.truthy base && Str.includes base "api.zibb.com.br"
  then Onboarding.PROD else Onboarding.DEV.

(** The thread of the push channel and its address. *)
Definition streamThread (s : State) : string :=
  Str.trim (or_empty (or_else (or_else (loadedThreadId s)
                                       (getThreadIdFromLocation (location s)))
                              (Some ""))).

Definition streamUrl (settings : ChatSettings) (tid : string) : string :=
  let base := apiBase settings in
  let path := "/v1/stream?session_id=" ++ Str.encodeURIComponent tid in
  if Str.truthy base then base ++ path else path.

(** ** The context shown in the panel *)

Definition ctx_of (m : ChatMessage) : option ConversationContext :=
  extractConversationContextFromResponseJson
    match trace m with
    | Some t => tr_json t
    | None => VUndef
    end.

(** [messages.findIndex(m => m.id === selectedId)] *)
Fixpoint findIndex (i : nat) (sel : option string) (ms : list ChatMessage) : option nat :=
  match ms with
  | [] => None
  | m :: r =>
      if match sel with Some x => String.eqb (id m) x | None => false end
      then Some i else findIndex (S i) sel r
  end.

(** The first context met, in the order of the list. *)
Fixpoint first_ctx (ms : list ChatMessage) : option ConversationContext :=
  match ms with
  | [] => None
  | m :: r =>
      match ctx_of m with
      | Some c => Some c
      | None => first_ctx r
      end
  end.

(** [activeCtx]: from the selected message upwards, then from the last
    message upwards. *)
Definition activeCtx (ms : list ChatMessage) (sel : option string)
  : option ConversationContext :=
  match findIndex 0 sel ms with
  | Some i =>
      match first_ctx (rev (firstn (S i) ms)) with
      | Some c => Some c
      | None => first_ctx (rev ms)
      end
  | None => first_ctx (rev ms)
  end.

(** ** The trace made up for a message of the history *)

(** [x || null] and [x ?? undefined] *)
Definition or_null (v : value) : value := if truthy v then v else VNull.
Definition or_undefined (v : value) : value := if nullish v then VUndef else v.

Definition syntheticPayload (thread row : value) : value :=
  let ta := or_null (opt_member row "thread_assistant") in
  let asst := or_null (opt_member ta "assistant") in
  VObj [("success", VBool true); ("provider", VStr "simple");
        ("data",
         VObj [("assistant_id", or_undefined (opt_member ta "assistant_id"));
               ("thread_current_assistant_id", or_undefined (opt_member ta "assistant_id"));
               ("customer_id", or_undefined (opt_member thread "customer_id"));
               ("company_id", or_undefined (opt_member thread "company_id"));
               ("thread_id", or_undefined (opt_member thread "id"));
               ("platform", or_undefined (opt_member asst "platform"));
               ("external_id", or_undefined (opt_member asst "external_id"));
               ("thread_assistant_external_id",
                or_undefined (opt_member ta "external_id"))])].

Definition buildSyntheticTraceFromThreadMessage (settings : ChatSettings)
           (thread row : value) (timingMs : Z) : ApiTrace :=
  {| tr_url :=
       buildApiUrl settings
         ("/v1/threads/"
            ++ Str.encodeURIComponent
                 (ToString (let i := opt_member thread "id" in
                            if truthy i then i else VStr ""))
            ++ "/messages");
     tr_payload := [];
     tr_status := 200;
     tr_ok := true;
     tr_json := syntheticPayload thread row;
     tr_rawText := None;
     tr_timingMs := timingMs |}.

Section WithPlatform.
Variable P : Platform.

(** A number of the reply read as a time in milliseconds; [None] when
    it is not finite. *)
Variable number_ms : number -> option Z.

Definition parseDateToMs (v : value) : M Z :=
  match v with
  | VNum n =>
      match number_ms n with
      | Some ms => ret ms
      | None => Date_now P
      end
  | VStr s =>
      if Str.truthy (Str.trim s) then
        match Date_parse P s with
        | Some ms => ret ms
        | None => Date_now P
        end
      else Date_now P
  | _ => Date_now P
  end.

(** What [for (const row of rows)] goes through, for
    [rows = json?.messages || []]: the elements of an array, the code
    units of a string; anything else that is truthy cannot be iterated. *)
Definition rows_of (json : value) : completion (list value) :=
  let m := opt_member json "messages" in
  if negb (truthy m) then Normal []
  else
    match m with
    | VArr xs => Normal xs
    | VStr s => Normal (map (fun c => VStr (Str.char c)) (list_ascii_of_string s))
    | _ => Throw (TypeError "rows is not iterable")
    end.

(** The question of a row, when it has one. *)
Definition asked_of (row : value) (createdAt : Z) : M (list ChatMessage) :=
  match opt_member row "input" with
  | VStr input =>
      if Str.truthy (Str.trim input) then
        i <- uuid P ;;
        ret [{| id := i; role := user; text := input; createdAt := createdAt;
                answerItems := None; trace := None |}]
      else ret []
  | _ => ret []
  end.

(** The answer of a row, when it has one. *)
Definition answered_of (settings : ChatSettings) (thread row : value)
           (createdAt : Z) (repliedAt : option Z) : M (list ChatMessage) :=
  match opt_member row "output" with
  | VStr output =>
      if Str.truthy (Str.trim output) then
        let timingMs :=
          match repliedAt with
          | Some r => Z.max 0 (r - createdAt)
          | None => 0%Z
          end in
        i <- uuid P ;;
        ret [{| id := i; role := assistant; text := output;
                createdAt := match repliedAt with
                             | Some r => r
                             | None => createdAt
                             end;
                answerItems := None;
                trace := Some (buildSyntheticTraceFromThreadMessage
                                 settings thread row timingMs) |}]
      else ret []
  | _ => ret []
  end.

(** The messages that one row of the history contributes. *)
Definition row_messages (settings : ChatSettings) (thread row : value)
  : M (list ChatMessage) :=
  createdAt <- parseDateToMs (opt_member row "created_at") ;;
  repliedAt <- (if nullish (opt_member row "replied_at") then ret None
                else (t <- parseDateToMs (opt_member row "replied_at") ;; ret (Some t))) ;;
  asked <- asked_of row createdAt ;;
  answered <- answered_of settings thread row createdAt repliedAt ;;
  ret (asked ++ answered)%list.

(** [nextMessages] of [loadThreadToChat], for the thread [tid] and the
    parsed reply [json]. *)
Definition threadMessages (settings : ChatSettings) (tid : string) (json : value)
  : M (completion (list ChatMessage)) :=
  i <- uuid P ;;
  now <- Date_now P ;;
  match rows_of json with
  | Throw e => ret (Throw e)
  | Normal rows =>
      rest <- mapM (row_messages settings (opt_member json "thread")) rows ;;
      ret (Normal (systemBanner i ("Thread carregada: " ++ tid) now :: List.concat rest))
  end.

(** ** The push channel *)

(** [es.onmessage] of the channel opened for the thread [tid]. *)
Definition onStreamMessage (tid : string) (data : string) (s : State) : M State :=
  if negb (Str.truthy (Str.trim data)) then ret s
  else
    match JsonText.parse data with
    | None => ret s
    | Some msg =>
        if negb (truthy msg && typeof_object msg) then ret s
        else
          match opt_member msg "type", opt_member msg "text" with
          | VStr ty, VStr t =>
              if String.eqb ty "open_message" && Str.truthy (Str.trim t) then
                let txt := Str.trim t in
                now <- Date_now P ;;
                if match lastOpenMsg s with
                   | Some l =>
                       String.eqb (m_threadId l) tid && String.eqb (m_text l) txt
                       && (now - m_ts l <? 5000)%Z
                   | None => false
                   end
                then ret s
                else
                  i <- uuid P ;;
                  ret (setMessages
                         (fun prev =>
                            (prev ++ [{| id := i; role := assistant; text := txt;
                                         createdAt := now; answerItems := None;
                                         trace := None |}])%list)
                         (setLastOpenMsg
                            (Some {| m_threadId := tid; m_text := txt; m_ts := now |}) s))
              else ret s
          | _, _ => ret s
          end
    end.

End WithPlatform.

(** ** The replies read by the panel *)

Definition http_error (st : Z) (text : string) : js_error :=
  {| message := "HTTP " ++ Str.of_Z st ++ ": " ++ text; attached := None |}.

Section WithEngine.
(** [parse_error text] is the [SyntaxError] that [JSON.parse] raises on
    [text]; its message is the engine's own. *)
Variable parse_error : string -> js_error.

(** [text ? JSON.parse(text) : null] *)
Definition parse_body (text : string) : completion value :=
  if Str.is_empty text then Normal VNull
  else
    match JsonText.parse text with
    | Some json => Normal json
    | None => Throw (parse_error text)
    end.

(** [inspectAssistant] and [loadThreadToChat]: the body is parsed, then
    the status is looked at. *)
Definition read_parsed (st : Z) (text : string) : completion value :=
  bind (parse_body text) (fun json =>
    if negb (resp_ok st) then Throw (http_error st text) else Normal json).

(** [inspectCustomer] and [inspectCompany]: the status is looked at,
    then the body is parsed, and a body that is not JSON is kept as
    [{ raw: text }]. *)
Definition read_lenient (st : Z) (text : string) : completion value :=
  if negb (resp_ok st) then Throw (http_error st text)
  else
    Normal match parse_body text with
           | Normal json => json
           | Throw _ => VObj [("raw", VStr text)]
           end.

End WithEngine.

(** ** The bubble of a message *)

Inductive bubble : Type :=
| Segments (nodes : list node)
| Plain (pieces : list ChatText.piece).

Definition renderBubble (api : Url.Api) (depth : nat) (origin page : option string)
           (m : ChatMessage) : bubble :=
  match role m with
  | assistant =>
      match answerItems m with
      | Some (x :: xs) => Segments (MessageContent api depth origin page (x :: xs))
      | _ =>
          match tryParseDisparoItemsFromText (text m) with
          | Some (x :: xs) => Segments (MessageContent api depth origin page (x :: xs))
          | _ =>
              match tryParseCtaUrl (text m) with
              | Some parsed => Segments (MessageContent api depth origin page [parsed])
              | None => Plain (ChatText.FormattedText (text m))
              end
          end
      end
  | _ => Plain (ChatText.FormattedText (text m))
  end.

End ChatPanel.

(* ================================================================== *)
(** * [src/components/JsonTree.tsx]: what a node shows of itself *)

Module JsonTreeView.
Import Json.

Definition renderPrimitive (v : value) : string :=
  match v with
  | VStr s => JsonText.quote s
  | VNull => "null"
  | VUndef => "undefined"
  | VNum n => number_to_string n
  | VBool true => "true"
  | VBool false => "false"
  | _ => Client.or_empty (JsonText.stringify v)
  end.

(** [count], shown beside a collapsed node. *)
Definition count (v : value) : nat :=
  match v with
  | VArr xs => List.length xs
  | VObj fs => List.length (JsonTree.keys fs)
  | _ => 0
  end.

(** ** The lines of the first render *)

(** A line of the tree: a value that is not expandable, a collapsed
    node with its count, the first line of an open node, and the line
    that closes it. [keyLabel] is the label in front, when one is
    shown. *)
Inductive line : Type :=
| LPrimitive (depth : nat) (keyLabel : option string) (shown : string)
| LCollapsed (depth : nat) (keyLabel : option string) (isArr : bool) (n : nat)
| LOpen (depth : nat) (keyLabel : option string) (isArr : bool)
| LClose (depth : nat) (isArr : bool).

(** [keyLabel ? ... : null] *)
Definition shown_label (keyLabel : option string) : option string :=
  match keyLabel with
  | Some k => if Str.truthy k then Some k else None
  | None => None
  end.

Definition expandable (v : value) : bool := isArray v || JsonTree.isPlainObject v.

Section WithCollation.
Variable localeCompare : string -> string -> Z.

(** [Node] as it is first rendered: [open] starts as
    [depth < defaultExpandedDepth], and [levels] is what is left of
    [defaultExpandedDepth] at [depth]. *)
Fixpoint Node (levels depth : nat) (keyLabel : option string) (v : value) : list line :=
  if negb (expandable v) then [LPrimitive depth (shown_label keyLabel) (renderPrimitive v)]
  else
    match levels with
    | 0 => [LCollapsed depth (shown_label keyLabel) (isArray v) (count v)]
    | S levels' =>
        (LOpen depth (shown_label keyLabel) (isArray v)
           :: flat_map (fun e => Node levels' (S depth)
                                      (Some (JsonTree.label e)) (JsonTree.child e))
                       (JsonTree.entries localeCompare v)
           ++ [LClose depth (isArray v)])%list
    end.

Definition JsonTree (v : value) (defaultExpandedDepth : nat) : list line :=
  Node defaultExpandedDepth 0 None v.

End WithCollation.

End JsonTreeView.

(* ================================================================== *)
(** * Facts about the string methods *)

Module StrFacts.
Import Str.

Definition first_unit (s : string) : option ascii :=
  match s with "" => None | String c _ => Some c end.

Fixpoint last_unit (s : string) : option ascii :=
  match s with
  | "" => None
  | String c "" => Some c
  | String _ r => last_unit r
  end.

(** No white space in front. *)
Definition no_lead (s : string) : bool :=
  match s with "" => true | String c _ => negb (is_space c) end.

Lemma is_empty_true (s : string) : is_empty s = true <-> s = "".
Proof. destruct s; simpl; split; congruence. Qed.

Lemma truthy_true (s : string) : truthy s = true <-> s <> "".
Proof.
  destruct s; unfold truthy; simpl; split; intro H;
    try reflexivity; try discriminate.
  now elim H.
Qed.

Lemma truthy_false (s : string) : truthy s = false <-> s = "".
Proof. destruct s; unfold truthy; simpl; split; congruence. Qed.

Lemma trimStart_no_lead (s : string) : no_lead (trimStart s) = true.
Proof.
  induction s as [|c r IH]; simpl; [reflexivity|].
  destruct (is_space c) eqn:E; [exact IH|]. simpl. now rewrite E.
Qed.

Lemma no_lead_trimStart (s : string) : no_lead s = true -> trimStart s = s.
Proof.
  destruct s as [|c r]; simpl; [reflexivity|].
  now destruct (is_space c).
Qed.

Lemma trimEnd_no_lead (s : string) : no_lead s = true -> no_lead (trimEnd s) = true.
Proof.
  destruct s as [|c r]; simpl; [reflexivity|].
  destruct (is_space c) eqn:E; simpl; [discriminate|]. intros _. now rewrite E.
Qed.

Lemma trimEnd_idem (s : string) : trimEnd (trimEnd s) = trimEnd s.
Proof.
  induction s as [|c r IH]; simpl; [reflexivity|].
  destruct (is_space c && is_empty (trimEnd r)) eqn:E; simpl; [reflexivity|].
  now rewrite IH, E.
Qed.

Lemma trim_no_lead (s : string) : no_lead (trim s) = true.
Proof. apply trimEnd_no_lead, trimStart_no_lead. Qed.

(** Trimming twice is trimming once. *)
Lemma trim_idem (s : string) : trim (trim s) = trim s.
Proof.
  unfold trim at 1. rewrite (no_lead_trimStart _ (trim_no_lead s)).
  unfold trim. apply trimEnd_idem.
Qed.

Lemma trimEnd_last (s : string) (c : ascii) :
  last_unit (trimEnd s) = Some c -> is_space c = false.
Proof.
  induction s as [|d r IH]; simpl; [discriminate|].
  destruct (is_space d && is_empty (trimEnd r)) eqn:E; simpl; [discriminate|].
  destruct (trimEnd r) as [|e t] eqn:R.
  - intros [= <-]. simpl in E. now rewrite andb_true_r in E.
  - exact IH.
Qed.

(** A trimmed string neither starts nor ends with white space. *)
Lemma trim_ends (s : string) :
  (forall c, first_unit (trim s) = Some c -> is_space c = false) /\
  (forall c, last_unit (trim s) = Some c -> is_space c = false).
Proof.
  split; intros c H.
  - pose proof (trim_no_lead s) as L. destruct (trim s); simpl in *; [discriminate|].
    injection H as <-. now apply negb_true_iff.
  - unfold trim in H. now apply trimEnd_last in H.
Qed.

Lemma keep_digits_all (s : string) : all_chars is_digit (keep_digits s) = true.
Proof.
  induction s as [|c r IH]; simpl; [reflexivity|].
  destruct (is_digit c) eqn:E; simpl; [now rewrite E|exact IH].
Qed.

Lemma append_assoc (a b c : string) : (a ++ b) ++ c = a ++ b ++ c.
Proof. induction a; simpl; congruence. Qed.

Lemma length_zero (s : string) : String.length s = 0 <-> s = "".
Proof. destruct s; simpl; split; congruence. Qed.

Lemma trimStart_length (s : string) : String.length (trimStart s) <= String.length s.
Proof. induction s as [|c r IH]; simpl; [lia|]. destruct (is_space c); simpl; lia. Qed.

Lemma trimEnd_length (s : string) : String.length (trimEnd s) <= String.length s.
Proof.
  induction s as [|c r IH]; simpl; [lia|].
  destruct (is_space c && is_empty (trimEnd r)); simpl; lia.
Qed.

Lemma trim_length (s : string) : String.length (trim s) <= String.length s.
Proof.
  unfold trim. etransitivity; [apply trimEnd_length|apply trimStart_length].
Qed.

Lemma append_empty_r (s : string) : s ++ "" = s.
Proof. induction s as [|c r IH]; cbn; [reflexivity|now rewrite IH]. Qed.

Lemma all_chars_app (p : ascii -> bool) (a b : string) :
  Str.all_chars p (a ++ b) = Str.all_chars p a && Str.all_chars p b.
Proof.
  induction a as [|c a IH]; simpl; [reflexivity|].
  now rewrite IH, andb_assoc.
Qed.

End StrFacts.

(* ================================================================== *)
(** * The answer-segment parser of [client.ts] *)

Module ClientSpec.
Import Json Client StrFacts.

Lemma toAnswerItems_strings (ss : list string) :
  toAnswerItems (VArr (map VStr ss)) = map text_item ss.
Proof.
  simpl. induction ss as [|s r IH]; simpl; [reflexivity|]. now rewrite IH.
Qed.

(** C1. When [data.disparo.answer] of a reply is a non-empty array of
    strings, [extractDisparoItems] returns one text segment per string:
    the [i]-th segment is [{ type: 'text', message: s_i }], in the order
    of the array. *)
Theorem C1_disparo_strings (reply d : value) (ss : list string) :
  member reply "data" = Normal d ->
  opt_member (opt_member d "disparo") "answer" = VArr (map VStr ss) ->
  ss <> [] ->
  extractDisparoItems reply = Normal (map text_item ss) /\
  List.length (map text_item ss) = List.length ss /\
  (forall i s, nth_error ss i = Some s ->
               nth_error (map text_item ss) i = Some (text_item s)).
Proof.
  intros Hd Ha Hne. split; [|split].
  - unfold extractDisparoItems. rewrite Hd. simpl. rewrite Ha, toAnswerItems_strings.
    destruct ss; [congruence|reflexivity].
  - apply length_map.
  - intros i s H. now apply map_nth_error.
Qed.

(** A reply [{ success: true, provider: 'simple', data: { disparo: {
    answer: ['a', '', 'b'] } } }]. *)
Definition reply_abc : value :=
  VObj [("success", VBool true); ("provider", VStr "simple");
        ("data", VObj [("disparo", VObj [("answer", VArr [VStr "a"; VStr ""; VStr "b"])])])].

Lemma C1_disparo_strings_witness :
  extractDisparoItems reply_abc = Normal (map text_item ["a"; ""; "b"]) /\
  List.length (map text_item ["a"; ""; "b"]) = List.length ["a"; ""; "b"] /\
  (forall i s, nth_error ["a"; ""; "b"] i = Some s ->
               nth_error (map text_item ["a"; ""; "b"]) i = Some (text_item s)).
Proof.
  apply (C1_disparo_strings reply_abc
           (VObj [("disparo", VObj [("answer", VArr [VStr "a"; VStr ""; VStr "b"])])])
           ["a"; ""; "b"]).
  - reflexivity.
  - reflexivity.
  - discriminate.
Defined.

(** A reply whose only answer is the blank string of
    [data.assistant_response.answer]. *)
Definition reply_blank : value :=
  VObj [("success", VBool true); ("provider", VStr "simple");
        ("data", VObj [("assistant_response", VObj [("answer", VStr "  ")])])].

(** C2 as stated fails on a blank answer: the reply has no
    [data.disparo.answer], [data.assistant_response.answer] is the string
    of two spaces, and the parser yields no segment at all. *)
Lemma C2_blank_answer_counterexample :
  exists d,
    member reply_blank "data" = Normal d /\
    opt_member (opt_member d "disparo") "answer" = VUndef /\
    opt_member (opt_member d "assistant_response") "answer" = VStr "  " /\
    extractDisparoItems reply_blank = Normal [] /\
    extractDisparoItems reply_blank <> Normal [text_item "  "].
Proof.
  eexists. split; [reflexivity|].
  repeat split; try reflexivity. discriminate.
Qed.

(** C2, amended. For a reply with no [data.disparo.answer] whose
    [data.assistant_response.answer] is a string [s]: when [s] has a
    character that is not white space, the parser yields exactly one text
    segment, whose message is [s] itself (untrimmed); when [s] is empty
    or white space only, it yields no segment. *)
Theorem C2_assistant_string (reply d : value) (s : string) :
  member reply "data" = Normal d ->
  opt_member (opt_member d "disparo") "answer" = VUndef ->
  opt_member (opt_member d "assistant_response") "answer" = VStr s ->
  extractDisparoItems reply =
    Normal (if Str.is_empty (Str.trim s) then [] else [text_item s]).
Proof.
  intros Hd Hno Ha. unfold extractDisparoItems. rewrite Hd. simpl.
  rewrite Hno, Ha. simpl. unfold Str.truthy.
  now destruct (Str.is_empty (Str.trim s)).
Qed.

Definition reply_hello : value :=
  VObj [("success", VBool true); ("provider", VStr "simple");
        ("data", VObj [("assistant_response", VObj [("answer", VStr " hello ")])])].

Lemma C2_assistant_string_witness :
  extractDisparoItems reply_hello = Normal [text_item " hello "].
Proof.
  apply (C2_assistant_string reply_hello
           (VObj [("assistant_response", VObj [("answer", VStr " hello ")])])
           " hello "); reflexivity.
Defined.

(** The errors of a failed property access carry nothing. *)
Lemma member_throw (v : value) (k : string) (e : js_error) :
  member v k = Throw e -> attached e = None.
Proof. destruct v; simpl; intros [= <-]; reflexivity. Qed.

Lemma member_normal (v : value) (k : string) :
  nullish v = false -> exists x, member v k = Normal x.
Proof. destruct v; simpl; intros H; try discriminate; eauto. Qed.

Lemma extractDisparoItems_throw (data : value) (e : js_error) :
  extractDisparoItems data = Throw e -> attached e = None.
Proof.
  unfold extractDisparoItems. destruct (member data "data") eqn:H; simpl.
  - destruct (toAnswerItems _); discriminate.
  - intros [= <-]. now apply member_throw in H.
Qed.

Lemma extractAssistantAnswerText_throw (data : value) (e : js_error) :
  extractAssistantAnswerText data = Throw e -> attached e = None.
Proof.
  unfold extractAssistantAnswerText. destruct (member data "data") eqn:H; simpl.
  - destruct (opt_member _ "answer"); discriminate.
  - intros [= <-]. now apply member_throw in H.
Qed.

(** ** The request of [sendMessage] *)

Definition base_payload (settings : ChatSettings) (message : string) : fields :=
  [("message", VStr message); ("customer_phone", VStr (customerPhone settings))].

(** The name that goes into the body: the trimmed [customerName] when
    it has a character that is not white space. *)
Definition sent_name (settings : ChatSettings) : option string :=
  match customerName settings with
  | Some n => if Str.is_empty (Str.trim n) then None else Some (Str.trim n)
  | None => None
  end.

Lemma buildPayload_cases (settings : ChatSettings) (message : string) :
  buildPayload settings message =
    match sent_name settings with
    | None => base_payload settings message
    | Some n => (base_payload settings message ++ [("customer_name", VStr n)])%list
    end.
Proof.
  unfold buildPayload, sent_name, base_payload, Str.truthy.
  destruct (customerName settings) as [n|]; [|reflexivity].
  destruct (Str.is_empty (Str.trim n)); reflexivity.
Qed.

Definition q : string := Str.char Str.dquote.

(** The text of the body. *)
Definition body_text (settings : ChatSettings) (message : string) : string :=
  "{" ++ JsonText.quote "message" ++ ":" ++ JsonText.quote message ++ ","
  ++ JsonText.quote "customer_phone" ++ ":" ++ JsonText.quote (customerPhone settings)
  ++ match sent_name settings with
     | None => ""
     | Some n => "," ++ JsonText.quote "customer_name" ++ ":" ++ JsonText.quote n
     end
  ++ "}".

Lemma stringify_payload (settings : ChatSettings) (message : string) :
  JsonText.stringify (VObj (buildPayload settings message))
  = Some (body_text settings message).
Proof.
  rewrite buildPayload_cases. unfold body_text, base_payload.
  destruct (sent_name settings) as [n|];
    unfold JsonText.stringify, JsonText.wrap, JsonText.quote, Str.char; simpl;
    do 4 (rewrite ?append_assoc; simpl); reflexivity.
Qed.

End ClientSpec.

(* ================================================================== *)
(** * The settings that leave the onboarding form *)

Module OnboardingSpec.
Import Client Onboarding StrFacts.

Lemma canStart_iff (f : Form) :
  canStart f = true <->
  Str.trim (f_companyId f) <> "" /\
  8 <= String.length (normalizeDigits (f_customerPhone f)).
Proof.
  unfold canStart. rewrite andb_true_iff, Nat.ltb_lt, Nat.leb_le.
  split; intros [H1 H2]; split; trivial.
  - intros E. rewrite E in H1. simpl in H1. lia.
  - destruct (Str.trim (f_companyId f)); [congruence|simpl; lia].
Qed.

(** C10. The start button hands over settings only while it is enabled,
    that is when the trimmed company id is not empty and the phone has
    at least eight digits (and no start is under way); the settings it
    hands over have a non-empty [companyId] without white space at
    either end, a [customerPhone] made of decimal digits only, at least
    eight of them, and a [customerName] that is absent or non-empty and
    trimmed. *)
Theorem C10_start_settings (f : Form) (s : ChatSettings) :
  start f = Some s ->
  (canStart f = true /\ starting f = false) /\
  (companyId s <> "" /\ Str.trim (companyId s) = companyId s /\
   (forall c, first_unit (companyId s) = Some c -> Str.is_space c = false) /\
   (forall c, last_unit (companyId s) = Some c -> Str.is_space c = false)) /\
  (Str.all_chars Str.is_digit (customerPhone s) = true /\
   8 <= String.length (customerPhone s)) /\
  (customerName s = None \/
   exists n, customerName s = Some n /\ n <> "" /\ Str.trim n = n).
Proof.
  unfold start. destruct (canStart f) eqn:C; simpl; [|discriminate].
  destruct (starting f) eqn:S; [discriminate|]. intros [= <-]. simpl.
  apply canStart_iff in C. destruct C as [C1 C2].
  split; [split; reflexivity|]. split; [|split].
  - split; [exact C1|]. split; [apply trim_idem|]. apply trim_ends.
  - split; [apply keep_digits_all|exact C2].
  - destruct (Str.truthy (Str.trim (f_customerName f))) eqn:T; [right|now left].
    exists (Str.trim (f_customerName f)). split; [reflexivity|].
    split; [now apply truthy_true|apply trim_idem].
Qed.

(** The form filled with a padded company id, a formatted phone number
    and a padded name. *)
Definition form_filled : Form :=
  {| apiEnv := DEV;
     f_companyId := "  acme-01 ";
     f_customerPhone := "+55 (11) 99999-9999";
     f_customerName := " Victor ";
     starting := false |}.

Definition settings_started : ChatSettings :=
  {| companyId := "acme-01";
     customerPhone := "5511999999999";
     customerName := Some "Victor";
     apiBaseUrl := Some "" |}.

Lemma C10_start_settings_witness :
  start form_filled = Some settings_started /\
  companyId settings_started <> "" /\
  Str.all_chars Str.is_digit (customerPhone settings_started) = true /\
  8 <= String.length (customerPhone settings_started).
Proof.
  assert (H : start form_filled = Some settings_started) by reflexivity.
  pose proof (C10_start_settings form_filled settings_started H)
    as [_ [[H1 _] [[H2 H3] _]]].
  repeat split; assumption.
Defined.

End OnboardingSpec.

(* ================================================================== *)
(** * The stable sort *)

Module ArrFacts.
Import Arr.

Section Sorting.
Context {A : Type} (cmp : A -> A -> Z).

(** [a] may stand before [b]. *)
Definition before (a b : A) : Prop := (cmp a b <= 0)%Z.

Definition lt (a b : A) : bool := (cmp a b <? 0)%Z.

Lemma insert_perm (x : A) (ys : list A) : Permutation (x :: ys) (insert lt x ys).
Proof.
  induction ys as [|y r IH]; simpl; [apply Permutation_refl|].
  destruct (lt y x); [|apply Permutation_refl].
  eapply perm_trans; [apply perm_swap|]. now apply perm_skip.
Qed.

Lemma sort_perm (xs : list A) : Permutation xs (sort lt xs).
Proof.
  induction xs as [|x r IH]; simpl; [constructor|].
  eapply perm_trans; [|apply insert_perm]. now apply perm_skip.
Qed.

(** A comparator in the sense of [Array.prototype.sort]. *)
Hypothesis cmp_flip : forall a b, (0 <= cmp a b)%Z -> before b a.
Hypothesis cmp_trans : forall a b c, before a b -> before b c -> before a c.

Lemma insert_Forall (P : A -> Prop) (x : A) (ys : list A) :
  P x -> Forall P ys -> Forall P (insert lt x ys).
Proof.
  intros Hx Hys. eapply Permutation_Forall; [apply insert_perm|]. now constructor.
Qed.

Lemma insert_sorted (x : A) (ys : list A) :
  StronglySorted before ys -> StronglySorted before (insert lt x ys).
Proof.
  induction ys as [|y r IH]; simpl; intros H.
  - constructor; constructor.
  - inversion H as [|? ? Hr Hy]; subst.
    destruct (lt y x) eqn:E; unfold lt in E.
    + apply Z.ltb_lt in E. constructor; [now apply IH|].
      apply insert_Forall; [unfold before; lia|exact Hy].
    + apply Z.ltb_ge in E. apply cmp_flip in E.
      constructor; [exact H|]. constructor; [exact E|].
      eapply Forall_impl; [|exact Hy]. intros z Hz. now apply (cmp_trans x y z).
Qed.

Lemma sort_sorted (xs : list A) : StronglySorted before (sort lt xs).
Proof.
  induction xs as [|x r IH]; simpl; [constructor|]. now apply insert_sorted.
Qed.

End Sorting.

End ArrFacts.

(* ================================================================== *)
(** * The labels of the JSON inspector *)

Module JsonTreeSpec.
Import Json JsonTree.

(** The field [k] of an array entry when it is a string with a
    character that is not white space. *)
Definition named (item : value) (k : string) : option string :=
  match item with
  | VObj fs =>
      match lookup k fs with
      | Some (VStr s) => if Str.is_empty (Str.trim s) then None else Some s
      | _ => None
      end
  | _ => None
  end.

(** The label of an entry as the specification words it: the [name]
    field, else the [id] field, else the index. *)
Definition claimed_label (item : value) (index : nat) : string :=
  match named item "name", named item "id" with
  | Some nm, _ => nm
  | None, Some i => i
  | None, None => Str.of_nat index
  end.

(** The label that the inspector shows: the name, the id or the index
    as above, but without the white space around a name or an id, and
    between square brackets. *)
Definition shown_label (item : value) (index : nat) : string :=
  match named item "name", named item "id" with
  | Some nm, _ => "[" ++ Str.trim nm ++ "]"
  | None, Some i => "[" ++ Str.trim i ++ "]"
  | None, None => "[" ++ Str.of_nat index ++ "]"
  end.

Section WithCollation.
Variable localeCompare : string -> string -> Z.

Lemma getNamedArrayLabel_spec (item : value) (index : nat) :
  getNamedArrayLabel item index = shown_label item index.
Proof.
  unfold getNamedArrayLabel, shown_label, named, isPlainObject, opt_member, Str.truthy.
  destruct item as [| | | | | |fs]; try reflexivity. simpl.
  destruct (lookup "name" fs) as [[| | | |nm| |]|];
    destruct (lookup "id" fs) as [[| | | |i| |]|]; simpl; try reflexivity;
    try destruct (Str.is_empty (Str.trim nm)); simpl; try reflexivity;
    try destruct (Str.is_empty (Str.trim i)); reflexivity.
Qed.

Lemma array_entries_nth (xs : list value) (start i : nat) (item : value) :
  nth_error xs i = Some item ->
  nth_error (array_entries start xs) i
  = Some {| key := Str.of_nat (start + i); child := item;
            label := getNamedArrayLabel item (start + i) |}.
Proof.
  revert start i. induction xs as [|x r IH]; intros start [|i]; simpl;
    try discriminate.
  - intros [= <-]. now rewrite Nat.add_0_r.
  - intros H. rewrite (IH (S start) i H). now rewrite Nat.add_succ_r.
Qed.

Lemma array_entries_length (xs : list value) (start : nat) :
  List.length (array_entries start xs) = List.length xs.
Proof. revert start. induction xs; intros; simpl; auto. Qed.

(** C9, amended. Under an expanded array there is one child per
    entry, in order, and the label of the [i]-th is, between square
    brackets, its [name] field without the white space around it when
    that field is a string with a character that is not white space,
    else its [id] field under the same condition and trimmed in the
    same way, else the index [i]. Under an expanded object the labels are the keys of
    the object, each once, in the order of [localeCompare], the
    collation of the locale (a consistent comparator): no key stands
    before a key that [localeCompare] puts in front of it. That order
    need not be the order of the code units. *)
Theorem C9_labels
    (cmp_flip : forall a b, (0 <= localeCompare a b)%Z -> (localeCompare b a <= 0)%Z)
    (cmp_trans : forall a b c, (localeCompare a b <= 0)%Z -> (localeCompare b c <= 0)%Z ->
                               (localeCompare a c <= 0)%Z) :
  (forall xs,
      List.length (entries localeCompare (VArr xs)) = List.length xs /\
      forall i item, nth_error xs i = Some item ->
        exists e, nth_error (entries localeCompare (VArr xs)) i = Some e /\
                  child e = item /\ key e = Str.of_nat i /\
                  label e = shown_label item i) /\
  (forall fs,
      let labels := map label (entries localeCompare (VObj fs)) in
      Permutation (map fst fs) labels /\
      StronglySorted (fun a b => (localeCompare a b <= 0)%Z) labels /\
      map key (entries localeCompare (VObj fs)) = labels /\
      forall e, In e (entries localeCompare (VObj fs)) ->
                child e = opt_member (VObj fs) (key e)).
Proof.
  split.
  - intros xs. split; [apply array_entries_length|].
    intros i item H. eexists. split; [apply (array_entries_nth xs 0 i item H)|].
    simpl. split; [reflexivity|]. split; [reflexivity|apply getNamedArrayLabel_spec].
  - intros fs labels.
    assert (E : labels = sortKeys localeCompare (keys fs)).
    { unfold labels, entries. rewrite map_map. simpl. apply map_id. }
    split; [|split; [|split]].
    + rewrite E. apply ArrFacts.sort_perm.
    + rewrite E. now apply ArrFacts.sort_sorted.
    + unfold labels, entries. now rewrite !map_map.
    + unfold entries. intros e He. apply in_map_iff in He.
      destruct He as [k [<- _]]. reflexivity.
Qed.

End WithCollation.

(** ** A collation to run the inspector with: the order of the code
    units. *)
Definition codeUnitCompare (a b : string) : Z :=
  match String_as_OT.compare a b with
  | Lt => (-1)%Z
  | Eq => 0%Z
  | Gt => 1%Z
  end.

Lemma codeUnitCompare_refl (a : string) : String_as_OT.compare a a = Eq.
Proof.
  destruct (String_as_OT.compare_spec a a) as [_|H|H]; [reflexivity| |];
    now apply String_as_OT.lt_strorder in H.
Qed.

Lemma codeUnitCompare_le (a b : string) :
  (codeUnitCompare a b <= 0)%Z <-> a = b \/ String_as_OT.lt a b.
Proof.
  unfold codeUnitCompare.
  destruct (String_as_OT.compare_spec a b) as [E|H|H]; split; intros L;
    try lia; auto.
  - destruct L as [E|L].
    + subst. now apply String_as_OT.lt_strorder in H.
    + assert (C : String_as_OT.lt a a) by (now transitivity b).
      now apply String_as_OT.lt_strorder in C.
Qed.

Lemma codeUnitCompare_flip (a b : string) :
  (0 <= codeUnitCompare a b)%Z -> (codeUnitCompare b a <= 0)%Z.
Proof.
  intros L. apply codeUnitCompare_le. revert L. unfold codeUnitCompare.
  destruct (String_as_OT.compare_spec a b) as [E|H|H]; intros L; try lia; auto.
Qed.

Lemma codeUnitCompare_trans (a b c : string) :
  (codeUnitCompare a b <= 0)%Z -> (codeUnitCompare b c <= 0)%Z ->
  (codeUnitCompare a c <= 0)%Z.
Proof.
  rewrite !codeUnitCompare_le. intros [->|H1] [->|H2]; auto.
  right. now transitivity b.
Qed.

(** [[{ name: ' first ' }, { id: 'x1' }, 7]] and
    [{ b: 1, a: 2, B: 3 }]. *)
Definition array_example : list value :=
  [VObj [("name", VStr " first ")]; VObj [("name", VStr " "); ("id", VStr "x1")];
   VNum {| mantissa := 7; exponent := 0 |}].

Definition object_example : fields :=
  [("b", VNull); ("a", VNull); ("B", VNull)].

Lemma C9_labels_witness :
  map label (entries codeUnitCompare (VArr array_example)) = ["[first]"; "[x1]"; "[2]"] /\
  map label (entries codeUnitCompare (VObj object_example)) = ["B"; "a"; "b"] /\
  StronglySorted (fun a b => (codeUnitCompare a b <= 0)%Z)
                 (map label (entries codeUnitCompare (VObj object_example))).
Proof.
  pose proof (C9_labels codeUnitCompare codeUnitCompare_flip codeUnitCompare_trans)
    as [_ H].
  destruct (H object_example) as [_ [S _]].
  split; [reflexivity|]. split; [reflexivity|exact S].
Defined.

(** ** The order of a browser

    A collation that ranks the letters before their case, the small
    letter first, as the collations of the browsers do ([a], [A], [b],
    [B]): the strings are compared with their capital letters made
    small, and strings that are equal in this way in the reverse order
    of their code units. *)
Definition small (c : ascii) : ascii :=
  let n := nat_of_ascii c in
  if (65 <=? n) && (n <=? 90) then ascii_of_nat (n + 32) else c.

Fixpoint toSmall (s : string) : string :=
  match s with
  | "" => ""
  | String c r => String (small c) (toSmall r)
  end.

Definition letterCompare (a b : string) : Z :=
  match String_as_OT.compare (toSmall a) (toSmall b) with
  | Lt => (-1)%Z
  | Gt => 1%Z
  | Eq => codeUnitCompare b a
  end.

(** An entry [{ name: ' first ' }] is labelled [[first]], which is not
    its [name] field; and the keys of [{ b: 1, a: 2, B: 3 }] are shown
    as [a], [b], [B] under a collation that ranks letters before case,
    although [B] stands before [a] and [b] in the order of the code
    units. *)
Lemma C9_labels_counterexample :
  named (VObj [("name", VStr " first ")]) "name" = Some " first " /\
  map label (entries letterCompare (VArr [VObj [("name", VStr " first ")]]))
  = ["[first]"] /\
  "[first]" <> claimed_label (VObj [("name", VStr " first ")]) 0 /\
  map label (entries letterCompare (VObj object_example)) = ["a"; "b"; "B"] /\
  map label (entries codeUnitCompare (VObj object_example)) = ["B"; "a"; "b"] /\
  ~ StronglySorted (fun a b => (codeUnitCompare a b <= 0)%Z) ["a"; "b"; "B"].
Proof.
  split; [reflexivity|]. split; [reflexivity|]. split; [discriminate|].
  split; [reflexivity|]. split; [reflexivity|].
  intros H. inversion H as [|? ? _ F]. inversion F as [|? ? _ G].
  inversion G as [|? ? L _]. vm_compute in L. now apply L.
Qed.

End JsonTreeSpec.

(* ================================================================== *)
(** * Reading back what [JSON.stringify] wrote *)

Module JsonTextFacts.
Import Json JsonText StrFacts.

(** Every code unit is read back from its escaped form. *)
Lemma lex_escape_unit (c : ascii) (acc : list ascii) (rest : string) :
  lex (InString acc) (escape_unit c ++ rest) = lex (InString (c :: acc)) rest.
Proof. destruct c as [[] [] [] [] [] [] [] []]; reflexivity. Qed.

Lemma lex_escape (s : string) (acc : list ascii) (rest : string) :
  lex (InString acc) (escape s ++ String Str.dquote rest)
  = cons_token (TString (string_of_list_ascii (rev acc ++ list_ascii_of_string s)))
               (lex Top rest).
Proof.
  revert acc. induction s as [|c r IH]; intros acc; simpl.
  - now rewrite app_nil_r.
  - rewrite append_assoc, lex_escape_unit, IH. simpl. now rewrite <- app_assoc.
Qed.

(** A string literal is one token, the string itself. *)
Lemma lex_quote (s rest : string) :
  lex Top (quote s ++ rest) = cons_token (TString s) (lex Top rest).
Proof.
  unfold quote. simpl. rewrite append_assoc. simpl.
  change (lex_top Str.dquote (fun m' => lex m' (escape s ++ String Str.dquote rest)))
    with (lex (InString []) (escape s ++ String Str.dquote rest)).
  rewrite lex_escape. simpl. now rewrite string_of_list_ascii_of_string.
Qed.

(** A property with a string value, followed by [rest]. *)
Definition member_text (k v rest : string) : string :=
  quote k ++ String ":" (quote v ++ rest).

Definition member_tokens (k v : string) : list token :=
  [TString k; TColon; TString v].

Lemma lex_member (k v rest : string) :
  lex Top (member_text k v rest)
  = option_map (app (member_tokens k v)) (lex Top rest).
Proof.
  unfold member_text. rewrite lex_quote.
  change (lex Top (String ":" (quote v ++ rest)))
    with (cons_token TColon (lex Top (quote v ++ rest))).
  rewrite lex_quote. now destruct (lex Top rest).
Qed.

(** The strings of a token list, each counted with its closing quote. *)
Definition token_size (t : token) : nat :=
  match t with TString s => S (String.length s) | _ => 0 end.

Fixpoint tokens_size (ts : list token) : nat :=
  match ts with
  | [] => 0
  | t :: r => token_size t + tokens_size r
  end.

(** What the lexer has read of the token under way. *)
Definition pending (m : mode) : nat :=
  match m with
  | InString acc | InEscape acc | InUnicode acc _ => List.length acc
  | InLiteral _ t => token_size t
  | _ => 0
  end.

Lemma length_string_of_list_ascii (l : list ascii) :
  String.length (string_of_list_ascii l) = List.length l.
Proof. induction l; simpl; congruence. Qed.

Lemma cons_token_size (t : token) (r : option (list token)) (ts : list token) :
  cons_token t r = Some ts ->
  exists ts', r = Some ts' /\ tokens_size ts = token_size t + tokens_size ts'.
Proof.
  destruct r as [ts'|]; simpl; [|discriminate]. intros [= <-]. now exists ts'.
Qed.

Lemma lex_top_size (c : ascii) (k : mode -> option (list token)) (ts : list token) (b : nat) :
  (forall m ts', k m = Some ts' -> tokens_size ts' <= b + pending m) ->
  lex_top c k = Some ts -> tokens_size ts <= b.
Proof.
  intros Hk. unfold lex_top.
  repeat match goal with
         | |- context [if ?x then _ else _] => destruct x
         end;
    try discriminate;
    try (intros H; apply cons_token_size in H; destruct H as [ts' [H ->]];
         apply Hk in H; simpl in *; lia);
    intros H; apply Hk in H; simpl in *; lia.
Qed.

Lemma lex_size (s : string) : forall (m : mode) (ts : list token),
  lex m s = Some ts -> tokens_size ts <= String.length s + pending m.
Proof.
  induction s as [|c r IH]; intros m ts.
  - destruct m as [| | | | |rest t]; simpl; try discriminate.
    + intros [= <-]. simpl. lia.
    + destruct (number_token acc) as [t|] eqn:E; simpl; [|discriminate].
      intros [= <-]. unfold number_token in E.
      destruct (read_number _); [|discriminate]. injection E as <-. simpl. lia.
    + destruct rest; [|discriminate]. intros [= <-]. simpl. lia.
  - destruct m as [|acc|acc|acc ds|acc|rest t]; cbn [lex].
    + intros H. apply (lex_top_size c _ ts (String.length r)) in H; [simpl; lia|].
      intros m ts' H'. now apply IH.
    + repeat match goal with
             | |- context [if ?x then _ else _] => destruct x
             end; try discriminate; intros H.
      * apply cons_token_size in H. destruct H as [ts' [H ->]]. apply IH in H.
        simpl in *. rewrite length_string_of_list_ascii, length_rev. lia.
      * apply IH in H. simpl in *. lia.
      * apply IH in H. simpl in *. lia.
    + destruct (nat_of_ascii c =? 117).
      * intros H. apply IH in H. simpl in *. lia.
      * destruct (unescape c); [|discriminate]. intros H. apply IH in H. simpl in *. lia.
    + destruct (hex_value c); [|discriminate].
      destruct ds as [|d2 [|d1 [|d0 [|]]]]; try (intros H; apply IH in H; simpl in *; lia).
      destruct (_ <? 256); [|discriminate]. intros H; apply IH in H; simpl in *; lia.
    + destruct (is_number_char c).
      * intros H. apply IH in H. simpl in *. lia.
      * destruct (number_token acc) as [t|] eqn:E; [|discriminate].
        intros H. apply cons_token_size in H. destruct H as [ts' [H ->]].
        apply (lex_top_size c _ ts' (String.length r)) in H.
        -- unfold number_token in E. destruct (read_number _); [|discriminate].
           injection E as <-. simpl. lia.
        -- intros m ts'' H'. now apply IH.
    + destruct rest as [|e rest].
      * intros H. apply cons_token_size in H. destruct H as [ts' [H ->]].
        apply (lex_top_size c _ ts' (String.length r)) in H; [simpl; lia|].
        intros m ts'' H'. now apply IH.
      * destruct (Ascii.eqb c e); [|discriminate]. intros H. apply IH in H. simpl in *. lia.
Qed.

(** The longest string among the values inside [v] (keys apart). *)
Fixpoint max_str (v : value) : nat :=
  match v with
  | VStr s => String.length s
  | VArr xs => fold_right (fun x a => Nat.max (max_str x) a) 0 xs
  | VObj fs => fold_right (fun (kv : string * value) a => Nat.max (let (_, x) := kv in max_str x) a) 0 fs
  | _ => 0
  end.

Definition within (K : nat) (v : value) : Prop := max_str v <= K.

Lemma within_arr (K : nat) (xs : list value) :
  within K (VArr xs) <-> Forall (within K) xs.
Proof.
  unfold within. simpl. induction xs as [|x r IH]; simpl.
  - split; [constructor|lia].
  - rewrite Forall_cons_iff, <- IH. lia.
Qed.

Lemma within_obj (K : nat) (fs : fields) :
  within K (VObj fs) <-> Forall (fun kv => within K (snd kv)) fs.
Proof.
  unfold within. simpl. induction fs as [|[k x] r IH]; simpl.
  - split; [constructor|lia].
  - rewrite Forall_cons_iff, <- IH. simpl. lia.
Qed.

Lemma set_prop_within (K : nat) (k : string) (v : value) (fs : fields) :
  within K v -> Forall (fun kv => within K (snd kv)) fs ->
  Forall (fun kv => within K (snd kv)) (set_prop k v fs).
Proof.
  intros Hv. induction fs as [|[k' v'] r IH]; simpl; intros H.
  - now constructor.
  - inversion H; subst. destruct (String.eqb k k'); constructor; auto.
Qed.

Definition frame_within (K : nat) (f : frame) : Prop :=
  match f with
  | FArr acc => Forall (within K) acc
  | FObj fs _ => Forall (fun kv => within K (snd kv)) fs
  end.

Definition state_within (K : nat) (st : pstate) : Prop :=
  Forall (frame_within K) (fst st) /\
  match snd st with
  | EDone v => within K v
  | _ => True
  end.

Lemma push_value_within (K : nat) (v : value) (stack : list frame) :
  within K v -> Forall (frame_within K) stack -> state_within K (push_value v stack).
Proof.
  intros Hv Hs. destruct stack as [|[acc|fs k] rest]; simpl.
  - split; [constructor|exact Hv].
  - inversion Hs; subst. split; [|exact I]. constructor; [|assumption].
    simpl. now constructor.
  - inversion Hs; subst. split; [|exact I]. constructor; [|assumption].
    simpl. now apply set_prop_within.
Qed.

Lemma step_within (K : nat) (st st' : pstate) (t : token) :
  token_size t <= S K -> state_within K st -> step st t = Some st' -> state_within K st'.
Proof.
  destruct st as [stack e]. intros Ht [Hs He]. simpl in Hs.
  assert (A : forall v, within K v -> state_within K (push_value v stack))
    by (intros; now apply push_value_within).
  destruct t; simpl in *;
    try (destruct (accepts_value e); [|discriminate]; intros [= <-];
         first [apply A; unfold within; simpl; lia
               | split; [constructor; [constructor|assumption]|exact I]]).
  - destruct e, stack as [|[acc|fs k] rest]; try discriminate; intros [= <-];
      inversion Hs; subst; apply push_value_within; trivial; now apply within_obj.
  - destruct e, stack as [|[acc|fs k] rest]; try discriminate; intros [= <-];
      inversion Hs; subst; apply push_value_within; trivial;
      apply within_arr; now apply Forall_rev.
  - destruct e; try discriminate. intros [= <-]. now split.
  - destruct e, stack as [|[acc|fs k] rest]; try discriminate; intros [= <-]; now split.
  - destruct e, stack as [|[acc|fs k] rest]; try discriminate; intros [= <-];
      try (apply A; unfold within; simpl; lia);
      inversion Hs; subst; split; try exact I; constructor; assumption.
Qed.

Lemma run_within (K : nat) (ts : list token) : forall st st',
  Forall (fun t => token_size t <= S K) ts ->
  state_within K st -> run st ts = Some st' -> state_within K st'.
Proof.
  induction ts as [|t r IH]; simpl; intros st st' Ht Hst.
  - now intros [= <-].
  - inversion Ht; subst. destruct (step st t) as [st1|] eqn:E; [|discriminate].
    apply IH; trivial. now apply (step_within K st st1 t).
Qed.

Lemma tokens_size_each (ts : list token) (n : nat) :
  tokens_size ts <= n -> Forall (fun t => token_size t <= n) ts.
Proof.
  revert n. induction ts as [|t r IH]; simpl; intros n H; constructor; [lia|].
  apply IH. lia.
Qed.

(** Every string in a parsed value is shorter than the text. *)
Theorem parse_shorter (text : string) (v : value) :
  parse text = Some v -> max_str v < String.length text.
Proof.
  unfold parse. destruct (lex Top text) as [ts|] eqn:L; [|discriminate].
  destruct (run ([], EValue) ts) as [[[|f stack] [| | | | | |d]]|] eqn:R; try discriminate.
  intros [= <-].
  destruct text as [|c r]; [simpl in L; injection L as <-; discriminate|].
  apply lex_size in L. simpl in L. rewrite Nat.add_0_r in L.
  apply tokens_size_each in L.
  apply (run_within (String.length r)) in R; trivial.
  - destruct R as [_ R]. simpl in R. unfold within in R. simpl. lia.
  - split; [constructor|exact I].
Qed.

End JsonTextFacts.

(* ================================================================== *)
(** * The settings kept in local storage *)

Module StorageSpec.
Import Json JsonText JsonTextFacts Client Storage StrFacts.

Definition opt_member_text (k : string) (o : option string) (rest : string) : string :=
  match o with
  | Some v => String "," (member_text k v rest)
  | None => rest
  end.

(** The text that [saveSettings] stores. *)
Definition settings_text (s : ChatSettings) : string :=
  String "{"
    (member_text "companyId" (companyId s)
       (String ","
          (member_text "customerPhone" (customerPhone s)
             (opt_member_text "customerName" (customerName s)
                (opt_member_text "apiBaseUrl" (apiBaseUrl s) "}"))))).

Lemma stringify_settings (s : ChatSettings) :
  stringify (settings_value s) = Some (settings_text s).
Proof.
  destruct s as [c p [n|] [b|]];
    unfold stringify, settings_value, settings_text, opt_member_text, member_text, wrap,
      quote, Str.char; simpl;
    do 6 (rewrite ?append_assoc; simpl); reflexivity.
Qed.

Definition opt_field (k : string) (o : option string) : fields :=
  match o with
  | Some v => [(k, VStr v)]
  | None => []
  end.

(** The object that comes back: the properties of the settings that
    are not [undefined]. *)
Definition settings_loaded (s : ChatSettings) : value :=
  VObj (("companyId", VStr (companyId s))
          :: ("customerPhone", VStr (customerPhone s))
          :: opt_field "customerName" (customerName s)
          ++ opt_field "apiBaseUrl" (apiBaseUrl s))%list.

Lemma parse_settings (s : ChatSettings) :
  parse (settings_text s) = Some (settings_loaded s).
Proof.
  unfold parse, settings_text.
  change (lex Top (String "{" ?r)) with (cons_token TLBrace (lex Top r)).
  rewrite lex_member.
  match goal with
  | |- context [lex Top (String "," ?r)] =>
      change (lex Top (String "," r)) with (cons_token TComma (lex Top r))
  end.
  rewrite lex_member.
  destruct s as [c p [n|] [b|]]; simpl opt_member_text;
    repeat match goal with
      | |- context [lex Top (String "," ?r)] =>
          change (lex Top (String "," r)) with (cons_token TComma (lex Top r));
          rewrite lex_member
      end;
    reflexivity.
Qed.

Lemma getItem_setItem (k v : string) (st : localStorage) :
  getItem k (setItem k v st) = Some v.
Proof. unfold setItem. simpl. now rewrite String.eqb_refl. Qed.

Lemma getItem_removeItem (k : string) (st : localStorage) :
  getItem k (removeItem k st) = None.
Proof.
  induction st as [|[k' v] r IH]; simpl; [reflexivity|].
  destruct (String.eqb k k') eqn:E; [exact IH|]. simpl. now rewrite E.
Qed.

(** C6. Whatever the storage holds: after [saveSettings(s)],
    [loadSettings()] returns an object that is [s] again at the type
    [ChatSettings], field by field (the properties of [s] that are
    [undefined] are absent from it, and read as [undefined]), and that
    is written as the same text; after [clearSettings()],
    [loadSettings()] returns [null]. *)
Theorem C6_storage_roundtrip (s : ChatSettings) (st : localStorage) :
  (exists v,
      loadSettings (saveSettings (settings_value s) st) = Some v /\
      as_settings v = Some s /\
      v = settings_loaded s /\
      read_string v "companyId" = Some (companyId s) /\
      read_string v "customerPhone" = Some (customerPhone s) /\
      read_string v "customerName" = customerName s /\
      read_string v "apiBaseUrl" = apiBaseUrl s /\
      stringify v = stringify (settings_value s)) /\
  loadSettings (clearSettings st) = None.
Proof.
  split.
  - exists (settings_loaded s).
    split.
    + unfold loadSettings, saveSettings. rewrite stringify_settings, getItem_setItem.
      unfold settings_text at 1. simpl Str.is_empty. apply parse_settings.
    + destruct s as [c p [n|] [b|]]; repeat split; reflexivity.
  - unfold loadSettings, clearSettings. now rewrite getItem_removeItem.
Qed.

End StorageSpec.

(* ================================================================== *)
(** * The laws of [URL] on the plain web addresses *)

Module SimpleUrlFacts.
Import Json SimpleUrl StrFacts.

(** ** Text cut at a code unit *)

(** [s] is empty or starts with a code unit that satisfies [stop]. *)
Definition stops (stop : ascii -> bool) (s : string) : bool :=
  match s with
  | "" => true
  | String c _ => stop c
  end.

Lemma break_app (stop : ascii -> bool) (a b : string) :
  Str.all_chars (fun c => negb (stop c)) a = true ->
  stops stop b = true ->
  break stop (a ++ b) = (a, b).
Proof.
  intros A B. induction a as [|c a IH]; cbn [append].
  - destruct b as [|c r]; [reflexivity|]. cbn [break]. cbn [stops] in B. now rewrite B.
  - cbn [Str.all_chars] in A. apply andb_true_iff in A. destruct A as [C A].
    cbn [break]. apply negb_true_iff in C. now rewrite C, (IH A).
Qed.

Lemma break_stops (stop : ascii -> bool) (s a b : string) :
  break stop s = (a, b) -> stops stop b = true.
Proof.
  revert a b. induction s as [|c r IH]; intros a b; cbn [break].
  - now intros [= <- <-].
  - destruct (stop c) eqn:C; [intros [= <- <-]; exact C|].
    destruct (break stop r) as [x y]. intros [= <- <-]. now apply (IH x y).
Qed.

Lemma all_chars_impl (p q : ascii -> bool) (s : string) :
  (forall c, p c = true -> q c = true) ->
  Str.all_chars p s = true -> Str.all_chars q s = true.
Proof.
  intros H. induction s as [|c r IH]; [reflexivity|]. cbn [Str.all_chars].
  intros A. apply andb_true_iff in A. destruct A as [C A]. now rewrite (H c C), IH.
Qed.

Lemma substring_all (s : string) : String.substring 0 (String.length s) s = s.
Proof. induction s as [|c r IH]; [reflexivity|]. cbn. now rewrite IH. Qed.

Lemma drop_0 (s : string) : String.substring 0 (String.length s - 0) s = s.
Proof. rewrite Nat.sub_0_r. apply substring_all. Qed.

(** ** The form encoding read back *)

(** The UTF-8 bytes of a code unit. *)
Definition unit_bytes (c : ascii) : list nat :=
  let n := nat_of_ascii c in
  if n <? 128 then [n] else [192 + n / 64; 128 + n mod 64].

Fixpoint utf8_bytes (s : string) : list nat :=
  match s with
  | "" => []
  | String c r => (unit_bytes c ++ utf8_bytes r)%list
  end.

Lemma form_bytes_unit (c : ascii) (r : string) :
  form_bytes (form_encode_unit c ++ r) = (unit_bytes c ++ form_bytes r)%list.
Proof.
  destruct c as [[] [] [] [] [] [] [] []]; reflexivity.
Qed.

Lemma form_bytes_encode (s : string) : form_bytes (form_encode s) = utf8_bytes s.
Proof.
  induction s as [|c r IH]; [reflexivity|].
  cbn [form_encode utf8_bytes]. now rewrite form_bytes_unit, IH.
Qed.

Lemma utf8_units_unit (c : ascii) (bs : list nat) :
  utf8_units (unit_bytes c ++ bs)%list = String c (utf8_units bs).
Proof.
  destruct c as [[] [] [] [] [] [] [] []]; destruct bs; reflexivity.
Qed.

Lemma utf8_units_bytes (s : string) : utf8_units (utf8_bytes s) = s.
Proof.
  induction s as [|c r IH]; [reflexivity|].
  cbn [utf8_bytes]. now rewrite utf8_units_unit, IH.
Qed.

(** What the serializer wrote for a string decodes to the string. *)
Lemma form_decode_encode (s : string) : form_decode (form_encode s) = s.
Proof. unfold form_decode. rewrite form_bytes_encode. apply utf8_units_bytes. Qed.

(** A code unit of an encoded name or value: none of [&], [=], [#]. *)
Definition piece_unit (c : ascii) : bool :=
  query_unit c && negb (is_unit 38 c) && negb (is_unit 61 c).

Lemma form_encode_unit_units (c : ascii) :
  Str.all_chars piece_unit (form_encode_unit c) = true.
Proof.
  destruct c as [[] [] [] [] [] [] [] []]; reflexivity.
Qed.

Lemma form_encode_units (s : string) :
  Str.all_chars piece_unit (form_encode s) = true.
Proof.
  induction s as [|c r IH]; [reflexivity|].
  cbn [form_encode]. now rewrite all_chars_app, form_encode_unit_units, IH.
Qed.

Lemma piece_unit_query (c : ascii) : piece_unit c = true -> query_unit c = true.
Proof.
  unfold piece_unit. intros H. apply andb_true_iff in H. destruct H as [H _].
  apply andb_true_iff in H. now destruct H.
Qed.

Lemma piece_unit_no_amp (c : ascii) : piece_unit c = true -> negb (is_unit 38 c) = true.
Proof.
  unfold piece_unit. intros H. apply andb_true_iff in H. destruct H as [H _].
  apply andb_true_iff in H. now destruct H.
Qed.

Lemma piece_unit_no_eq (c : ascii) : piece_unit c = true -> negb (is_unit 61 c) = true.
Proof.
  unfold piece_unit. intros H. apply andb_true_iff in H. now destruct H.
Qed.

Lemma query_unit_no_hash (c : ascii) : query_unit c = true -> negb (is_unit 35 c) = true.
Proof.
  destruct c as [[] [] [] [] [] [] [] []]; try reflexivity; discriminate.
Qed.

(** ** The pairs of a query read back *)

Definition written_pair (kv : string * string) : string :=
  form_encode (fst kv) ++ "=" ++ form_encode (snd kv).

Lemma split_amp_app (cur a rest : string) :
  Str.all_chars (fun c => negb (is_unit 38 c)) a = true ->
  split_amp cur (a ++ rest) = split_amp (cur ++ a) rest.
Proof.
  revert cur. induction a as [|c a IH]; intros cur A; cbn [append].
  - now rewrite append_empty_r.
  - cbn [Str.all_chars] in A. apply andb_true_iff in A. destruct A as [C A].
    cbn [split_amp]. apply negb_true_iff in C. rewrite C, (IH _ A).
    unfold Str.char. now rewrite append_assoc.
Qed.

Lemma split_amp_join (x : string) (ps : list string) :
  Forall (fun p => Str.all_chars (fun c => negb (is_unit 38 c)) p = true) (x :: ps) ->
  split_amp "" (Str.join "&" (x :: ps)) = x :: ps.
Proof.
  revert x. induction ps as [|y r IH]; intros x F.
  - cbn [Str.join String.concat]. rewrite <- (append_empty_r x) at 1.
    rewrite split_amp_app by (now inversion F). reflexivity.
  - inversion F as [|? ? Fx Fr]; subst.
    change (Str.join "&" (x :: y :: r)) with (x ++ String "&" (Str.join "&" (y :: r))).
    rewrite split_amp_app by exact Fx. cbn [split_amp append].
    change (is_unit 38 "&") with true. cbn iota. now rewrite (IH y Fr).
Qed.

Lemma written_pair_units (kv : string * string) :
  Str.all_chars query_unit (written_pair kv) = true /\
  Str.all_chars (fun c => negb (is_unit 38 c)) (written_pair kv) = true /\
  Str.is_empty (written_pair kv) = false.
Proof.
  unfold written_pair. split; [|split].
  - rewrite !all_chars_app.
    rewrite (all_chars_impl _ _ _ piece_unit_query (form_encode_units (fst kv))).
    now rewrite (all_chars_impl _ _ _ piece_unit_query (form_encode_units (snd kv))).
  - rewrite !all_chars_app.
    rewrite (all_chars_impl _ _ _ piece_unit_no_amp (form_encode_units (fst kv))).
    now rewrite (all_chars_impl _ _ _ piece_unit_no_amp (form_encode_units (snd kv))).
  - destruct (form_encode (fst kv)); reflexivity.
Qed.

Lemma pair_of_written (kv : string * string) : pair_of (written_pair kv) = kv.
Proof.
  unfold pair_of, written_pair.
  change ("=" ++ form_encode (snd kv)) with (String "=" (form_encode (snd kv))).
  rewrite (break_app (is_unit 61) (form_encode (fst kv))
                     (String "=" (form_encode (snd kv)))).
  - rewrite !form_decode_encode. now destruct kv.
  - exact (all_chars_impl _ _ _ piece_unit_no_eq (form_encode_units (fst kv))).
  - reflexivity.
Qed.

Lemma filter_all {A : Type} (p : A -> bool) (l : list A) :
  Forall (fun x => p x = true) l -> filter p l = l.
Proof.
  induction 1 as [|x r H _ IH]; [reflexivity|]. cbn [filter]. now rewrite H, IH.
Qed.

(** Reading the pairs that the serializer wrote gives them back. *)
Lemma pairs_serialize (l : list (string * string)) : pairs (serialize l) = l.
Proof.
  unfold pairs, serialize. fold written_pair.
  change (fun kv : string * string => form_encode (fst kv) ++ "=" ++ form_encode (snd kv))
    with written_pair.
  destruct l as [|kv r]; [reflexivity|].
  change (map written_pair (kv :: r)) with (written_pair kv :: map written_pair r).
  rewrite split_amp_join.
  - rewrite filter_all.
    + change (written_pair kv :: map written_pair r) with (map written_pair (kv :: r)).
      rewrite map_map. rewrite <- (map_id (kv :: r)) at 2.
      apply map_ext. intros a. apply pair_of_written.
    + change (written_pair kv :: map written_pair r) with (map written_pair (kv :: r)).
      apply Forall_map. apply Forall_forall. intros a _.
      destruct (written_pair_units a) as [_ [_ E]]. now rewrite E.
  - change (written_pair kv :: map written_pair r) with (map written_pair (kv :: r)).
    apply Forall_map. apply Forall_forall. intros a _.
    now destruct (written_pair_units a) as [_ [E _]].
Qed.

Lemma join_units (p : ascii -> bool) (ps : list string) :
  p "&"%char = true ->
  Forall (fun x => Str.all_chars p x = true) ps ->
  Str.all_chars p (Str.join "&" ps) = true.
Proof.
  intros Hp. induction 1 as [|x r H F IH]; [reflexivity|].
  destruct r as [|y r']; [exact H|].
  change (Str.join "&" (x :: y :: r')) with (x ++ String "&" (Str.join "&" (y :: r'))).
  rewrite all_chars_app, H. cbn [Str.all_chars andb]. now rewrite Hp, IH.
Qed.

Lemma serialize_units (l : list (string * string)) :
  Str.all_chars query_unit (serialize l) = true.
Proof.
  unfold serialize. apply join_units; [reflexivity|].
  apply Forall_map. apply Forall_forall. intros a _.
  now destruct (written_pair_units a) as [E _].
Qed.

Lemma serialize_written (l : list (string * string)) : written (serialize l) = true.
Proof. unfold written. rewrite pairs_serialize. apply String.eqb_refl. Qed.

(** ** The search parameters *)

Lemma find_set_pair (k v : string) (l : list (string * string)) :
  find (fun kv => String.eqb (fst kv) k) (set_pair k v l) = Some (k, v).
Proof.
  induction l as [|[k' v'] r IH]; cbn [set_pair find fst].
  - now rewrite String.eqb_refl.
  - destruct (String.eqb k' k) eqn:E; cbn [find fst].
    + now rewrite String.eqb_refl.
    + now rewrite E.
Qed.

(** A parameter that was set is the parameter that is read. *)
Lemma simple_get_set (u : t) (k v : string) : get (set u k v) k = Some v.
Proof.
  unfold get, params, set. cbn [query]. fold (params u).
  now rewrite pairs_serialize, find_set_pair.
Qed.

Lemma simple_has_get (u : t) (k : string) : has u k = true <-> get u k <> None.
Proof.
  unfold has, get. induction (params u) as [|kv r IH]; cbn [existsb find].
  - split; [discriminate|]. intros H. now contradiction H.
  - destruct (String.eqb (fst kv) k); cbn [orb]; [|exact IH].
    split; [discriminate|reflexivity].
Qed.

(** ** An address read back from its own text *)

(** What [read] hands out. *)
Definition well_formed (u : t) : Prop :=
  (scheme u = "https" \/ scheme u = "http") /\
  Str.is_empty (host u) = false /\
  Str.all_chars host_unit (host u) = true /\
  stops (is_unit 47) (path u) = true /\
  Str.is_empty (path u) = false /\
  Str.all_chars path_unit (path u) = true /\
  has_dot_segment (path u) = false /\
  Str.all_chars query_unit (Client.or_empty (query u)) = true /\
  written (Client.or_empty (query u)) = true /\
  Str.all_chars query_unit (Client.or_empty (fragment u)) = true /\
  escapes_ascii (Client.or_empty (fragment u)) = true.

Lemma host_unit_goes_on (c : ascii) :
  host_unit c = true -> negb (is_unit 47 c || is_unit 63 c || is_unit 35 c) = true.
Proof.
  destruct c as [[] [] [] [] [] [] [] []]; try reflexivity; discriminate.
Qed.

Lemma path_unit_goes_on (c : ascii) :
  path_unit c = true -> negb (is_unit 63 c || is_unit 35 c) = true.
Proof.
  destruct c as [[] [] [] [] [] [] [] []]; try reflexivity; discriminate.
Qed.

Definition query_text (q : option string) : string :=
  match q with Some x => "?" ++ x | None => "" end.

Definition fragment_text (f : option string) : string :=
  match f with Some x => "#" ++ x | None => "" end.

Lemma read_after_text (u : t) :
  well_formed u ->
  read_after (scheme u)
             (host u ++ path u ++ query_text (query u) ++ fragment_text (fragment u))
  = Some u.
Proof.
  destruct u as [sch h p q f]. unfold well_formed. cbn [scheme host path query fragment].
  intros [_ [H1 [H2 [P0 [P1 [P2 [P3 [Q1 [Q2 [F1 F2]]]]]]]]]].
  unfold read_after.
  rewrite (break_app _ h (p ++ query_text q ++ fragment_text f)).
  2:{ exact (all_chars_impl _ _ _ host_unit_goes_on H2). }
  2:{ destruct p as [|c p']; [discriminate|]. cbn [append stops].
      cbn [stops] in P0. now rewrite P0. }
  rewrite (break_app _ p (query_text q ++ fragment_text f)).
  2:{ exact (all_chars_impl _ _ _ path_unit_goes_on P2). }
  2:{ destruct q, f; reflexivity. }
  assert (E : (let (q0, r3) :=
                 match query_text q ++ fragment_text f with
                 | String "?" x => let (a, b) := break (is_unit 35) x in (Some a, b)
                 | _ => (None, query_text q ++ fragment_text f)
                 end in
               (q0, match r3 with String "#" x => Some x | _ => None end))
              = (q, f)).
  { destruct q as [q|].
    - change (query_text (Some q) ++ fragment_text f)
        with (String "?" (q ++ fragment_text f)). cbv iota beta.
      rewrite (break_app (is_unit 35) q (fragment_text f)).
      + destruct f; reflexivity.
      + exact (all_chars_impl _ _ _ query_unit_no_hash Q1).
      + destruct f; reflexivity.
    - destruct f; reflexivity. }
  destruct (match query_text q ++ fragment_text f with
            | String "?" x => let (a, b) := break (is_unit 35) x in (Some a, b)
            | _ => (None, query_text q ++ fragment_text f)
            end) as [q0 r3].
  injection E as -> E. rewrite E.
  rewrite H1, H2, P1, P2, P3, Q1, Q2, F1, F2. reflexivity.
Qed.

Lemma drop_https (r : string) : drop 8 ("https" ++ "://" ++ r) = r.
Proof. unfold drop. cbn. apply drop_0. Qed.

Lemma drop_http (r : string) : drop 7 ("http" ++ "://" ++ r) = r.
Proof. unfold drop. cbn. apply drop_0. Qed.

Lemma starts_https (r : string) :
  Str.startsWith ("https" ++ "://" ++ r) "https://" = true.
Proof. destruct r; vm_compute; reflexivity. Qed.

Lemma starts_http (r : string) :
  Str.startsWith ("http" ++ "://" ++ r) "https://" = false /\
  Str.startsWith ("http" ++ "://" ++ r) "http://" = true.
Proof. destruct r; split; vm_compute; reflexivity. Qed.

(** A well-formed address is read back from its own text. *)
Lemma read_toString (u : t) : well_formed u -> read (toString u) = Some u.
Proof.
  intros W. pose proof (read_after_text u W) as R.
  unfold toString. fold (query_text (query u)). fold (fragment_text (fragment u)).
  destruct W as [[S|S] _]; rewrite S in *; unfold read.
  - now rewrite starts_https, drop_https.
  - destruct (starts_http (host u ++ path u ++ query_text (query u)
                           ++ fragment_text (fragment u))) as [A B].
    now rewrite A, B, drop_http.
Qed.

Lemma break_head (stop : ascii -> bool) (s a b : string) (c : ascii) :
  break stop s = (String c a, b) -> exists r, s = String c r /\ stop c = false.
Proof.
  destruct s as [|d r]; cbn [break]; [discriminate|].
  destruct (stop d) eqn:D; [discriminate|].
  destruct (break stop r) as [x y]. intros [= -> _ _]. now exists r.
Qed.

Lemma read_after_well_formed (sch r : string) (u : t) :
  sch = "https" \/ sch = "http" ->
  read_after sch r = Some u -> well_formed u.
Proof.
  intros S. unfold read_after.
  destruct (break _ r) as [h r1] eqn:B1.
  destruct (break _ r1) as [p r2] eqn:B2.
  destruct (match r2 with String "?" x => _ | _ => _ end) as [q r3].
  destruct (_ && _) eqn:C; [|discriminate]. intros [= <-].
  repeat (apply andb_true_iff in C; let X := fresh "C" in destruct C as [C X]).
  unfold well_formed. cbn [scheme host path query fragment].
  apply negb_true_iff in C. apply negb_true_iff in C4.
  repeat split; try assumption.
  - destruct p as [|c p']; [reflexivity|]. cbn [Str.is_empty stops].
    apply break_stops in B1. destruct (break_head _ _ _ _ _ B2) as [r' [-> N]].
    cbn [stops] in B1. apply orb_false_iff in N. destruct N as [N1 N2].
    rewrite <- orb_assoc, N1, N2, !orb_false_r in B1. exact B1.
  - now destruct p.
  - destruct p; [reflexivity|]. exact C5.
  - destruct p; [reflexivity|]. exact C4.
Qed.

Lemma read_well_formed (href : string) (u : t) : read href = Some u -> well_formed u.
Proof.
  unfold read. destruct (Str.startsWith href "https://").
  - apply read_after_well_formed. now left.
  - destruct (Str.startsWith href "http://"); [|discriminate].
    apply read_after_well_formed. now right.
Qed.

Lemma set_well_formed (u : t) (k v : string) : well_formed u -> well_formed (set u k v).
Proof.
  unfold well_formed, set. cbn [scheme host path query fragment Client.or_empty].
  intros [S [H1 [H2 [P0 [P1 [P2 [P3 [_ [_ [F1 F2]]]]]]]]]].
  repeat split; try assumption; [apply serialize_units|apply serialize_written].
Qed.

(** ** The laws *)

(** The text of an address that was read is read as that address. *)
Lemma simple_read_text (href : string) (u : t) :
  read href = Some u -> read (toString u) = Some u.
Proof. intros H. now apply read_toString, (read_well_formed href). Qed.

(** So is the text of an address in which a parameter was set. *)
Lemma simple_read_text_set (href : string) (u : t) (k v : string) :
  read href = Some u -> read (toString (set u k v)) = Some (set u k v).
Proof. intros H. now apply read_toString, set_well_formed, (read_well_formed href). Qed.

End SimpleUrlFacts.

(* ================================================================== *)
(** * What the chat view makes of a text and of a call to action *)

Module ChatViewSpec.
Import Json Client ChatView StrFacts JsonTextFacts.

Lemma segments_of_array_nil_inv (xs : list value) :
  segments_of_array xs <> [] -> xs <> [].
Proof. intros H E. subst. now apply H. Qed.

(** What the function returns when it does not return [null]. *)
Lemma tryParse_some (text : string) (items : list value) :
  tryParseDisparoItemsFromText text = Some items ->
  let t := Str.trim text in
  items <> [] /\
  (Str.startsWith t "{" || Str.startsWith t "[") = true /\
  Str.includes t typeText = true /\
  exists parsed,
    JsonText.parse t = Some parsed /\
    ((exists fs, parsed = VObj fs /\ items = [parsed]) \/
     (exists xs, parsed = VArr xs /\ xs <> [] /\ items = segments_of_array xs)).
Proof.
  intros H t. unfold tryParseDisparoItemsFromText in H. fold t in H.
  destruct (Str.is_empty text); [discriminate|].
  destruct (Str.is_empty t); [discriminate|].
  destruct (Str.startsWith t "{" || Str.startsWith t "["); simpl in H; [|discriminate].
  destruct (Str.includes t typeText); simpl in H; [|discriminate].
  destruct (JsonText.parse t) as [parsed|]; [|discriminate].
  destruct parsed as [| | | | |xs|fs]; simpl in H;
    rewrite ?andb_false_r in H; try discriminate.
  - destruct (segments_of_array xs) as [|x r] eqn:E; [discriminate|].
    injection H as <-. split; [discriminate|]. split; [reflexivity|].
    split; [reflexivity|]. eexists. split; [reflexivity|]. right.
    exists xs. split; [reflexivity|]. split; [|now rewrite E].
    apply segments_of_array_nil_inv. now rewrite E.
  - injection H as <-. split; [discriminate|]. split; [reflexivity|].
    split; [reflexivity|]. eexists. split; [reflexivity|]. left. now exists fs.
Qed.

(** The length of the text of a text item. *)
Definition msg_len (it : value) : nat :=
  match opt_member it "message" with
  | VStr m => String.length m
  | _ => 0
  end.

Lemma lookup_max_str (k : string) (fs : fields) (x : value) :
  lookup k fs = Some x -> max_str x <= max_str (VObj fs).
Proof.
  induction fs as [|[k' v] r IH]; simpl; [discriminate|].
  destruct (String.eqb k k').
  - intros [= <-]. lia.
  - intros H. apply IH in H. simpl in H. lia.
Qed.

Lemma msg_len_max_str (it : value) : msg_len it <= max_str it.
Proof.
  unfold msg_len, opt_member. destruct it as [| | | | | |fs]; simpl; try lia.
  destruct (lookup "message" fs) as [x|] eqn:E; [|lia].
  apply lookup_max_str in E. simpl in E. destruct x; simpl in *; lia.
Qed.

Lemma segments_msg_len (K : nat) (xs : list value) :
  max_str (VArr xs) <= K -> Forall (fun it => msg_len it <= K) (segments_of_array xs).
Proof.
  intros H. apply within_arr in H. unfold segments_of_array.
  induction H as [|x r Hx Hr IH]; simpl; [constructor|].
  apply Forall_app. split; [|exact IH].
  pose proof (msg_len_max_str x) as M. unfold within in Hx.
  destruct x; simpl; rewrite ?andb_false_r; repeat constructor;
    unfold msg_len in *; simpl in *; lia.
Qed.

(** The texts of the segments read from a text are shorter than it. *)
Lemma tryParse_shorter (text : string) (items : list value) :
  tryParseDisparoItemsFromText text = Some items ->
  Forall (fun it => S (msg_len it) <= String.length text) items.
Proof.
  intros H. destruct (tryParse_some text items H) as [_ [_ [_ [parsed [P C]]]]].
  apply parse_shorter in P. pose proof (trim_length text) as T.
  destruct C as [[fs [-> ->]]|[xs [-> [_ ->]]]].
  - constructor; [|constructor]. pose proof (msg_len_max_str (VObj fs)). lia.
  - eapply Forall_impl; [|apply (segments_msg_len (String.length text - 1)); lia].
    simpl. intros. lia.
Qed.

Section Render.
Variable api : Url.Api.

(** C7. [tryParseDisparoItemsFromText] is a function of the text
    alone, with [null] or a list of segments as its only results. It
    returns [null] for a text that, once trimmed, does not start with
    a brace or a bracket, has no ["type"] in it, is not JSON, or is a
    JSON array without a string or an object in it; the list it
    returns is never empty, and comes from a trimmed text that starts
    with a brace or a bracket, contains ["type"] and is the JSON of an
    object or of a non-empty array. Where it returns [null],
    [MessageContent] shows the text itself; where it returns segments,
    their texts are shorter than the text, so that showing them in turn
    comes to an end. *)
Theorem C7_reparse (text : string) :
  let t := Str.trim text in
  (tryParseDisparoItemsFromText text = None \/
   exists x xs, tryParseDisparoItemsFromText text = Some (x :: xs)) /\
  ((Str.startsWith t "{" || Str.startsWith t "[") = false ->
   tryParseDisparoItemsFromText text = None) /\
  (Str.includes t typeText = false -> tryParseDisparoItemsFromText text = None) /\
  (JsonText.parse t = None -> tryParseDisparoItemsFromText text = None) /\
  (forall xs, JsonText.parse t = Some (VArr xs) -> segments_of_array xs = [] ->
              tryParseDisparoItemsFromText text = None) /\
  (forall items,
      tryParseDisparoItemsFromText text = Some items ->
      items <> [] /\
      (Str.startsWith t "{" || Str.startsWith t "[") = true /\
      Str.includes t typeText = true /\
      exists parsed,
        JsonText.parse t = Some parsed /\
        ((exists fs, parsed = VObj fs /\ items = [parsed]) \/
         (exists xs, parsed = VArr xs /\ xs <> [] /\ items = segments_of_array xs))) /\
  (forall depth origin page,
      text <> "" ->
      tryParseDisparoItemsFromText text = None ->
      MessageContent api depth origin page [text_item text] = [NText text]) /\
  (forall items,
      tryParseDisparoItemsFromText text = Some items ->
      Forall (fun it => msg_len it < String.length text) items).
Proof.
  intros t. repeat split.
  - destruct (tryParseDisparoItemsFromText text) as [items|] eqn:E; [right|now left].
    destruct (tryParse_some text items E) as [H _].
    destruct items as [|x xs]; [congruence|]. now exists x, xs.
  - intros H. unfold tryParseDisparoItemsFromText. fold t. rewrite H. simpl.
    destruct (Str.is_empty text); [reflexivity|]. now destruct (Str.is_empty t).
  - intros H. unfold tryParseDisparoItemsFromText. fold t. rewrite H. simpl.
    destruct (Str.is_empty text); [reflexivity|]. destruct (Str.is_empty t); [reflexivity|].
    now destruct (negb _).
  - intros H. unfold tryParseDisparoItemsFromText. fold t. rewrite H.
    destruct (Str.is_empty text); [reflexivity|]. destruct (Str.is_empty t); [reflexivity|].
    destruct (negb _); [reflexivity|]. now destruct (negb _).
  - intros xs H E. unfold tryParseDisparoItemsFromText. fold t. rewrite H, E.
    destruct (Str.is_empty text); [reflexivity|]. destruct (Str.is_empty t); [reflexivity|].
    destruct (negb _); [reflexivity|]. now destruct (negb _).
  - now apply (tryParse_some text items H).
  - now apply (tryParse_some text items H).
  - now apply (tryParse_some text items H).
  - now apply (tryParse_some text items H).
  - intros depth origin page Hne Hnull.
    destruct depth; simpl; rewrite ?Hnull;
      apply truthy_true in Hne; now rewrite Hne.
  - intros items H. now apply tryParse_shorter.
Qed.

(** A depth that covers the texts of the items is never used up: more
    depth shows the same. *)
Theorem MessageContent_depth (origin page : option string) (d : nat) :
  forall (k : nat) (items : list value),
  Forall (fun it => msg_len it <= d) items ->
  MessageContent api (d + k) origin page items
  = MessageContent api d origin page items.
Proof.
  induction d as [|d IH]; intros k items H.
  - induction H as [|it r Hit Hr IHr]; [now destruct k|].
    change (0 + k) with k in *.
    destruct k as [|k]; [reflexivity|].
    cbn [MessageContent flat_map] in *. f_equal; [|exact IHr].
    destruct (negb (truthy it && typeof_object it)); [reflexivity|].
    destruct (opt_member it "type") as [| | | |ty| |]; try reflexivity.
    unfold msg_len in Hit.
    destruct (opt_member it "message") as [| | | |msg| |]; try reflexivity.
    assert (msg = "") by (now apply length_zero; lia). subst msg. reflexivity.
  - induction H as [|it r Hit Hr IHr]; [reflexivity|].
    cbn [MessageContent flat_map Nat.add] in *. f_equal; [|exact IHr].
    destruct (negb (truthy it && typeof_object it)); [reflexivity|].
    destruct (opt_member it "type") as [| | | |ty| |]; try reflexivity.
    unfold msg_len in Hit.
    destruct (opt_member it "message") as [| | | |msg| |]; try reflexivity.
    destruct (tryParseDisparoItemsFromText msg) as [[|x xs]|] eqn:E; try reflexivity.
    rewrite IH; [reflexivity|].
    apply tryParse_shorter in E. eapply Forall_impl; [|exact E]. simpl. intros. lia.
Qed.

(** ** The call to action *)

(** The object [{ type: 'cta_url', url: u, display: d }]. *)
Definition cta (u d : string) : value :=
  VObj [("type", VStr "cta_url"); ("url", VStr u); ("display", VStr d)].

Definition base_of (origin : option string) : string :=
  match origin with
  | Some o => if Str.truthy o then o else "http://localhost"
  | None => "http://localhost"
  end.

Lemma render_other_cta (origin page : option string) (u d : string) :
  render_other api origin page (cta u d)
  = match cta_href api origin page (VStr u) with
    | VStr href =>
        if Str.truthy href
        then [NLink href (if Str.truthy d then VStr d else VStr "Abrir link") None]
        else [NRaw (JsonText.stringify_pretty (cta u d))]
    | _ => [NRaw (JsonText.stringify_pretty (cta u d))]
    end.
Proof. reflexivity. Qed.

Lemma MessageContent_cta (depth : nat) (origin page : option string) (u d : string) :
  MessageContent api depth origin page [cta u d]
  = render_other api origin page (cta u d).
Proof.
  destruct depth; unfold MessageContent; cbn [flat_map];
    change (opt_member (cta u d) "type") with (VStr "cta_url");
    cbn -[render_other cta]; apply app_nil_r.
Qed.

(** ** The laws of the [URL] class

    What the reading below takes from the platform: a parameter is
    there exactly when it can be read; a parameter that was set is the
    one that is read; and the text of a URL, as it was made by [new
    URL] or after a parameter was set in it, is read by [new URL] as
    that same URL. *)
Section Laws.
Hypothesis has_get :
  forall url k,
    Url.searchParams_has api url k = true <-> Url.searchParams_get api url k <> None.
Hypothesis get_set :
  forall url k v,
    Url.searchParams_get api (Url.searchParams_set api url k v) k = Some v.
Hypothesis read_text :
  forall href base url,
    Url.URL_new api href base = Some url ->
    Url.URL_new api (Url.URL_toString api url) base = Some url.
Hypothesis read_text_set :
  forall href base url k v,
    Url.URL_new api href base = Some url ->
    Url.URL_new api (Url.URL_toString api (Url.searchParams_set api url k v)) base
    = Some (Url.searchParams_set api url k v).

(** C3, amended. For the call to action [{ type: 'cta_url', url: u,
    display: d }] with [u] not empty, shown on the page whose address
    is [p] (not empty), the link is shown whenever its target is not
    empty, under the text [d] (or [Abrir link] for an empty [d]), and
    its target is this. When [u] cannot be read as a URL, it is [u] as
    it is. Otherwise it is the text of a URL, which [new URL] reads
    back from it: when the URL read from [u] has a [redirect_url]
    parameter already, that very URL, with the parameter as it was
    (the text is the one the platform writes for the URL, which need
    not be [u] letter for letter); when it has none, that URL with
    [redirect_url] set, and the parameter read from the target is
    [p]. *)
Theorem C3_cta_link (depth : nat) (origin : option string) (u d p : string) :
  u <> "" -> p <> "" ->
  exists href,
    cta_href api origin (Some p) (VStr u) = VStr href /\
    (href <> "" ->
     MessageContent api depth origin (Some p) [cta u d]
     = [NLink href (if Str.truthy d then VStr d else VStr "Abrir link") None]) /\
    match Url.URL_new api u (base_of origin) with
    | None => href = u
    | Some url =>
        exists target,
          Url.URL_new api href (base_of origin) = Some target /\
          href = Url.URL_toString api target /\
          match Url.searchParams_get api url "redirect_url" with
          | Some v =>
              target = url /\
              Url.searchParams_get api target "redirect_url" = Some v
          | None =>
              target = Url.searchParams_set api url "redirect_url" p /\
              Url.searchParams_get api target "redirect_url" = Some p
          end
    end.
Proof.
  intros Hu Hp.
  exists (match Url.URL_new api u (base_of origin) with
          | None => u
          | Some url =>
              if Url.searchParams_has api url "redirect_url"
              then Url.URL_toString api url
              else Url.URL_toString api (Url.searchParams_set api url "redirect_url" p)
          end).
  assert (E : cta_href api origin (Some p) (VStr u)
              = VStr match Url.URL_new api u (base_of origin) with
                     | None => u
                     | Some url =>
                         if Url.searchParams_has api url "redirect_url"
                         then Url.URL_toString api url
                         else Url.URL_toString
                                api (Url.searchParams_set api url "redirect_url" p)
                     end).
  { unfold cta_href, withRedirectUrlParam. simpl or_empty.
    apply truthy_true in Hp, Hu. rewrite Hp, Hu. simpl.
    unfold Str.truthy in Hu. apply negb_true_iff in Hu. rewrite Hu. reflexivity. }
  split; [exact E|]. split.
  { intros Hh. apply truthy_true in Hh.
    rewrite MessageContent_cta, render_other_cta, E, Hh. reflexivity. }
  destruct (Url.URL_new api u (base_of origin)) as [url|] eqn:N; [|reflexivity].
  pose proof (has_get url "redirect_url") as HG.
  destruct (Url.searchParams_has api url "redirect_url") eqn:H.
  - exists url. split; [exact (read_text u (base_of origin) url N)|].
    split; [reflexivity|].
    destruct (Url.searchParams_get api url "redirect_url") as [v|] eqn:G.
    + split; reflexivity.
    + destruct HG as [HG _]. now contradiction (HG eq_refl).
  - exists (Url.searchParams_set api url "redirect_url" p).
    split; [exact (read_text_set u (base_of origin) url "redirect_url" p N)|].
    split; [reflexivity|].
    destruct (Url.searchParams_get api url "redirect_url") as [v|] eqn:G.
    + destruct HG as [_ HG]. discriminate HG. discriminate.
    + split; [reflexivity|apply get_set].
Qed.

End Laws.

End Render.

(** The page and the two calls to action of the examples. *)
Definition page_example : string := "http://localhost:5173/?thread_id=T1".

(** The implementation for plain web addresses obeys the laws, and on
    it the link of [https://x] carries the page. *)
Lemma C3_cta_link_witness :
  cta_href SimpleUrl.api None (Some page_example) (VStr "https://x")
  = VStr "https://x/?redirect_url=http%3A%2F%2Flocalhost%3A5173%2F%3Fthread_id%3DT1" /\
  MessageContent SimpleUrl.api 1 None (Some page_example) [cta "https://x" "Open"]
  = [NLink "https://x/?redirect_url=http%3A%2F%2Flocalhost%3A5173%2F%3Fthread_id%3DT1"
           (VStr "Open") None] /\
  option_map (fun url => SimpleUrl.get url "redirect_url")
    (SimpleUrl.read
       "https://x/?redirect_url=http%3A%2F%2Flocalhost%3A5173%2F%3Fthread_id%3DT1")
  = Some (Some page_example).
Proof.
  destruct (C3_cta_link SimpleUrl.api
              SimpleUrlFacts.simple_has_get SimpleUrlFacts.simple_get_set
              (fun href _ url => SimpleUrlFacts.simple_read_text href url)
              (fun href _ url k v => SimpleUrlFacts.simple_read_text_set href url k v)
              1 None "https://x" "Open" page_example)
    as [href [H1 [H2 H3]]]; [discriminate|discriminate|].
  assert (E : cta_href SimpleUrl.api None (Some page_example) (VStr "https://x")
              = VStr "https://x/?redirect_url=http%3A%2F%2Flocalhost%3A5173%2F%3Fthread_id%3DT1")
    by (vm_compute; reflexivity).
  rewrite E in H1. injection H1 as <-.
  split; [exact E|]. split; [apply H2; discriminate|].
  change (Url.URL_new SimpleUrl.api "https://x" (base_of None))
    with (SimpleUrl.read "https://x") in H3.
  destruct (SimpleUrl.read "https://x") as [url|] eqn:R; [|discriminate R].
  destruct H3 as [target [T1 [_ T2]]].
  change (Url.URL_new SimpleUrl.api
            "https://x/?redirect_url=http%3A%2F%2Flocalhost%3A5173%2F%3Fthread_id%3DT1"
            (base_of None))
    with (SimpleUrl.read
            "https://x/?redirect_url=http%3A%2F%2Flocalhost%3A5173%2F%3Fthread_id%3DT1")
    in T1.
  rewrite T1. cbn [option_map]. f_equal.
  assert (G : Url.searchParams_get SimpleUrl.api url "redirect_url" = None).
  { vm_compute in R. injection R as <-. vm_compute. reflexivity. }
  rewrite G in T2. exact (proj2 T2).
Defined.

(** The parameter written above reads back as the page. *)
Example redirect_reads_back :
  option_map (fun url => SimpleUrl.get url "redirect_url")
    (SimpleUrl.read "https://x/?redirect_url=http%3A%2F%2Flocalhost%3A5173%2F%3Fthread_id%3DT1")
  = Some (Some page_example).
Proof. reflexivity. Qed.

(** C3 as stated fails where the url has a [redirect_url] already: the
    link does not point to the url as given, [https://x?redirect_url=a],
    but to the form in which the platform writes it, with a path. *)
Lemma C3_url_rewritten_counterexample :
  let u := "https://x?redirect_url=a" in
  option_map (fun url => SimpleUrl.has url "redirect_url") (SimpleUrl.read u) = Some true /\
  MessageContent SimpleUrl.api 1 None (Some page_example) [cta u "Open"]
  = [NLink "https://x/?redirect_url=a" (VStr "Open") None] /\
  "https://x/?redirect_url=a" <> u.
Proof. repeat split. discriminate. Qed.

End ChatViewSpec.

(* ================================================================== *)
(** * What a send does to the conversation *)

Module ChatSpec.
Import Json Client ChatView Chat StrFacts.

(** ** The conversation context of a reply *)

(** One of the six ids that make a reply count as carrying a
    context; the thread id is not among them. *)
Definition has_context_id (data : value) : bool :=
  some_text (or_else (getString data "assistant_id")
                     (getString data "thread_current_assistant_id"))
  || some_text (getString data "customer_id")
  || some_text (getString data "company_id")
  || Str.truthy (toLowerCase (or_empty (or_else (getString data "platform") (Some ""))))
  || some_text (getString data "external_id")
  || some_text (getString data "thread_assistant_external_id").

Lemma context_some (raw : value) (ctx : ConversationContext) :
  extractConversationContextFromResponseJson raw = Some ctx ->
  has_context_id (opt_member raw "data") = true /\
  threadId ctx = getString (opt_member raw "data") "thread_id".
Proof.
  unfold extractConversationContextFromResponseJson, has_context_id.
  destruct (negb (truthy raw && typeof_object raw)); [discriminate|].
  destruct (negb (truthy (opt_member raw "data") && typeof_object (opt_member raw "data")));
    [discriminate|].
  cbn [assistantId customerId companyId platform assistantExternalId
       threadAssistantExternalId].
  set (p := toLowerCase _).
  destruct (Str.truthy p) eqn:Ep; cbn [some_text];
    rewrite ?Ep;
    match goal with
    | |- (if ?b then _ else _) = _ -> _ => destruct b eqn:E; [|discriminate]
    end; intros [= <-]; split; try reflexivity; exact E.
Qed.

(** Without any of the six ids there is no context, whatever the
    thread id. *)
Lemma context_none (raw : value) :
  has_context_id (opt_member raw "data") = false ->
  extractConversationContextFromResponseJson raw = None.
Proof.
  unfold extractConversationContextFromResponseJson, has_context_id.
  destruct (negb (truthy raw && typeof_object raw)); [reflexivity|].
  destruct (negb (truthy (opt_member raw "data") && typeof_object (opt_member raw "data")));
    [reflexivity|].
  cbn [assistantId customerId companyId platform assistantExternalId
       threadAssistantExternalId].
  set (p := toLowerCase _).
  destruct (Str.truthy p) eqn:Ep; cbn [some_text]; rewrite ?Ep; intros E;
    now rewrite E.
Qed.

Lemma nextThreadId_of_context (raw : value) (ctx : ConversationContext) (tid : string) :
  extractConversationContextFromResponseJson raw = Some ctx ->
  threadId ctx = Some tid ->
  Str.trim tid <> "" ->
  nextThreadId_of raw = Some (Str.trim tid).
Proof.
  intros Hctx Htid Hne. unfold nextThreadId_of. rewrite Hctx, Htid.
  assert (T : Str.truthy tid = true).
  { apply truthy_true. intros ->. now apply Hne. }
  unfold or_else. cbn [some_text]. rewrite T. cbn [or_empty].
  apply truthy_true in Hne. now rewrite Hne.
Qed.

(** ** The page URL while the listener is switched off *)

Lemma setThreadIdInLocation_suppressed (P : Platform) (t : option string)
      (s : State) (n : nat) :
  suppressNextUrlSync s = true ->
  exists s',
    setThreadIdInLocation P t s n = (s', n) /\
    messages s' = messages s /\ lastOpenMsg s' = lastOpenMsg s.
Proof.
  intros H. unfold setThreadIdInLocation.
  destruct (_ && _).
  - exists s. now split.
  - unfold syncFromUrl. cbn [suppressNextUrlSync setLocation replaceState]. rewrite H.
    eexists. split; [reflexivity|]. now split.
Qed.

(** ** The thread switch *)

(** C4, amended. Take a send whose call returned, with a reply in
    which the client recognises a conversation context (its [data]
    carries one of the ids of assistant, customer, company, platform or
    external ids) whose thread id, trimmed, is not empty and differs
    from the thread id that the page URL tracked when the message was
    sent. The message list is then made anew: a system banner, the
    message just sent, the open messages replayed from this reply, and
    the assistant's answer. Nothing of the list as it was before is
    left: the result is the same whatever that list was. *)
Theorem C4_thread_switch (P : Platform) (settings : ChatSettings) (p : Pending)
        (res : send_result) (s : State) (n : nat)
        (ctx : ConversationContext) (tid t0 : string) :
  p_prevThreadId p = Some t0 ->
  extractConversationContextFromResponseJson (raw res) = Some ctx ->
  threadId ctx = Some tid ->
  Str.trim tid <> "" ->
  Str.trim tid <> t0 ->
  let s' := fst (onSend_end P settings p (Normal res) s n) in
  (exists banner aMsg,
      messages s'
      = (banner :: p_userMsg p
           :: fst (fst (replayOpenMessages P p (raw res) (lastOpenMsg s) (S (S n))))
           ++ [aMsg])%list /\
      role banner = system /\
      text banner = (if is_close_command (raw res) then closedText
                     else "Thread: " ++ Str.trim tid) /\
      role aMsg = assistant /\
      answerItems aMsg = Some (Client.answerItems res) /\
      option_map tr_json (trace aMsg) = Some (raw res) /\
      selectedId s' = Some (id aMsg)) /\
  (forall ms,
      messages (fst (onSend_end P settings p (Normal res) (setMessages (fun _ => ms) s) n))
      = messages s') /\
  loading s' = false.
Proof.
  intros Hprev Hctx Htid Hne Hdiff s'.
  pose proof (nextThreadId_of_context _ _ _ Hctx Htid Hne) as Hnext.
  assert (Hneq : negb (String.eqb t0 (Str.trim tid)) = true).
  { apply negb_true_iff, String.eqb_neq. congruence. }
  assert (Shape : forall s0,
    lastOpenMsg s0 = lastOpenMsg s ->
    exists banner aMsg,
      let r := fst (onSend_end P settings p (Normal res) s0 n) in
      messages r
      = (banner :: p_userMsg p
           :: fst (fst (replayOpenMessages P p (raw res) (lastOpenMsg s) (S (S n))))
           ++ [aMsg])%list /\
      banner = systemBanner
                 (uuid_at P (snd (replayOpenMessages P p (raw res) (lastOpenMsg s) (S (S n)))))
                 (if is_close_command (raw res) then closedText
                  else "Thread: " ++ Str.trim tid)
                 (now_at P (S (snd (replayOpenMessages P p (raw res) (lastOpenMsg s)
                                                       (S (S n)))))) /\
      id aMsg = uuid_at P (S n) /\
      createdAt aMsg = now_at P n /\
      text aMsg = first_truthy
                    (Str.trim (first_truthy (itemsToRenderableText (Client.answerItems res))
                                            (answerText res)))
                    "[sem resposta]" /\
      role aMsg = assistant /\
      answerItems aMsg = Some (Client.answerItems res) /\
      trace aMsg = Some {| tr_url := fst (request res);
                           tr_payload := snd (request res);
                           tr_status := status res;
                           tr_ok := ok res;
                           tr_json := raw res;
                           tr_rawText := rawText res;
                           tr_timingMs :=
                             if (0 <? timingMs res)%Z then timingMs res
                             else (now_at P n - p_sentAt p)%Z |} /\
      selectedId r = Some (id aMsg) /\
      loading r = false).
  { intros s0 Hlast.
    unfold onSend_end, onSend_resolved, bindM. cbn [Date_now uuid].
    rewrite Hlast.
    destruct (replayOpenMessages P p (raw res) (lastOpenMsg s) (S (S n)))
      as [opened n1]. cbn [fst snd].
    destruct (is_close_command (raw res)).
    - destruct (setThreadIdInLocation_suppressed P None
                  (setSuppress true (setLastOpenMsg (snd opened) s0)) n1 eq_refl)
        as [s1 [E _]].
      rewrite E. cbn. eexists. eexists. repeat split.
    - rewrite Hnext, Hprev, Hneq.
      destruct (setThreadIdInLocation_suppressed P (Some (Str.trim tid))
                  (setSuppress true (setLastOpenMsg (snd opened) s0)) n1 eq_refl)
        as [s1 [E _]].
      rewrite E. cbn. eexists. eexists. repeat split. }
  split; [|split].
  - destruct (Shape s eq_refl) as [banner [aMsg H]]. cbn zeta in H.
    destruct H as [H1 [H2 [_ [_ [_ [H3 [H4 [H5 [H6 _]]]]]]]]].
    exists banner, aMsg. fold s' in H1, H6.
    split; [exact H1|]. subst banner. cbn [role text systemBanner].
    split; [reflexivity|]. split; [reflexivity|]. split; [exact H3|].
    split; [exact H4|]. split; [now rewrite H5|exact H6].
  - intros ms.
    destruct (Shape s eq_refl) as [b1 [a1 H1]].
    destruct (Shape (setMessages (fun _ => ms) s) eq_refl) as [b2 [a2 H2]].
    cbn zeta in H1, H2. fold s' in H1.
    destruct H1 as [M1 [B1 [I1 [C1 [T1 [R1 [A1 [X1 _]]]]]]]].
    destruct H2 as [M2 [B2 [I2 [C2 [T2 [R2 [A2 [X2 _]]]]]]]].
    rewrite M1, M2, B1, B2. do 3 f_equal.
    destruct a1, a2. cbn in *. congruence.
  - destruct (Shape s eq_refl) as [banner [aMsg H]]. cbn zeta in H. fold s' in H.
    now destruct H as [_ [_ [_ [_ [_ [_ [_ [_ [_ H]]]]]]]]].
Qed.

Lemma getThreadId_of_param (t : string) (other : option string) :
  Str.trim t = t -> t <> "" ->
  getThreadIdFromLocation {| q_thread_id := Some t; q_threadId := other |} = Some t.
Proof.
  intros Ht Hne. unfold getThreadIdFromLocation, or_else. cbn [q_thread_id some_text].
  apply truthy_true in Hne. rewrite Hne. cbn [some_text]. rewrite Hne. cbn [or_empty].
  now rewrite Ht, Hne.
Qed.

(** After the page URL was pointed at [t] with the listener switched
    off, either the listener is still off or the URL tracks [t]. *)
Lemma setThreadIdInLocation_tracks (P : Platform) (t : string) (s : State) (n : nat) :
  suppressNextUrlSync s = true ->
  Str.trim t = t -> t <> "" ->
  let s' := fst (setThreadIdInLocation P (Some t) s n) in
  suppressNextUrlSync s' = true \/
  (suppressNextUrlSync s' = false /\ getThreadIdFromLocation (location s') = Some t).
Proof.
  intros H Ht Hne. unfold setThreadIdInLocation. cbn [or_empty]. rewrite Ht.
  destruct (_ && _); cbn [fst]; [now left|right].
  unfold syncFromUrl. cbn [suppressNextUrlSync setLocation replaceState]. rewrite H. cbn [fst ret].
  split; [reflexivity|]. cbn [location setSuppress].
  pose proof Hne as Hne'. apply truthy_true in Hne'. rewrite Hne'.
  now apply getThreadId_of_param.
Qed.

(** Once the thread was switched, the effect that follows the change of
    [loadedThreadId] leaves the message list as [onSend] made it. *)
Theorem thread_switch_settles (P : Platform) (settings : ChatSettings) (p : Pending)
        (res : send_result) (s : State) (n n' : nat)
        (ctx : ConversationContext) (tid t0 : string) :
  p_prevThreadId p = Some t0 ->
  extractConversationContextFromResponseJson (raw res) = Some ctx ->
  threadId ctx = Some tid ->
  Str.trim tid <> "" ->
  Str.trim tid <> t0 ->
  is_close_command (raw res) = false ->
  let s' := fst (onSend_end P settings p (Normal res) s n) in
  messages (fst (syncFromUrl P s' n')) = messages s' /\
  threadLoads (fst (syncFromUrl P s' n')) = threadLoads s.
Proof.
  intros Hprev Hctx Htid Hne Hdiff Hclose s'.
  pose proof (nextThreadId_of_context _ _ _ Hctx Htid Hne) as Hnext.
  assert (Hneq : negb (String.eqb t0 (Str.trim tid)) = true).
  { apply negb_true_iff, String.eqb_neq. congruence. }
  unfold s', onSend_end, onSend_resolved, bindM. cbn [Date_now uuid].
  destruct (replayOpenMessages P p (raw res) (lastOpenMsg s) (S (S n))) as [opened n1].
  rewrite Hclose, Hnext, Hprev, Hneq.
  set (s0 := setSuppress true (setLastOpenMsg (snd opened) s)).
  pose proof (setThreadIdInLocation_tracks P (Str.trim tid) s0 n1 eq_refl
                (trim_idem tid) Hne) as T.
  assert (L : threadLoads (fst (setThreadIdInLocation P (Some (Str.trim tid)) s0 n1))
              = threadLoads s).
  { unfold setThreadIdInLocation. destruct (_ && _); [reflexivity|].
    unfold syncFromUrl. reflexivity. }
  destruct (setThreadIdInLocation P (Some (Str.trim tid)) s0 n1) as [s1 n2].
  cbn [fst] in T, L. cbn [fst snd ret].
  unfold syncFromUrl. cbn [suppressNextUrlSync setLoading setInspectError setInspected
    setSelectedId setMessages setLoadedThreadId location loadedThreadId].
  destruct T as [T|[T1 T2]].
  - rewrite T. cbn. split; [reflexivity|exact L].
  - rewrite T1, T2. rewrite String.eqb_refl. cbn. split; [reflexivity|exact L].
Qed.

(** ** A conversation to run *)

(** The server answers every request with [body]. *)
Definition platform_of (st : Z) (body : string) : Platform :=
  {| uuid_at := fun n => "m" ++ Str.of_nat n;
     now_at := fun n => (1000 + Z.of_nat n)%Z;
     perf_at := fun n => Z.of_nat n;
     Date_parse := fun _ => None;
     fetch := fun _ _ => Response st (Some body) |}.

Definition settings_example : ChatSettings :=
  {| Client.companyId := "acme"; customerPhone := "5511999999999";
     customerName := None; apiBaseUrl := None |}.

Definition old_message : ChatMessage :=
  {| id := "old"; role := assistant; text := "an earlier answer";
     createdAt := 10; answerItems := None; trace := None |}.

(** The page tracks thread [T1], one message is shown and [hello] is
    typed. *)
Definition state_T1 : State :=
  {| messages := [old_message]; draft := "hello"; loading := false;
     error := None; selectedId := None; inspected := None; inspectError := None;
     loadedThreadId := Some "T1"; suppressNextUrlSync := false; lastOpenMsg := None;
     location := {| q_thread_id := Some "T1"; q_threadId := None |};
     hrefWritten := true; threadLoads := [] |}.

Definition reply_of (data : fields) : value :=
  VObj [("success", VBool true); ("provider", VStr "simple"); ("data", VObj data)].

(** A reply of thread [T2] that names its company, and one that
    carries the thread id alone. *)
Definition reply_T2 : value :=
  reply_of [("company_id", VStr "acme"); ("thread_id", VStr "T2");
            ("assistant_response", VObj [("answer", VStr "hi")])].

Definition reply_T2_bare : value :=
  reply_of [("thread_id", VStr "T2");
            ("assistant_response", VObj [("answer", VStr "hi")])].

Definition pending_T1 : Pending :=
  {| p_text := "hello"; p_prevThreadId := Some "T1"; p_sentAt := 1000;
     p_userMsg := {| id := "m1"; role := user; text := "hello"; createdAt := 1000;
                     answerItems := None; trace := None |} |}.

Definition result_T2 : send_result :=
  {| answerText := "hi"; Client.answerItems := [text_item "hi"]; raw := reply_T2;
     status := 200; ok := true;
     request := (buildMessagesUrl settings_example,
                 buildPayload settings_example "hello");
     rawText := JsonText.stringify reply_T2; timingMs := 1 |}.

Lemma C4_thread_switch_witness :
  (forall ms,
      messages (fst (onSend_end (platform_of 200 "") settings_example pending_T1
                                (Normal result_T2) (setMessages (fun _ => ms) state_T1) 2))
      = messages (fst (onSend_end (platform_of 200 "") settings_example pending_T1
                                  (Normal result_T2) state_T1 2))) /\
  map text (messages (fst (onSend_end (platform_of 200 "") settings_example pending_T1
                                      (Normal result_T2) state_T1 2)))
  = ["Thread: T2"; "hello"; "hi"].
Proof.
  pose proof (C4_thread_switch (platform_of 200 "") settings_example pending_T1 result_T2
                state_T1 2
                {| assistantId := None; customerId := None; companyId := Some "acme";
                   threadId := Some "T2"; platform := None; assistantExternalId := None;
                   threadAssistantExternalId := None |}
                "T2" "T1") as H.
  assert (H1 : p_prevThreadId pending_T1 = Some "T1") by reflexivity.
  assert (H2 : extractConversationContextFromResponseJson (raw result_T2)
               = Some {| assistantId := None; customerId := None;
                         companyId := Some "acme"; threadId := Some "T2";
                         platform := None; assistantExternalId := None;
                         threadAssistantExternalId := None |})
    by (vm_compute; reflexivity).
  assert (H3 : Str.trim "T2" <> "") by (vm_compute; discriminate).
  assert (H4 : Str.trim "T2" <> "T1") by (vm_compute; discriminate).
  destruct (H H1 H2 eq_refl H3 H4) as [_ [E _]].
  split; [exact E|vm_compute; reflexivity].
Defined.

(** The same conversation from the click on, the server answering
    with the text of [reply_T2]. *)
Example thread_switch_run :
  let s' := fst (onSend (platform_of 200 (or_empty (JsonText.stringify reply_T2)))
                        settings_example state_T1 0) in
  map text (messages s') = ["Thread: T2"; "hello"; "hi"] /\
  getThreadIdFromLocation (location s') = Some "T2" /\
  loadedThreadId s' = Some "T2" /\
  fst (syncFromUrl (platform_of 200 "") s' 8) = s'.
Proof. vm_compute. repeat split. Qed.

(** C4 as stated fails for a reply that carries its thread id and
    none of the ids by which the client recognises a context: the page
    tracks [T1], the reply says [thread_id: 'T2'], and the answer is
    added to the list as it was, without a banner. *)
Lemma C4_bare_thread_id_counterexample :
  let P := platform_of 200 (or_empty (JsonText.stringify reply_T2_bare)) in
  let s' := fst (onSend P settings_example state_T1 0) in
  getThreadIdFromLocation (location state_T1) = Some "T1" /\
  JsonText.parse (or_empty (JsonText.stringify reply_T2_bare)) = Some reply_T2_bare /\
  opt_member (opt_member reply_T2_bare "data") "thread_id" = VStr "T2" /\
  map role (messages s') = [assistant; user; assistant] /\
  map text (messages s') = ["an earlier answer"; "hello"; "hi"] /\
  In old_message (messages s') /\
  getThreadIdFromLocation (location s') = Some "T1".
Proof. vm_compute. repeat split. now left. Qed.

(** ** Failed sends *)

(** What [sendMessage] reads the reply from. *)
Definition reply_data (st : Z) (body : option string) : value :=
  match body with
  | Some text =>
      match JsonText.parse text with
      | Some d => d
      | None => invalid_reply st
      end
  | None => invalid_reply st
  end.

Definition unreadable (body : option string) : Prop :=
  match body with
  | Some text => JsonText.parse text = None
  | None => True
  end.

(** For every reply but [null]: [sendMessage] rejects exactly on a
    status outside 200..299, a body that is not JSON, or
    [success === false], and its error carries the request and the
    reply. *)
Lemma sendMessage_rejects (fetch : string -> option string -> fetch_outcome)
      (t0 t1 : Z) (settings : ChatSettings) (message : string)
      (st : Z) (body : option string) :
  fetch (buildMessagesUrl settings)
        (JsonText.stringify (VObj (buildPayload settings message)))
  = Response st body ->
  nullish (reply_data st body) = false ->
  ((exists e, sendMessage fetch t0 t1 settings message = Throw e) <->
   (resp_ok st = false \/ unreadable body \/
    opt_member (reply_data st body) "success" = VBool false)) /\
  (forall e,
      sendMessage fetch t0 t1 settings message = Throw e ->
      attached e = Some {| a_response := reply_data st body;
                           a_status := st;
                           a_rawText := body;
                           a_request := (buildMessagesUrl settings,
                                         buildPayload settings message);
                           a_timingMs := Z.max 0 (t1 - t0) |}).
Proof.
  intros Hf Hnn. unfold sendMessage. rewrite Hf.
  assert (Hd : (let '(data, rawText) :=
                  match body with
                  | Some text =>
                      match JsonText.parse text with
                      | Some d => (d, Some text)
                      | None => (invalid_reply st, Some text)
                      end
                  | None => (invalid_reply st, None)
                  end in (data, rawText)) = (reply_data st body, body)).
  { unfold reply_data. destruct body as [text|]; [|reflexivity].
    now destruct (JsonText.parse text). }
  destruct (match body with
            | Some text => _
            | None => _
            end) as [data rawText].
  injection Hd as -> ->.
  set (data := reply_data st body) in *.
  destruct (ClientSpec.member_normal data "success" Hnn) as [sv Hs].
  destruct (ClientSpec.member_normal data "error" Hnn) as [ev He].
  destruct (ClientSpec.member_normal data "data" Hnn) as [dv Hdv].
  assert (Hos : opt_member data "success" = sv) by (unfold opt_member; now rewrite Hs).
  assert (Hun : unreadable body -> sv = VBool false).
  { intros U. rewrite <- Hos. unfold data, reply_data.
    destruct body as [text|]; [|reflexivity]. simpl in U. now rewrite U. }
  rewrite Hs, He. unfold extractDisparoItems, extractAssistantAnswerText.
  rewrite Hdv. cbn [bind].
  destruct (resp_ok st) eqn:Hok; cbn [negb bind].
  - destruct (is_false sv) eqn:Hfalse.
    + split; [|now intros e [= <-]].
      split; [intros _|eauto]. right; right. rewrite Hos.
      destruct sv as [| |[|]| | | |]; try discriminate. reflexivity.
    + split.
      * split.
        -- intros [e H]. exfalso. revert H.
           destruct (toAnswerItems _); cbn [bind];
             destruct (Str.truthy _); cbn [bind]; try discriminate;
             destruct (opt_member (opt_member dv "assistant_response") "answer");
             discriminate.
        -- intros [H|[H|H]]; [congruence| |].
           ++ apply Hun in H. rewrite H in Hfalse. discriminate Hfalse.
           ++ rewrite Hos in H. rewrite H in Hfalse. discriminate Hfalse.
      * intros e H. exfalso. revert H.
        destruct (toAnswerItems _); cbn [bind];
          destruct (Str.truthy _); cbn [bind]; try discriminate;
          destruct (opt_member (opt_member dv "assistant_response") "answer");
          discriminate.
  - split; [|now intros e [= <-]].
    split; [intros _; now left|eauto].
Qed.

(** The [catch] block shows the error and adds a message that carries
    what the error carries. *)
Lemma onSend_rejected_trace (P : Platform) (settings : ChatSettings) (p : Pending)
      (e : js_error) (a : attachment) (s : State) (n : nat) :
  attached e = Some a ->
  fst (a_request a) <> "" ->
  nullish (a_response a) = false ->
  let s' := fst (onSend_end P settings p (Throw e) s n) in
  error s' = Some (message e) /\
  loading s' = false /\
  exists m,
    messages s' = (messages s ++ [m])%list /\
    role m = assistant /\
    text m = "Erro ao chamar o backend: " ++ message e /\
    trace m = Some {| tr_url := fst (a_request a);
                      tr_payload := snd (a_request a);
                      tr_status := a_status a;
                      tr_ok := false;
                      tr_json := a_response a;
                      tr_rawText := a_rawText a;
                      tr_timingMs := (now_at P n - p_sentAt p)%Z |}.
Proof.
  intros Ha Hu Hr s'. unfold s', onSend_end, onSend_rejected, bindM.
  cbn [Date_now uuid ret fst]. rewrite Ha.
  apply truthy_true in Hu. unfold first_truthy. rewrite Hu, Hr.
  cbn. repeat split. eexists. repeat split.
Qed.

(** C5, on a reply whose body is [null]. The body is JSON and the
    status may be 200, yet [sendMessage] rejects, with a [TypeError]
    raised by [data.success] (by [data.error] on a status outside
    200..299) that carries neither request nor reply; the message that
    [onSend] adds then shows an unknown url, status 0 and no reply, not
    the request that was made and the reply that came. *)
Theorem C5_null_body (settings : ChatSettings) (message : string) (t0 t1 : Z) :
  JsonText.parse "null" = Some VNull /\
  resp_ok 200 = true /\
  sendMessage (fun _ _ => Response 200 (Some "null")) t0 t1 settings message
  = Throw (TypeError "Cannot read properties of null (reading 'success')") /\
  sendMessage (fun _ _ => Response 500 (Some "null")) t0 t1 settings message
  = Throw (TypeError "Cannot read properties of null (reading 'error')") /\
  (forall (P : Platform) (p : Pending) (s : State) (n : nat) (msg : string),
      let s' := fst (onSend_end P settings p (Throw (TypeError msg)) s n) in
      error s' = Some msg /\
      exists m,
        messages s' = (messages s ++ [m])%list /\
        option_map tr_url (trace m) = Some "(desconhecido)" /\
        option_map tr_status (trace m) = Some 0%Z /\
        option_map tr_json (trace m) = Some VNull /\
        option_map tr_rawText (trace m) = Some None /\
        option_map tr_payload (trace m)
        = Some [("message", VStr (p_text p));
                ("customer_phone", VStr (customerPhone settings))]).
Proof.
  split; [reflexivity|]. split; [reflexivity|].
  split; [reflexivity|]. split; [reflexivity|].
  intros P p s n msg. cbn. split; [reflexivity|].
  eexists. repeat split.
Qed.

(** The run of [onSend] against a server that answers [200 null], with
    a customer name in the settings: the trace shows neither the url nor
    the name that were sent. *)
Example null_body_run :
  let settings := {| Client.companyId := "acme"; customerPhone := "5511999999999";
                     customerName := Some "Victor"; apiBaseUrl := None |} in
  let s' := fst (onSend (platform_of 200 "null") settings state_T1 0) in
  error s' = Some "Cannot read properties of null (reading 'success')" /\
  map (fun m => option_map tr_url (trace m)) (messages s')
  = [None; None; Some "(desconhecido)"] /\
  map (fun m => option_map tr_status (trace m)) (messages s') = [None; None; Some 0%Z] /\
  buildPayload settings "hello"
  = [("message", VStr "hello"); ("customer_phone", VStr "5511999999999");
     ("customer_name", VStr "Victor")] /\
  map (fun m => option_map tr_payload (trace m)) (messages s')
  = [None; None; Some [("message", VStr "hello");
                       ("customer_phone", VStr "5511999999999")]].
Proof. vm_compute. repeat split. Qed.

End ChatSpec.

(* ================================================================== *)
(** * The functions at work *)

Module Runs.
Import Json JsonText Client ChatView.

(** The text of [[{ type: 'text', message: 'hi' }, 'there']]. *)
Definition segments_text : string :=
  or_empty (stringify (VArr [text_item "hi"; VStr "there"])).

Example parse_segments_text :
  parse segments_text = Some (VArr [text_item "hi"; VStr "there"]).
Proof. vm_compute. reflexivity. Qed.

Example parse_rejects :
  map parse ["[1,]"; "{'a':1}"; "01"; "tru"; ""; "1 2"]
  = [None; None; None; None; None; None].
Proof. vm_compute. reflexivity. Qed.

Example parse_scalars :
  map parse [" null "; "true"; "-12.50e1"]
  = [Some VNull; Some (VBool true);
     Some (VNum {| mantissa := -1250; exponent := -1 |})].
Proof. vm_compute. reflexivity. Qed.

(** A text that holds serialized segments is shown as these segments;
    any other text is shown as it is. *)
Example reparse_nested :
  tryParseDisparoItemsFromText segments_text = Some [text_item "hi"; text_item "there"] /\
  MessageContent SimpleUrl.api 2 None None [text_item segments_text]
  = [NGroup [NText "hi"; NText "there"]] /\
  MessageContent SimpleUrl.api 2 None None [text_item "{ not json"]
  = [NText "{ not json"].
Proof. vm_compute. repeat split. Qed.

Example url_of_settings :
  buildMessagesUrl {| companyId := "a b/c"; customerPhone := "5511999999999";
                      customerName := None; apiBaseUrl := Some " http://localhost:8000// " |}
  = "http://localhost:8000/v1/messages/simple/a%20b%2Fc".
Proof. vm_compute. reflexivity. Qed.

End Runs.

(* ================================================================== *)
(** * More about [src/api/client.ts] *)

Module ClientFacts.
Import Json Client StrFacts.

(** A non-null object: what the chat view takes for a segment. *)
Definition is_segment (it : value) : bool := truthy it && typeof_object it.

(** A code unit of an encoded URI component. *)
Definition component_unit (c : ascii) : bool :=
  Str.uri_unreserved c || Ascii.eqb c "%".

Definition ends_with (c : ascii) (s : string) : bool :=
  match last_unit s with
  | Some d => Ascii.eqb d c
  | None => false
  end.

Lemma hex_digit_unreserved (k : nat) :
  k < 16 -> Str.uri_unreserved (Str.hex_digit k) = true.
Proof.
  intros H. do 16 (destruct k as [|k]; [reflexivity|]). lia.
Qed.

Lemma percent_byte_units (n : nat) :
  n < 256 -> Str.all_chars component_unit (Str.percent_byte n) = true.
Proof.
  intros H. unfold Str.percent_byte. cbn [Str.all_chars]. unfold component_unit at 2 3.
  rewrite !hex_digit_unreserved.
  - reflexivity.
  - apply Nat.mod_upper_bound. lia.
  - apply Nat.Div0.div_lt_upper_bound. lia.
Qed.

Lemma percent_encode_units (c : ascii) :
  Str.all_chars component_unit (Str.percent_encode_unit c) = true.
Proof.
  unfold Str.percent_encode_unit.
  pose proof (nat_ascii_bounded c) as B.
  destruct (nat_of_ascii c <? 128) eqn:E.
  - apply percent_byte_units. lia.
  - rewrite all_chars_app, !percent_byte_units; [reflexivity| |].
    + pose proof (Nat.mod_upper_bound (nat_of_ascii c) 64). lia.
    + assert (nat_of_ascii c / 64 < 4) by (apply Nat.Div0.div_lt_upper_bound; lia). lia.
Qed.

(** [encodeURIComponent] leaves no delimiter of a URL in its result. *)
Lemma encodeURIComponent_units (s : string) :
  Str.all_chars component_unit (Str.encodeURIComponent s) = true.
Proof.
  induction s as [|c r IH]; [reflexivity|].
  cbn [Str.encodeURIComponent]. rewrite all_chars_app, IH, andb_true_r.
  destruct (Str.uri_unreserved c) eqn:E.
  - unfold Str.char. cbn [Str.all_chars]. unfold component_unit. now rewrite E.
  - apply percent_encode_units.
Qed.

Lemma strip_trailing_last (c : ascii) (s : string) :
  ends_with c (Str.strip_trailing c s) = false.
Proof.
  unfold ends_with.
  induction s as [|d r IH]; [reflexivity|].
  cbn [Str.strip_trailing].
  destruct (Str.strip_trailing c r) as [|e r'] eqn:E.
  - cbn [Str.is_empty]. rewrite andb_true_r.
    destruct (Ascii.eqb d c) eqn:D; [reflexivity|]. cbn [last_unit]. exact D.
  - cbn [Str.is_empty]. rewrite andb_false_r. exact IH.
Qed.

Lemma strip_trailing_no_lead (c : ascii) (s : string) :
  no_lead s = true -> no_lead (Str.strip_trailing c s) = true.
Proof.
  destruct s as [|d r]; [reflexivity|]. cbn [Str.strip_trailing no_lead].
  intros H. destruct (_ && _); [reflexivity|exact H].
Qed.

Lemma toAnswerItems_segments (raw : value) :
  Forall (fun it => is_segment it = true) (toAnswerItems raw).
Proof.
  destruct raw as [| |b|n|s|xs|fs]; cbn [toAnswerItems].
  - constructor.
  - constructor.
  - cbn. rewrite andb_false_r. constructor.
  - cbn. rewrite andb_false_r. constructor.
  - destruct (Str.truthy (Str.trim s)); repeat constructor.
  - induction xs as [|x r IH]; [constructor|].
    cbn [flat_map]. apply Forall_app. split; [|exact IH].
    destruct x as [| |b|n|s|ys|gs]; cbn; rewrite ?andb_false_r; repeat constructor.
  - repeat constructor.
Qed.

(** X1. The segments read from a reply are non-null objects: a string
    has been wrapped as a text segment, and numbers, booleans and nulls
    have been dropped. The reader fails only on a reply that is [null]
    or [undefined]. *)
Theorem answer_items_are_objects (reply : value) :
  match extractDisparoItems reply with
  | Normal items =>
      nullish reply = false /\ Forall (fun it => is_segment it = true) items
  | Throw _ => nullish reply = true
  end.
Proof.
  unfold extractDisparoItems.
  destruct reply as [| |b|n|s|xs|fs]; cbn [member bind nullish]; try reflexivity;
    (destruct (toAnswerItems (opt_member (opt_member _ "disparo") "answer")) eqn:E;
     [split; [reflexivity|apply toAnswerItems_segments]
     |split; [reflexivity|rewrite <- E; apply toAnswerItems_segments]]).
Qed.

(** X2. The address of the request: the base never ends with a slash,
    so that no double slash stands before [v1], and the company id is
    one path segment, whatever it holds: its encoding has no [/], [?],
    [#] or [&], only unreserved characters and percent escapes. *)
Theorem messages_url_shape (settings : ChatSettings) :
  let base := normalizeBaseUrl (apiBaseUrl settings) in
  let segment := Str.encodeURIComponent (companyId settings) in
  buildMessagesUrl settings = base ++ "/v1/messages/simple/" ++ segment /\
  ends_with "/" base = false /\
  no_lead base = true /\
  Str.all_chars component_unit segment = true /\
  Str.all_chars (fun c => negb (Ascii.eqb c "/") && negb (Ascii.eqb c "?")
                          && negb (Ascii.eqb c "#") && negb (Ascii.eqb c "&"))
                segment = true.
Proof.
  intros base segment. split; [reflexivity|]. split; [|split; [|split]].
  - unfold base, normalizeBaseUrl. destruct (Str.is_empty _); [reflexivity|].
    apply strip_trailing_last.
  - unfold base, normalizeBaseUrl. destruct (Str.is_empty _); [reflexivity|].
    apply strip_trailing_no_lead, trim_no_lead.
  - apply encodeURIComponent_units.
  - pose proof (encodeURIComponent_units (companyId settings)) as H.
    fold segment in H. revert H. generalize segment. clear.
    induction segment as [|c r IH]; [reflexivity|].
    cbn [Str.all_chars]. intros H. apply andb_true_iff in H. destruct H as [Hc Hr].
    rewrite (IH Hr), andb_true_r.
    unfold component_unit in Hc. apply orb_true_iff in Hc. destruct Hc as [Hc|Hc].
    + destruct (Ascii.eqb_spec c "/") as [->|_]; [discriminate Hc|].
      destruct (Ascii.eqb_spec c "?") as [->|_]; [discriminate Hc|].
      destruct (Ascii.eqb_spec c "#") as [->|_]; [discriminate Hc|].
      destruct (Ascii.eqb_spec c "&") as [->|_]; [discriminate Hc|]. reflexivity.
    + apply Ascii.eqb_eq in Hc. now subst c.
Qed.

Definition text_of (it : value) : string :=
  if truthy it && typeof_object it && is_text_item it then
    match opt_member it "message" with
    | VStr m => m
    | _ => ""
    end
  else "".

Lemma texts_of_text_items (items : list value) :
  filter Str.truthy (map text_of items)
  = filter Str.truthy (map text_of (filter is_text_item items)).
Proof.
  induction items as [|it r IH]; [reflexivity|].
  cbn [map filter]. destruct (is_text_item it) eqn:E.
  - cbn [map filter]. now rewrite IH.
  - unfold text_of at 1. rewrite E, andb_false_r. cbn. exact IH.
Qed.

(** X3. Only the text segments count for the answer text: a call to
    action or any other segment adds nothing to it, and neither does a
    text segment whose message is empty or not a string. For segments
    made from strings the text is the non-empty strings joined by blank
    lines, trimmed. *)
Theorem itemsToText_text_only (items : list value) (ss : list string) :
  itemsToText items = itemsToText (filter is_text_item items) /\
  itemsToText (map text_item ss)
  = Str.trim (Str.join blank_line (filter Str.truthy ss)).
Proof.
  split.
  - unfold itemsToText. fold text_of.
    change (map (fun it => text_of it)) with (map text_of).
    now rewrite texts_of_text_items.
  - unfold itemsToText. rewrite map_map. cbn. now rewrite map_id.
Qed.

(** X4. What a call of [sendMessage] that returns has seen: the one
    request went to the messages address with the payload as body, the
    status was in 200..299, the body was JSON text whose value is kept
    as [raw] beside the text itself, its [success] was not [false], the
    segments are those of [raw], and the answer text is the text of the
    segments or, when that is empty, the assistant's answer. *)
Theorem sendMessage_resolved
        (fetch : string -> option string -> fetch_outcome) (t0 t1 : Z)
        (settings : ChatSettings) (message : string) (res : send_result) :
  sendMessage fetch t0 t1 settings message = Normal res ->
  exists text,
    fetch (buildMessagesUrl settings)
          (JsonText.stringify (VObj (buildPayload settings message)))
    = Response (status res) (Some text) /\
    resp_ok (status res) = true /\
    ok res = true /\
    JsonText.parse text = Some (raw res) /\
    rawText res = Some text /\
    is_false (opt_member (raw res) "success") = false /\
    extractDisparoItems (raw res) = Normal (answerItems res) /\
    request res = (buildMessagesUrl settings, buildPayload settings message) /\
    (0 <= timingMs res)%Z /\
    (answerText res = itemsToText (answerItems res)
     \/ itemsToText (answerItems res) = ""
        /\ exists a, extractAssistantAnswerText (raw res) = Normal a
                     /\ answerText res = or_empty a).
Proof.
  unfold sendMessage.
  destruct (fetch _ _) as [e|st body]; [discriminate|].
  destruct (resp_ok st) eqn:Hok; cbn [negb bind].
  2:{ destruct body as [text|]; [destruct (JsonText.parse text)|];
        (destruct (member _ "error"); cbn [bind]; discriminate). }
  assert (Hinv : forall (rt : option string) (r : completion send_result),
             bind (bind (member (invalid_reply st) "success")
                        (fun s => Normal (is_false s)))
                  (fun failed : bool =>
                     if failed then
                       bind (member (invalid_reply st) "error") (fun er =>
                         Throw {| message := ToString (if truthy er then er
                                                       else VStr ("Erro HTTP " ++ Str.of_Z st));
                                  attached := Some {| a_response := invalid_reply st;
                                                      a_status := st;
                                                      a_rawText := rt;
                                                      a_request := (buildMessagesUrl settings,
                                                                    buildPayload settings message);
                                                      a_timingMs := Z.max 0 (t1 - t0) |} |})
                     else r) = Normal res -> False).
  { intros rt r. cbn. discriminate. }
  destruct body as [text|]; [|intros H; exfalso; exact (Hinv None _ H)].
  destruct (JsonText.parse text) as [data|] eqn:Hp;
    [|intros H; exfalso; exact (Hinv (Some text) _ H)].
  destruct (member data "success") as [sv|e] eqn:Hs; cbn [bind]; [|discriminate].
  destruct (is_false sv) eqn:Hf.
  { destruct (member data "error"); cbn [bind]; discriminate. }
  destruct (extractDisparoItems data) as [items|e] eqn:Hi; cbn [bind]; [|discriminate].
  assert (Hsucc : is_false (opt_member data "success") = false)
    by (unfold opt_member; now rewrite Hs).
  destruct (Str.truthy (itemsToText items)) eqn:Ht; cbn [bind].
  - intros [= <-]. exists text. cbn.
    repeat (split; [first [reflexivity|assumption|lia]|]). now left.
  - destruct (extractAssistantAnswerText data) as [a|e] eqn:Ha; cbn [bind]; [|discriminate].
    intros [= <-]. exists text. cbn.
    repeat (split; [first [reflexivity|assumption|lia]|]).
    right. split; [now apply truthy_false|]. exists a. now split.
Qed.

(** A server that answers with the reply of thread [T2]. *)
Lemma sendMessage_resolved_witness :
  exists text,
    JsonText.parse text = Some ChatSpec.reply_T2 /\
    rawText ChatSpec.result_T2 = Some text /\
    extractDisparoItems ChatSpec.reply_T2 = Normal [text_item "hi"].
Proof.
  destruct (sendMessage_resolved
              (fun _ _ => Response 200 (JsonText.stringify ChatSpec.reply_T2)) 0 1
              ChatSpec.settings_example "hello" ChatSpec.result_T2)
    as [text H].
  - vm_compute. reflexivity.
  - exists text. cbn in H. tauto.
Defined.

End ClientFacts.

(* ================================================================== *)
(** * The request of [sendMessage] *)

Module RequestSpec.
Import Json Client StrFacts ClientSpec ClientFacts.

(** What [replace(/\/+$/, '')] takes away is a run of slashes. *)
Lemma strip_trailing_run (c : ascii) (s : string) :
  exists run,
    s = Str.strip_trailing c s ++ run /\
    Str.all_chars (fun d => Ascii.eqb d c) run = true.
Proof.
  induction s as [|d r [run [E A]]]; [now exists ""|].
  cbn [Str.strip_trailing].
  destruct (Ascii.eqb d c) eqn:D; cbn [andb].
  - destruct (Str.strip_trailing c r) as [|e r'] eqn:S; cbn [Str.is_empty].
    + exists (String d run). split; [now rewrite E at 1|].
      cbn [Str.all_chars]. now rewrite D, A.
    + exists run. split; [now rewrite E at 1|exact A].
  - exists run. split; [now rewrite E at 1|exact A].
Qed.

Lemma normalizeBaseUrl_strip (b : option string) :
  normalizeBaseUrl b = Str.strip_trailing "/" (Str.trim (or_empty b)).
Proof.
  unfold normalizeBaseUrl. now destruct (Str.trim (or_empty b)).
Qed.

(** C8. [sendMessage] makes one request, and its outcome is the
    outcome of that request. The address is the base address (the saved
    one without the white space around it and without the slashes that
    end it), then [/v1/messages/simple/], then the company id encoded as
    a URI component. The body is the JSON text of
    [{ message, customer_phone }], with [customer_name] (trimmed) added
    last exactly when [customerName] is present and not white space
    only. A rejection of that request is the rejection of
    [sendMessage]; what the network would answer to any other request
    does not matter; and when the request is answered, its address, its
    payload and the status of the answer are reported back, with the
    result or with the error. *)
Theorem C8_request (settings : ChatSettings) (message : string) :
  exists base slashes : string,
    Str.trim (or_empty (apiBaseUrl settings)) = base ++ slashes /\
    Str.all_chars (fun c => Ascii.eqb c "/") slashes = true /\
    ends_with "/" base = false /\
    let url := base ++ "/v1/messages/simple/"
               ++ Str.encodeURIComponent (Client.companyId settings) in
    let payload :=
      match sent_name settings with
      | None => [("message", VStr message);
                 ("customer_phone", VStr (customerPhone settings))]
      | Some n => [("message", VStr message);
                   ("customer_phone", VStr (customerPhone settings));
                   ("customer_name", VStr n)]
      end in
    let body := body_text settings message in
    JsonText.stringify (VObj payload) = Some body /\
    (forall fetch t0 t1 e,
        fetch url (Some body) = NetworkError e ->
        sendMessage fetch t0 t1 settings message = Throw e) /\
    (forall fetch fetch' t0 t1,
        fetch url (Some body) = fetch' url (Some body) ->
        sendMessage fetch t0 t1 settings message
        = sendMessage fetch' t0 t1 settings message) /\
    (forall fetch t0 t1 st answer,
        fetch url (Some body) = Response st answer ->
        match sendMessage fetch t0 t1 settings message with
        | Normal res => request res = (url, payload) /\ status res = st
        | Throw e =>
            forall a, attached e = Some a ->
                      a_request a = (url, payload) /\ a_status a = st
        end).
Proof.
  destruct (strip_trailing_run "/" (Str.trim (or_empty (apiBaseUrl settings))))
    as [run [E A]].
  exists (Str.strip_trailing "/" (Str.trim (or_empty (apiBaseUrl settings)))), run.
  split; [exact E|]. split; [exact A|]. split; [apply strip_trailing_last|].
  intros url payload body.
  assert (Hu : buildMessagesUrl settings = url).
  { unfold buildMessagesUrl. now rewrite normalizeBaseUrl_strip. }
  assert (Hp : buildPayload settings message = payload).
  { rewrite buildPayload_cases. unfold payload, base_payload.
    now destruct (sent_name settings). }
  assert (Hs : JsonText.stringify (VObj payload) = Some body).
  { rewrite <- Hp. apply stringify_payload. }
  split; [exact Hs|]. split; [|split].
  - intros fetch t0 t1 e H. unfold sendMessage. now rewrite Hu, Hp, Hs, H.
  - intros fetch fetch' t0 t1 H. unfold sendMessage. now rewrite Hu, Hp, Hs, H.
  - intros fetch t0 t1 st answer H. unfold sendMessage. rewrite Hu, Hp, Hs, H.
    destruct (match answer with
              | Some text => _
              | None => _
              end) as [data rawText].
    destruct (if negb (resp_ok st) then _ else _) as [[|]|e'] eqn:Hfail;
      cbn [bind].
    + destruct (member data "error") as [er|e'] eqn:Her; cbn [bind].
      * intros a [= <-]. split; reflexivity.
      * intros a Ha. apply member_throw in Her. congruence.
    + destruct (extractDisparoItems data) as [items|e'] eqn:Hi; cbn [bind].
      * destruct (Str.truthy (itemsToText items)); cbn [bind];
          [split; reflexivity|].
        destruct (extractAssistantAnswerText data) as [t|e''] eqn:Ht; cbn [bind];
          [split; reflexivity|].
        intros a Ha. apply extractAssistantAnswerText_throw in Ht. congruence.
      * intros a Ha. apply extractDisparoItems_throw in Hi. congruence.
    + intros a Ha.
      destruct (negb (resp_ok st)); [discriminate|].
      destruct (member data "success") as [x|e''] eqn:Hm; cbn [bind] in Hfail;
        [discriminate|].
      injection Hfail as <-. apply member_throw in Hm. congruence.
Qed.

End RequestSpec.

(* ================================================================== *)
(** * The settings across sessions: [src/App.tsx] over [src/utils/storage.ts] *)

Module AppSpec.
Import Json Client Storage App.

Lemma getItem_removeItem_other (k k' : string) (st : localStorage) :
  k <> k' -> getItem k (removeItem k' st) = getItem k st.
Proof.
  intros N. induction st as [|[j v] r IH]; [reflexivity|].
  cbn [removeItem getItem].
  destruct (String.eqb_spec k' j) as [->|Nj].
  - rewrite IH. destruct (String.eqb_spec k j) as [->|_]; [congruence|reflexivity].
  - cbn [getItem]. now rewrite IH.
Qed.

Lemma loadSettings_saveSettings (s : ChatSettings) (st : localStorage) :
  loadSettings (saveSettings (settings_value s) st) = Some (StorageSpec.settings_loaded s).
Proof.
  unfold loadSettings, saveSettings.
  rewrite StorageSpec.stringify_settings, StorageSpec.getItem_setItem.
  unfold StorageSpec.settings_text at 1. cbn [Str.is_empty].
  apply StorageSpec.parse_settings.
Qed.

Lemma as_settings_loaded (s : ChatSettings) :
  as_settings (StorageSpec.settings_loaded s) = Some s.
Proof. destruct s as [c p [n|] [b|]]; reflexivity. Qed.

(** X5. The page resumes where it was left. After the form has handed
    over its settings the chat is shown with them, and a page loaded
    from the storage left behind shows the chat again with settings
    that read the same. After a reset the form is shown, first filled in
    from what the page found when it was loaded (not from the settings
    of a start made since), and a page loaded afterwards shows the empty
    form. *)
Theorem page_resumes (s : ChatSettings) (a : AppState) :
  render (onStart s a) = ShowChat (settings_value s) /\
  (exists v, render (mount (storage (onStart s a))) = ShowChat v
             /\ as_settings v = Some s) /\
  render (onReset a) = ShowOnboarding (saved a) /\
  render (onReset (onStart s a)) = ShowOnboarding (saved a) /\
  render (mount (storage (onReset a))) = ShowOnboarding None.
Proof.
  split; [reflexivity|]. split; [|split; [reflexivity|split; [reflexivity|]]].
  - exists (StorageSpec.settings_loaded s). split; [|apply as_settings_loaded].
    unfold render, mount, onStart. cbn [settings saved storage].
    rewrite loadSettings_saveSettings.
    destruct s as [c p [n|] [b|]]; reflexivity.
  - unfold render, mount, onReset. cbn [settings saved storage].
    unfold loadSettings, clearSettings. now rewrite StorageSpec.getItem_removeItem.
Qed.

(** X6. Saving and clearing the settings touch one key of the storage:
    what the page keeps under any other key reads as before. *)
Theorem other_keys_kept (k : string) (v : value) (st : localStorage) :
  k <> KEY ->
  getItem k (saveSettings v st) = getItem k st /\
  getItem k (clearSettings st) = getItem k st.
Proof.
  intros N. split.
  - unfold saveSettings, setItem.
    destruct (JsonText.stringify v); cbn [getItem];
      (destruct (String.eqb_spec k KEY) as [E|_]; [congruence|]);
      now apply getItem_removeItem_other.
  - now apply getItem_removeItem_other.
Qed.

Lemma other_keys_kept_witness :
  getItem "theme" (saveSettings (settings_value ChatSpec.settings_example)
                                [("theme", "dark")]) = Some "dark" /\
  getItem "theme" (clearSettings [("theme", "dark"); (KEY, "{}")]) = Some "dark".
Proof.
  split.
  - apply (other_keys_kept "theme" (settings_value ChatSpec.settings_example)
                           [("theme", "dark")]). discriminate.
  - apply (other_keys_kept "theme" VNull [("theme", "dark"); (KEY, "{}")]). discriminate.
Defined.

End AppSpec.

(* ================================================================== *)
(** * The form from its first state to the click:
      [src/components/Onboarding.tsx] *)

Module OnboardingFlowSpec.
Import Json Client Onboarding OnboardingFlow StrFacts.

Lemma keep_digits_fixed (s : string) :
  Str.all_chars Str.is_digit s = true -> Str.keep_digits s = s.
Proof.
  induction s as [|c r IH]; [reflexivity|].
  cbn [Str.all_chars Str.keep_digits]. intros H.
  apply andb_true_iff in H. destruct H as [Hc Hr]. now rewrite Hc, IH.
Qed.

Lemma normalizeDigits_idem (s : string) :
  normalizeDigits (normalizeDigits s) = normalizeDigits s.
Proof. apply keep_digits_fixed, keep_digits_all. Qed.

Lemma encodeURIComponent_digits (s : string) :
  Str.all_chars Str.is_digit s = true -> Str.encodeURIComponent s = s.
Proof.
  induction s as [|c r IH]; [reflexivity|].
  cbn [Str.all_chars Str.encodeURIComponent]. intros H.
  apply andb_true_iff in H. destruct H as [Hc Hr]. rewrite (IH Hr).
  unfold Str.uri_unreserved. rewrite Hc, ?orb_true_r. reflexivity.
Qed.

(** X7. Settings that the form has handed over bring the form back to
    where it was: a form that starts from them (the API choice read
    back from the base address, the fields from the settings) is ready
    to start, and its click hands over the same settings. *)
Theorem saved_settings_restart (f : Form) (s : ChatSettings) :
  start f = Some s ->
  apiEnv (initForm (Some s)) = apiEnv f /\
  canStart (initForm (Some s)) = true /\
  start (initForm (Some s)) = Some s.
Proof.
  intros H.
  assert (F : canStart f = true /\
              companyId s = Str.trim (f_companyId f) /\
              customerPhone s = normalizeDigits (f_customerPhone f) /\
              customerName s = (if Str.truthy (Str.trim (f_customerName f))
                                then Some (Str.trim (f_customerName f)) else None) /\
              apiBaseUrl s = Some (baseUrl_of (apiEnv f))).
  { unfold start in H. destruct (canStart f); [|discriminate].
    destruct (starting f); [discriminate|]. cbn [negb orb] in H.
    injection H as <-. repeat split. }
  destruct F as [C [Fc [Fp [Fn Fb]]]].
  assert (E : initialApi (Some s) = apiEnv f).
  { unfold initialApi. rewrite Fb. destruct (apiEnv f); reflexivity. }
  assert (C' : canStart (initForm (Some s)) = true).
  { unfold canStart in *. cbn [initForm f_companyId f_customerPhone].
    now rewrite Fc, Fp, trim_idem, normalizeDigits_idem. }
  split; [exact E|]. split; [exact C'|].
  unfold start. rewrite C'. cbn [negb orb initForm starting]. f_equal.
  change (f_companyId (initForm (Some s))) with (companyId s).
  change (f_customerPhone (initForm (Some s))) with (customerPhone s).
  change (f_customerName (initForm (Some s))) with (or_empty (customerName s)).
  change (apiEnv (initForm (Some s))) with (initialApi (Some s)).
  rewrite E, <- Fb.
  assert (N : (if Str.truthy (Str.trim (or_empty (customerName s)))
               then Some (Str.trim (or_empty (customerName s))) else None)
              = customerName s).
  { rewrite Fn. destruct (Str.truthy (Str.trim (f_customerName f))) eqn:T; cbn [or_empty].
    - now rewrite trim_idem, T.
    - reflexivity. }
  cbv zeta. rewrite N, Fc, Fp, trim_idem, normalizeDigits_idem, <- Fc, <- Fp.
  destruct s; reflexivity.
Qed.

(** The empty form after PROD was chosen, a company picked, a phone
    number typed with its punctuation and a blank name. *)
Definition form_example : Form :=
  typeName "  "
    (typePhone "+55 11 99999-9999"
       (chooseCompany " acme " (chooseApi PROD (initForm None)))).

Definition settings_of_example : ChatSettings :=
  {| companyId := "acme";
     customerPhone := "5511999999999";
     customerName := None;
     apiBaseUrl := Some "https://api.zibb.com.br" |}.

Lemma saved_settings_restart_witness :
  start form_example = Some settings_of_example /\
  apiEnv (initForm (Some settings_of_example)) = PROD /\
  start (initForm (Some settings_of_example)) = Some settings_of_example.
Proof.
  assert (H : start form_example = Some settings_of_example) by reflexivity.
  destruct (saved_settings_restart form_example settings_of_example H) as [A [_ B]].
  split; [exact H|]. split; [exact A|exact B].
Defined.

(** X8. The address that the click asks for the open thread: the base
    address of the chosen API, the company id as one encoded query
    value, and the phone number as its bare digits, which the encoding
    leaves as they are. *)
Theorem openThreadUrl_shape (f : Form) :
  openThreadUrl f
  = baseUrl_of (apiEnv f) ++ "/v1/threads/open?company_id="
      ++ Str.encodeURIComponent (Str.trim (f_companyId f))
      ++ "&customer_phone=" ++ normalizeDigits (f_customerPhone f) /\
  Str.all_chars ClientFacts.component_unit
                (Str.encodeURIComponent (Str.trim (f_companyId f))) = true /\
  Str.all_chars Str.is_digit (normalizeDigits (f_customerPhone f)) = true.
Proof.
  split; [|split; [apply ClientFacts.encodeURIComponent_units|apply keep_digits_all]].
  unfold openThreadUrl.
  rewrite (encodeURIComponent_digits (normalizeDigits (f_customerPhone f)))
    by apply keep_digits_all.
  destruct (apiEnv f); reflexivity.
Qed.

Lemma location_round_trip (tid : option string) (loc : Chat.Location) :
  match tid with Some t => Str.trim t = t /\ t <> "" | None => True end ->
  Chat.getThreadIdFromLocation (setThreadIdInLocation tid loc) = tid.
Proof.
  destruct tid as [t|]; [|reflexivity]. intros [T N].
  unfold setThreadIdInLocation. rewrite T.
  assert (Ht : Str.truthy t = true) by now apply truthy_true.
  rewrite Ht. cbn [andb]. now apply ChatSpec.getThreadId_of_param.
Qed.

Section Click.
Variable fetch : string -> get_outcome.
Variable parse_error : string -> js_error.
Variable not_a_function : value -> js_error.

Lemma thread_id_of_trimmed (json : value) (t : string) :
  thread_id_of not_a_function json = Normal (Some t) -> Str.trim t = t /\ t <> "".
Proof.
  unfold thread_id_of.
  destruct (if truthy (opt_member json "thread_id") then opt_member json "thread_id"
            else VStr "") as [| |b|n|x|xs|fs]; try discriminate.
  destruct (Str.truthy (Str.trim x)) eqn:T; [|discriminate].
  intros [= <-]. split; [apply trim_idem|now apply truthy_true].
Qed.

Lemma resolveOpenThreadId_trimmed (f : Form) (t : string) :
  resolveOpenThreadId fetch parse_error not_a_function f = Normal (Some t) ->
  Str.trim t = t /\ t <> "".
Proof.
  unfold resolveOpenThreadId.
  destruct (_ || _); [discriminate|].
  destruct (fetch _) as [e|st text]; [discriminate|].
  destruct (negb (resp_ok st)); [discriminate|].
  destruct (Str.is_empty text); [apply thread_id_of_trimmed|].
  destruct (JsonText.parse text); [apply thread_id_of_trimmed|discriminate].
Qed.

(** X9. What the click on the start button leaves behind. The settings
    are handed over whatever the server says, and the legacy parameter
    [threadId] is gone in every case. The answer of the server decides
    the rest. A rejection, or a status outside 200..299, is shown as
    the error of the form (for a status, [HTTP <status>: <body>]) and
    the address carries no thread id. With a status in 200..299: an
    empty body names no thread and is no error; a body that is not JSON
    is shown as the error that [JSON.parse] raises on it; a body whose
    [thread_id] is a string puts that string, without the white space
    around it, in the address as [thread_id], where the chat reads it
    back (no thread when nothing is left of the string); a [thread_id]
    that is falsy names no thread; and any other [thread_id] is shown
    as the error raised by the call of [trim] on it. *)
Theorem start_click (f : Form) (loc : Chat.Location) (r : Started) :
  onStartClick fetch parse_error not_a_function f loc = Some r ->
  start f = Some (st_settings r) /\
  Chat.q_threadId (st_location r) = None /\
  match fetch (openThreadUrl f) with
  | GetError e =>
      st_startError r = Some (message e) /\
      Chat.getThreadIdFromLocation (st_location r) = None
  | GetText st text =>
      if resp_ok st then
        if Str.is_empty text then
          st_startError r = None /\
          Chat.getThreadIdFromLocation (st_location r) = None
        else
          match JsonText.parse text with
          | None =>
              st_startError r = Some (message (parse_error text)) /\
              Chat.getThreadIdFromLocation (st_location r) = None
          | Some json =>
              match opt_member json "thread_id" with
              | VStr x =>
                  st_startError r = None /\
                  Chat.q_thread_id (st_location r)
                  = (if Str.is_empty (Str.trim x) then None else Some (Str.trim x)) /\
                  Chat.getThreadIdFromLocation (st_location r)
                  = (if Str.is_empty (Str.trim x) then None else Some (Str.trim x))
              | v =>
                  if truthy v then
                    st_startError r = Some (message (not_a_function v)) /\
                    Chat.getThreadIdFromLocation (st_location r) = None
                  else
                    st_startError r = None /\
                    Chat.getThreadIdFromLocation (st_location r) = None
              end
          end
      else
        st_startError r = Some ("HTTP " ++ Str.of_Z st ++ ": " ++ text) /\
        Chat.getThreadIdFromLocation (st_location r) = None
  end.
Proof.
  unfold onStartClick. destruct (start f) as [s|] eqn:S; [|discriminate].
  intros [= <-].
  assert (C : canStart f = true).
  { unfold start in S. destruct (canStart f); [reflexivity|discriminate]. }
  apply OnboardingSpec.canStart_iff in C. destruct C as [C1 C2].
  assert (G : Str.is_empty (Str.trim (f_companyId f))
              || Str.is_empty (normalizeDigits (f_customerPhone f)) = false).
  { apply orb_false_iff. split.
    - destruct (Str.trim (f_companyId f)); [congruence|reflexivity].
    - destruct (normalizeDigits (f_customerPhone f)); [cbn in C2; lia|reflexivity]. }
  split; [|split].
  - destruct (resolveOpenThreadId fetch parse_error not_a_function f); reflexivity.
  - destruct (resolveOpenThreadId fetch parse_error not_a_function f); reflexivity.
  - assert (U : resolveOpenThreadId fetch parse_error not_a_function f
                = match fetch (openThreadUrl f) with
                  | GetError e => Throw e
                  | GetText st text =>
                      if negb (resp_ok st)
                      then Throw (Error ("HTTP " ++ Str.of_Z st ++ ": " ++ text))
                      else if Str.is_empty text then thread_id_of not_a_function VNull
                           else match JsonText.parse text with
                                | Some json => thread_id_of not_a_function json
                                | None => Throw (parse_error text)
                                end
                  end).
    { unfold resolveOpenThreadId. now rewrite G. }
    rewrite U. clear U.
    destruct (fetch (openThreadUrl f)) as [e|st text]; [split; reflexivity|].
    destruct (resp_ok st); cbn [negb]; [|split; reflexivity].
    destruct (Str.is_empty text); [split; reflexivity|].
    destruct (JsonText.parse text) as [json|]; [|split; reflexivity].
    unfold thread_id_of.
    destruct (opt_member json "thread_id") as [| |b|k|x|xs|fs];
      try (split; reflexivity).
    + destruct b; split; reflexivity.
    + destruct (truthy (VNum k)); split; reflexivity.
    + assert (E : (if truthy (VStr x) then VStr x else VStr "")
                  = VStr x \/ x = "").
      { destruct x; [now right|now left]. }
      assert (R : match (if truthy (VStr x) then VStr x else VStr "") with
                  | VStr y =>
                      Normal (let tid := Str.trim y in
                              if Str.truthy tid then Some tid else None)
                  | v => Throw (not_a_function v)
                  end
                  = Normal (if Str.is_empty (Str.trim x) then None
                            else Some (Str.trim x))).
      { destruct x as [|c x']; [reflexivity|]. cbn [truthy Str.truthy Str.is_empty negb].
        unfold Str.truthy. now destruct (Str.is_empty (Str.trim (String c x'))). }
      clear E. cbv zeta in R |- *. rewrite R. cbn [st_startError st_location].
      split; [reflexivity|].
      destruct (Str.is_empty (Str.trim x)) eqn:T.
      * split; reflexivity.
      * unfold setThreadIdInLocation.
        assert (T1 : Str.truthy (Str.trim x) = true)
          by (unfold Str.truthy; now rewrite T).
        rewrite trim_idem, T1. cbn [andb Chat.q_thread_id]. split; [reflexivity|].
        apply ChatSpec.getThreadId_of_param; [apply trim_idem|].
        now apply truthy_true.
Qed.

End Click.

Definition thread_reply : string :=
  or_empty (JsonText.stringify (VObj [("thread_id", VStr " T9 ")])).

Lemma start_click_witness :
  let r := {| st_location := {| Chat.q_thread_id := Some "T9"; Chat.q_threadId := None |};
              st_startError := None;
              st_settings := settings_of_example |} in
  onStartClick (fun _ => GetText 200 thread_reply) (fun _ => Error "not JSON")
               (fun _ => Error "not a function") form_example
               {| Chat.q_thread_id := None; Chat.q_threadId := Some "T1" |} = Some r /\
  start form_example = Some (st_settings r) /\
  Chat.getThreadIdFromLocation (st_location r) = Some "T9".
Proof.
  intros r.
  assert (H : onStartClick (fun _ => GetText 200 thread_reply) (fun _ => Error "not JSON")
                           (fun _ => Error "not a function") form_example
                           {| Chat.q_thread_id := None; Chat.q_threadId := Some "T1" |}
              = Some r) by (vm_compute; reflexivity).
  destruct (start_click _ _ _ _ _ _ H) as [A [_ C]].
  split; [exact H|]. split; [exact A|]. reflexivity.
Defined.

End OnboardingFlowSpec.

(* ================================================================== *)
(** * The bold marks of a text: [FormattedText] of [src/components/Chat.tsx] *)

Module ChatTextSpec.
Import ChatText StrFacts.

(** The text that a piece stands for: a bold piece was written
    between two asterisks. *)
Definition piece_text (p : piece) : string :=
  match p with
  | Span s => s
  | Strong s => star ++ s ++ star
  end.

Fixpoint source (ps : list piece) : string :=
  match ps with
  | [] => ""
  | p :: r => piece_text p ++ source r
  end.

Definition no_star (s : string) : bool :=
  Str.all_chars (fun c => negb (Ascii.eqb c "*")) s.

(** A piece as it may be shown: no empty span, no bold piece that is
    blank or holds an asterisk. *)
Definition piece_ok (p : piece) : bool :=
  match p with
  | Span s => Str.truthy s
  | Strong s => Str.truthy (Str.trim s) && no_star s
  end.

Lemma cut_some (s a b : string) :
  cut s = Some (a, b) ->
  s = a ++ star ++ b /\ no_star a = true
  /\ String.length s = String.length a + 1 + String.length b.
Proof.
  revert a b. induction s as [|c r IH]; intros a b; [discriminate|].
  cbn [cut]. destruct (Ascii.eqb_spec c "*") as [->|N].
  - intros [= <- <-]. repeat split.
  - destruct (cut r) as [[a' b']|]; [|discriminate].
    intros [= <- <-]. destruct (IH a' b' eq_refl) as [E [S L]].
    split; [cbn; now rewrite E|]. split.
    + cbn. destruct (Ascii.eqb_spec c "*"); [contradiction|]. exact S.
    + cbn. cbn in L. lia.
Qed.

Lemma source_app (ps qs : list piece) :
  source (ps ++ qs)%list = source ps ++ source qs.
Proof.
  induction ps as [|p r IH]; [reflexivity|].
  cbn [app source]. now rewrite IH, append_assoc.
Qed.

Lemma loop_spec (fuel : nat) :
  forall rest, String.length rest <= fuel ->
    source (FormattedText_loop fuel rest) = rest /\
    forallb piece_ok (FormattedText_loop fuel rest) = true.
Proof.
  induction fuel as [|fuel IH]; intros rest L.
  - destruct rest; [split; reflexivity|cbn in L; lia].
  - cbn [FormattedText_loop].
    destruct rest as [|c r] eqn:R; [split; reflexivity|]. cbn [Str.is_empty].
    rewrite <- R in *. assert (T : Str.truthy rest = true) by now rewrite R.
    destruct (cut rest) as [[before after_start]|] eqn:C1.
    2:{ split; [cbn; apply append_empty_r|cbn; now rewrite T]. }
    destruct (cut after_start) as [[content after_end]|] eqn:C2.
    2:{ split; [cbn; apply append_empty_r|cbn; now rewrite T]. }
    apply cut_some in C1. destruct C1 as [E1 [S1 L1]].
    apply cut_some in C2. destruct C2 as [E2 [S2 L2]].
    assert (L' : String.length after_end <= fuel) by lia.
    destruct (IH after_end L') as [IHs IHo].
    split.
    + rewrite source_app. cbn [source]. rewrite IHs.
      assert (P : piece_text (if String.length (Str.trim content) =? 0
                              then Span (star ++ content ++ star) else Strong content)
                  = star ++ content ++ star)
        by (destruct (_ =? 0); reflexivity).
      rewrite P, E1, E2.
      destruct before; cbn [Str.truthy Str.is_empty negb source];
        rewrite ?append_assoc; reflexivity.
    + rewrite forallb_app. cbn [forallb]. rewrite IHo, andb_true_r.
      apply andb_true_iff. split.
      * destruct (Str.truthy before) eqn:B; cbn; [now rewrite B|reflexivity].
      * destruct (String.length (Str.trim content) =? 0) eqn:Z; cbn [piece_ok].
        -- reflexivity.
        -- apply Nat.eqb_neq in Z. apply andb_true_iff. split; [|exact S2].
           apply truthy_true. intros H. apply Z. now rewrite H.
Qed.

(** The turns of the loop that a text can take are fewer than its code
    units: more fuel changes nothing. *)
Lemma loop_fuel (fuel : nat) :
  forall rest k, String.length rest <= fuel ->
    FormattedText_loop (fuel + k) rest = FormattedText_loop fuel rest.
Proof.
  induction fuel as [|fuel IH]; intros rest k L.
  - destruct rest; [|cbn in L; lia]. destruct k; reflexivity.
  - cbn [Nat.add FormattedText_loop].
    destruct (Str.is_empty rest); [reflexivity|].
    destruct (cut rest) as [[before after_start]|] eqn:C1; [|reflexivity].
    destruct (cut after_start) as [[content after_end]|] eqn:C2; [|reflexivity].
    apply cut_some in C1. destruct C1 as [_ [_ L1]].
    apply cut_some in C2. destruct C2 as [_ [_ L2]].
    rewrite IH by lia. reflexivity.
Qed.

Lemma no_star_cut (s : string) : no_star s = true -> cut s = None.
Proof.
  induction s as [|c r IH]; [reflexivity|].
  cbn [no_star Str.all_chars cut]. intros H. apply andb_true_iff in H.
  destruct H as [Hc Hr]. apply negb_true_iff in Hc. rewrite Hc.
  unfold no_star in IH. now rewrite (IH Hr).
Qed.

Lemma cut_app (a b : string) :
  no_star a = true -> cut (a ++ star ++ b) = Some (a, b).
Proof.
  induction a as [|c r IH]; [reflexivity|].
  cbn [no_star Str.all_chars append cut]. intros H. apply andb_true_iff in H.
  destruct H as [Hc Hr]. apply negb_true_iff in Hc. rewrite Hc.
  unfold no_star in IH. now rewrite (IH Hr).
Qed.

Lemma loop_plain (fuel : nat) (s : string) :
  no_star s = true -> String.length s <= fuel ->
  FormattedText_loop fuel s = if Str.truthy s then [Span s] else [].
Proof.
  intros N L. destruct fuel as [|fuel].
  - destruct s; [reflexivity|cbn in L; lia].
  - cbn [FormattedText_loop]. destruct s as [|c r]; [reflexivity|].
    cbn [Str.is_empty Str.truthy negb]. now rewrite (no_star_cut _ N).
Qed.

Lemma length_append (a b : string) :
  String.length (a ++ b) = String.length a + String.length b.
Proof. induction a as [|c r IH]; cbn; [reflexivity|now rewrite IH]. Qed.

(** X10. [FormattedText] shows the whole text and nothing else: the
    pieces, with every bold piece put back between its two asterisks,
    spell the text; no piece is empty, and a bold piece is never blank
    and holds no asterisk. A text without an asterisk, or with one
    asterisk only, is one plain piece; a text with one pair of
    asterisks around a text that is not blank shows that text in bold
    between what stands before and after the pair. *)
Theorem FormattedText_faithful (text a b c : string) :
  source (FormattedText text) = text /\
  forallb piece_ok (FormattedText text) = true /\
  (no_star text = true ->
   FormattedText text = if Str.truthy text then [Span text] else []) /\
  (no_star a = true -> no_star b = true ->
   FormattedText (a ++ star ++ b) = [Span (a ++ star ++ b)]) /\
  (no_star a = true -> no_star b = true -> no_star c = true ->
   Str.trim c <> "" ->
   FormattedText (a ++ star ++ c ++ star ++ b)
   = ((if Str.truthy a then [Span a] else [])
        ++ Strong c :: (if Str.truthy b then [Span b] else []))%list).
Proof.
  unfold FormattedText.
  destruct (loop_spec (String.length text) text (le_n _)) as [S O].
  split; [exact S|]. split; [exact O|]. split; [|split].
  - intros N. now apply loop_plain.
  - intros Na Nb.
    destruct (String.length (a ++ star ++ b)) as [|fuel] eqn:L.
    { rewrite length_append in L. cbn in L. lia. }
    cbn [FormattedText_loop].
    destruct (a ++ star ++ b) as [|x r] eqn:E.
    { destruct a; discriminate E. }
    cbn [Str.is_empty]. rewrite <- E, (cut_app a b Na), (no_star_cut b Nb). reflexivity.
  - intros Na Nb Nc T.
    destruct (String.length (a ++ star ++ c ++ star ++ b)) as [|fuel] eqn:L.
    { rewrite length_append in L. cbn in L. lia. }
    cbn [FormattedText_loop].
    destruct (a ++ star ++ c ++ star ++ b) as [|x r] eqn:E.
    { destruct a; discriminate E. }
    cbn [Str.is_empty]. rewrite <- E, (cut_app a _ Na), (cut_app c b Nc).
    assert (Z : (String.length (Str.trim c) =? 0) = false).
    { apply Nat.eqb_neq. intros H. apply T. now apply length_zero. }
    rewrite Z. f_equal. f_equal. apply loop_plain; [exact Nb|].
    rewrite <- E in L.
    rewrite !length_append in L. unfold star in L. cbn [String.length] in L. lia.
Qed.

End ChatTextSpec.

(* ================================================================== *)
(** * More about [onSend] and the page URL: [src/components/Chat.tsx] *)

Module ChatFlowSpec.
Import Json Client ChatView Chat StrFacts.

Lemma opt_eqb_eq (a b : option string) : opt_eqb a b = true -> a = b.
Proof.
  destruct a as [x|], b as [y|]; cbn; try discriminate; [|reflexivity].
  intros H. apply String.eqb_eq in H. now subst.
Qed.

Lemma syncFromUrl_location (P : Platform) (s : State) (n : nat) :
  location (fst (syncFromUrl P s n)) = location s.
Proof.
  unfold syncFromUrl. destruct (suppressNextUrlSync s); [reflexivity|].
  destruct (getThreadIdFromLocation (location s)) as [tid|]; [|reflexivity].
  destruct (loadedThreadId s) as [l|]; [|reflexivity].
  destruct (String.eqb l tid); reflexivity.
Qed.

Lemma getThreadId_tracked (tid : string) :
  getThreadIdFromLocation
    {| q_thread_id := if Str.truthy (Str.trim tid) then Some (Str.trim tid) else None;
       q_threadId := None |}
  = if Str.truthy (Str.trim tid) then Some (Str.trim tid) else None.
Proof.
  destruct (Str.truthy (Str.trim tid)) eqn:T; [|reflexivity].
  apply ChatSpec.getThreadId_of_param; [apply trim_idem|now apply truthy_true].
Qed.

(** X11. The page URL after [setThreadIdInLocation(t)]: it carries the
    trimmed [t] as [thread_id], or no [thread_id] when [t] is [null] or
    blank, and never the legacy [threadId]; [getThreadIdFromLocation]
    reads back exactly that, whatever the listener of the change does
    in between. *)
Theorem thread_id_round_trip (P : Platform) (t : option string) (s : State) (n : nat) :
  let s' := fst (setThreadIdInLocation P t s n) in
  let tid := Str.trim (or_empty t) in
  location s' = {| q_thread_id := if Str.truthy tid then Some tid else None;
                   q_threadId := None |} /\
  getThreadIdFromLocation (location s') = (if Str.truthy tid then Some tid else None).
Proof.
  intros s' tid.
  assert (L : location s' = {| q_thread_id := if Str.truthy tid then Some tid else None;
                               q_threadId := None |}).
  { unfold s', setThreadIdInLocation. fold tid.
    destruct (_ && _) eqn:E.
    - apply andb_true_iff in E. destruct E as [E _].
      apply andb_true_iff in E. destruct E as [E E2].
      apply andb_true_iff in E. destruct E as [_ E1].
      apply opt_eqb_eq in E1, E2. cbn [q_thread_id q_threadId] in E1, E2.
      cbn [fst ret]. destruct (location s) as [a b]. cbn in E1, E2. now subst.
    - now rewrite syncFromUrl_location. }
  split; [exact L|]. rewrite L. apply getThreadId_tracked.
Qed.

(** ** The messages replayed from the steps of a reply *)

Lemma sort_ext {A : Type} (f g : A -> A -> bool) (xs : list A) :
  (forall a b, f a b = g a b) -> Arr.sort f xs = Arr.sort g xs.
Proof.
  intros H. induction xs as [|x r IH]; [reflexivity|].
  cbn [Arr.sort]. rewrite IH. generalize (Arr.sort g r). intros ys.
  induction ys as [|y ys IHy]; [reflexivity|].
  cbn [Arr.insert]. now rewrite H, IHy.
Qed.

Lemma mapM_Forall {A B : Type} (f : A -> M B) (Q : B -> Prop)
      (xs : list A) :
  (forall x n, Q (fst (f x n))) ->
  forall n, Forall Q (fst (mapM f xs n))
            /\ List.length (fst (mapM f xs n)) = List.length xs.
Proof.
  intros H. induction xs as [|x r IH]; intros n; [split; [constructor|reflexivity]|].
  cbn [mapM]. unfold bindM. pose proof (H x n) as Hx.
  destruct (f x n) as [y n1]. destruct (IH n1) as [I1 I2].
  destruct (mapM f r n1) as [ys n2]. cbn [fst ret] in *.
  split; [now constructor|cbn; now rewrite I2].
Qed.

(** A replayed message: a trimmed text that is not empty. *)
Definition event_ok (e : string * Z) : Prop :=
  Str.trim (fst e) = fst e /\ fst e <> "".

Lemma open_message_of_step_ok (P : Platform) (s : value) (n : nat) :
  Forall event_ok (fst (open_message_of_step P s n))
  /\ List.length (fst (open_message_of_step P s n)) <= 1.
Proof.
  unfold open_message_of_step.
  destruct (_ && _); [split; [constructor|cbn; lia]|].
  destruct (opt_member (opt_member s "request") "message") as [| |b|k|msg|xs|fs];
    try (split; [constructor|cbn; lia]).
  destruct (Str.truthy (Str.trim msg)) eqn:T; [|split; [constructor|cbn; lia]].
  assert (E : forall t, event_ok (Str.trim msg, t)).
  { intros t. split; [apply trim_idem|now apply truthy_true]. }
  destruct (if Str.truthy _ then _ else _) as [t|]; cbn.
  - split; [repeat constructor; apply E|lia].
  - split; [repeat constructor; apply E|lia].
Qed.

Lemma concat_length_le {A : Type} (ls : list (list A)) :
  Forall (fun l => List.length l <= 1) ls ->
  List.length (List.concat ls) <= List.length ls.
Proof.
  induction 1 as [|l r H _ IH]; [reflexivity|].
  cbn [List.concat]. rewrite length_app. cbn. lia.
Qed.

(** X12. The messages that [onSend] shows again from the [steps] of a
    reply are in the order of their times, oldest first; every one has
    a trimmed text that is not empty; no step gives more than one. *)
Theorem open_messages_ordered (P : Platform) (rawResponse : value) (n : nat) :
  let out := fst (extractOpenMessagesFromSteps P rawResponse n) in
  StronglySorted (fun a b => (snd a <= snd b)%Z) out /\
  Forall event_ok out /\
  List.length out
  <= match opt_member rawResponse "steps" with
     | VArr steps => List.length steps
     | _ => 0
     end.
Proof.
  unfold extractOpenMessagesFromSteps.
  destruct (opt_member rawResponse "steps") as [| |b|k|s|steps|fs];
    try (cbn; split; [constructor|split; [constructor|lia]]).
  unfold bindM.
  destruct (mapM_Forall (open_message_of_step P)
              (fun l => Forall event_ok l /\ List.length l <= 1) steps
              (open_message_of_step_ok P) n) as [F L].
  destruct (mapM (open_message_of_step P) steps n) as [out n1]. cbn [fst ret] in *.
  set (cmp := fun a b : string * Z => (snd a - snd b)%Z).
  rewrite (sort_ext _ (ArrFacts.lt cmp)).
  2:{ intros a b. unfold ArrFacts.lt, cmp.
      destruct (Z.ltb_spec (snd a) (snd b)), (Z.ltb_spec (snd a - snd b) 0); lia. }
  split; [|split].
  - assert (S : StronglySorted (ArrFacts.before cmp) (Arr.sort (ArrFacts.lt cmp) (List.concat out))).
    { apply ArrFacts.sort_sorted; unfold ArrFacts.before, cmp; intros; lia. }
    revert S. generalize (Arr.sort (ArrFacts.lt cmp) (List.concat out)).
    induction 1 as [|a l _ IH Ha]; constructor; [exact IH|].
    eapply Forall_impl; [|exact Ha]. unfold ArrFacts.before, cmp. cbn. intros; lia.
  - eapply Permutation_Forall; [apply ArrFacts.sort_perm|].
    apply Forall_concat. eapply Forall_impl; [|exact F]. now intros l [H _].
  - rewrite <- (Permutation_length (ArrFacts.sort_perm cmp (List.concat out))).
    rewrite <- L. apply concat_length_le.
    eapply Forall_impl; [|exact F]. now intros l [_ H].
Qed.

End ChatFlowSpec.

(* ================================================================== *)
(** * What every send leaves behind: [onSend] of [src/components/Chat.tsx] *)

Module ChatSendSpec.
Import Json Client ChatView Chat StrFacts ChatFlowSpec.

(** The page URL that tracks the thread [t]. *)
Definition tracking (t : option string) : Location :=
  let tid := Str.trim (or_empty t) in
  {| q_thread_id := if Str.truthy tid then Some tid else None; q_threadId := None |}.

Lemma tracking_unchanged (t : option string) (loc : Location) :
  loc = tracking t ->
  String.eqb (Str.trim (or_empty (q_thread_id loc))) (Str.trim (or_empty t))
  && opt_eqb (q_thread_id loc) (q_thread_id (tracking t))
  && opt_eqb (q_threadId loc) (q_threadId (tracking t)) = true.
Proof.
  intros ->. unfold tracking. cbn [q_thread_id q_threadId opt_eqb].
  destruct (Str.truthy (Str.trim (or_empty t))) eqn:T; cbn [or_empty opt_eqb].
  - now rewrite trim_idem, !String.eqb_refl.
  - apply truthy_false in T. rewrite T. reflexivity.
Qed.

(** While the listener is switched off, [setThreadIdInLocation] changes
    the page URL and the switch and nothing else; the switch stays on
    exactly when the URL was as asked already, in its parameters and
    in the way it is written. *)
Lemma setThreadIdInLocation_off (P : Platform) (t : option string) (s : State) (n : nat) :
  suppressNextUrlSync s = true ->
  exists b,
    setThreadIdInLocation P t s n = (setSuppress b (replaceState (tracking t) s), n) /\
    (b = true <-> location s = tracking t /\ hrefWritten s = true).
Proof.
  intros H. unfold setThreadIdInLocation.
  change {| q_thread_id := if Str.truthy (Str.trim (or_empty t))
                           then Some (Str.trim (or_empty t)) else None;
            q_threadId := None |} with (tracking t).
  destruct (_ && _) eqn:E.
  - exists true.
    assert (L : location s = tracking t /\ hrefWritten s = true).
    { apply andb_true_iff in E. destruct E as [E W].
      apply andb_true_iff in E. destruct E as [E E2].
      apply andb_true_iff in E. destruct E as [_ E1].
      apply opt_eqb_eq in E1, E2. destruct (location s) as [a b], (tracking t) as [c d].
      cbn in E1, E2. now subst. }
    split; [|tauto]. unfold ret. f_equal.
    destruct L as [L W]. destruct s. cbn in H, L, W |- *. now subst.
  - exists false. split.
    + unfold syncFromUrl. cbn [suppressNextUrlSync setLocation replaceState]. now rewrite H.
    + split; [discriminate|]. intros [L W]. apply (tracking_unchanged t) in L.
      cbv zeta in E. rewrite L, W in E. discriminate.
Qed.

(** The message that [onSend] adds for the text typed. *)
Definition userMsg_of (P : Platform) (s : State) (n : nat) : ChatMessage :=
  {| id := uuid_at P (S n); role := user; text := Str.trim (draft s);
     createdAt := now_at P n; answerItems := None; trace := None |}.

Lemma first_truthy_shown (x : string) :
  Str.truthy (first_truthy x "[sem resposta]") = true.
Proof. unfold first_truthy. now destruct (Str.truthy x) eqn:E. Qed.

Local Ltac last_message tac :=
  cbn; split; [reflexivity|]; split; [reflexivity|];
  split; [first [apply first_truthy_shown | reflexivity]|];
  split; [reflexivity|]; split; [eexists; reflexivity|tac].

Lemma onSend_end_settles (P : Platform) (settings : ChatSettings) (p : Pending)
      (outcome : completion send_result) (s : State) (n : nat) :
  let s' := fst (onSend_end P settings p outcome s n) in
  loading s' = false /\ inspected s' = None /\ draft s' = draft s /\
  exists pre a,
    messages s' = (pre ++ [a])%list /\
    role a = assistant /\
    Str.truthy (text a) = true /\
    selectedId s' = Some (id a) /\
    (exists tr, trace a = Some tr) /\
    (In (p_userMsg p) pre \/ exists mid, pre = (messages s ++ mid)%list).
Proof.
  destruct outcome as [res|e].
  - unfold onSend_end, onSend_resolved, bindM. cbn [Date_now uuid].
    destruct (replayOpenMessages P p (raw res) (lastOpenMsg s) (S (S n))) as [opened n1].
    cbn [fst snd].
    set (s0 := setSuppress true (setLastOpenMsg (snd opened) s)).
    destruct (is_close_command (raw res)).
    { destruct (setThreadIdInLocation_off P None s0 n1 eq_refl) as [b [E _]].
      rewrite E. cbn. repeat (split; [reflexivity|]).
      eexists (_ :: _ :: fst opened)%list, _.
      last_message ltac:(left; right; now left). }
    destruct (nextThreadId_of (raw res)) as [next|].
    2:{ cbn. repeat (split; [reflexivity|]).
        eexists (messages s ++ fst opened)%list, _. rewrite <- app_assoc.
        last_message ltac:(right; now eexists). }
    destruct (setThreadIdInLocation_off P (Some next) s0 n1 eq_refl) as [b [E _]].
    destruct (match p_prevThreadId p with
              | Some prev => negb (String.eqb prev next)
              | None => false
              end).
    + rewrite E. cbn. repeat (split; [reflexivity|]).
      eexists (_ :: _ :: fst opened)%list, _.
      last_message ltac:(left; right; now left).
    + rewrite E. cbn. repeat (split; [reflexivity|]).
      eexists (messages s ++ fst opened)%list, _. rewrite <- app_assoc.
      last_message ltac:(right; now eexists).
  - cbn. repeat (split; [reflexivity|]). eexists (messages s), _.
    last_message ltac:(right; exists []; now rewrite app_nil_r).
Qed.

(** X13. [onSend] does nothing, and calls nothing, while a send is
    under way or when the text typed is blank. Otherwise, whatever the
    server does (an answer, a refusal, no connection, a thread that
    changes or closes), the send ends with the box emptied, the waiting
    mark off, the message typed on the list with its text trimmed, and
    last on the list a message of the assistant (the answer or the
    error) that carries the trace of the call and is the one selected
    for the panel. *)
Theorem onSend_settles (P : Platform) (settings : ChatSettings) (s : State) (n : nat) :
  let s' := fst (onSend P settings s n) in
  if Str.is_empty (Str.trim (draft s)) || loading s
  then onSend P settings s n = (s, n)
  else
    loading s' = false /\ draft s' = "" /\ inspected s' = None /\
    exists pre a,
      messages s' = (pre ++ [a])%list /\
      In (userMsg_of P s n) pre /\
      role a = assistant /\
      Str.truthy (text a) = true /\
      selectedId s' = Some (id a) /\
      exists tr, trace a = Some tr.
Proof.
  intros s'. destruct (_ || _) eqn:G.
  - unfold onSend, onSend_begin, bindM. now rewrite G.
  - unfold s', onSend, onSend_begin. rewrite G. unfold bindM. cbn [Date_now uuid ret fst snd p_text].
    destruct (callSendMessage P settings (Str.trim (draft s)) (S (S n))) as [outcome n1].
    match goal with
    | |- context [onSend_end P settings ?p outcome ?s1 n1] =>
        pose proof (onSend_end_settles P settings p outcome s1 n1) as H
    end.
    cbv zeta in H. destruct H as [H1 [H2 [H3 [pre [a [M [R [X [S [T U]]]]]]]]]].
    split; [exact H1|]. split; [exact H3|]. split; [exact H2|].
    exists pre, a. split; [exact M|].
    split; [|split; [exact R|split; [exact X|split; [exact S|exact T]]]].
    destruct U as [U|[mid U]]; [exact U|].
    rewrite U. cbn [messages setLoading setSelectedId setMessages setError setDraft].
    apply in_or_app. left. apply in_or_app. right. now left.
Qed.

Lemma streamThread_loaded (s : State) (t : string) :
  loadedThreadId s = Some (Str.trim t) -> Str.trim t <> "" ->
  ChatPanel.streamThread s = Str.trim t.
Proof.
  intros L N. unfold ChatPanel.streamThread, or_else. rewrite L.
  apply truthy_true in N. cbn [some_text]. rewrite N. cbn [some_text].
  rewrite N. cbn [or_empty]. apply trim_idem.
Qed.

(** X14. A reply that names its thread (and is no close command) leaves
    the page on that thread: the URL carries the trimmed id, the chat
    takes the thread for loaded, and the push channel is the one of that
    thread. A run of the URL listener on the state that the send leaves
    (the run that the effect makes when the loaded thread has changed)
    neither resets the list nor starts a load of the thread. When the
    message was sent on that thread, or on none, the list as it was is
    kept and the replayed messages and the answer are added to it. *)
Theorem reply_thread_tracked (P : Platform) (settings : ChatSettings) (p : Pending)
        (res : send_result) (s : State) (n n' : nat)
        (ctx : ConversationContext) (tid : string) :
  extractConversationContextFromResponseJson (raw res) = Some ctx ->
  threadId ctx = Some tid ->
  Str.trim tid <> "" ->
  is_close_command (raw res) = false ->
  let s' := fst (onSend_end P settings p (Normal res) s n) in
  loadedThreadId s' = Some (Str.trim tid) /\
  location s' = {| q_thread_id := Some (Str.trim tid); q_threadId := None |} /\
  getThreadIdFromLocation (location s') = Some (Str.trim tid) /\
  ChatPanel.streamThread s' = Str.trim tid /\
  messages (fst (syncFromUrl P s' n')) = messages s' /\
  threadLoads (fst (syncFromUrl P s' n')) = threadLoads s /\
  (match p_prevThreadId p with
   | Some t0 => t0 = Str.trim tid
   | None => True
   end ->
   exists a,
     messages s'
     = (messages s
          ++ fst (fst (replayOpenMessages P p (raw res) (lastOpenMsg s) (S (S n))))
          ++ [a])%list /\
     role a = assistant).
Proof.
  intros Hctx Htid Hne Hclose s'.
  pose proof (ChatSpec.nextThreadId_of_context _ _ _ Hctx Htid Hne) as Hnext.
  assert (Tr : tracking (Some (Str.trim tid))
               = {| q_thread_id := Some (Str.trim tid); q_threadId := None |}).
  { unfold tracking. cbn [or_empty]. rewrite trim_idem.
    apply truthy_true in Hne. now rewrite Hne. }
  assert (G : getThreadIdFromLocation
                {| q_thread_id := Some (Str.trim tid); q_threadId := None |}
              = Some (Str.trim tid))
    by (apply ChatSpec.getThreadId_of_param; [apply trim_idem|exact Hne]).
  unfold s', onSend_end, onSend_resolved, bindM. cbn [Date_now uuid].
  destruct (replayOpenMessages P p (raw res) (lastOpenMsg s) (S (S n))) as [opened n1].
  cbn [fst snd]. rewrite Hclose, Hnext.
  set (s0 := setSuppress true (setLastOpenMsg (snd opened) s)).
  destruct (setThreadIdInLocation_off P (Some (Str.trim tid)) s0 n1 eq_refl) as [b [E _]].
  rewrite Tr in E.
  destruct (p_prevThreadId p) as [t0|] eqn:Hprev.
  - destruct (String.eqb_spec t0 (Str.trim tid)) as [Heq|Hneq]; cbn [negb].
    + rewrite E. cbn [fst snd ret]. unfold syncFromUrl.
      cbn [loadedThreadId location messages threadLoads suppressNextUrlSync
           setLoading setInspectError setInspected setSelectedId setMessages
           setLoadedThreadId setSuppress setLocation replaceState setLastOpenMsg s0].
      rewrite G, String.eqb_refl.
      repeat split;
        [now apply streamThread_loaded|destruct b; reflexivity|destruct b; reflexivity|].
      intros _. eexists. split; [reflexivity|reflexivity].
    + rewrite E. cbn [fst snd ret]. unfold syncFromUrl.
      cbn [loadedThreadId location messages threadLoads suppressNextUrlSync
           setLoading setInspectError setInspected setSelectedId setMessages
           setLoadedThreadId setSuppress setLocation replaceState setLastOpenMsg s0].
      rewrite G, String.eqb_refl.
      repeat split;
        [now apply streamThread_loaded|destruct b; reflexivity|destruct b; reflexivity|].
      intros Heq. congruence.
  - rewrite E. cbn [fst snd ret]. unfold syncFromUrl.
    cbn [loadedThreadId location messages threadLoads suppressNextUrlSync
         setLoading setInspectError setInspected setSelectedId setMessages
         setLoadedThreadId setSuppress setLocation replaceState setLastOpenMsg s0].
    rewrite G, String.eqb_refl.
    repeat split;
      [now apply streamThread_loaded|destruct b; reflexivity|destruct b; reflexivity|].
    intros _. eexists. split; [reflexivity|reflexivity].
Qed.

(** A message sent from a page that tracks no thread. *)
Definition pending_new : Pending :=
  {| p_text := "hello"; p_prevThreadId := None; p_sentAt := 1000;
     p_userMsg := {| id := "m1"; role := user; text := "hello"; createdAt := 1000;
                     answerItems := None; trace := None |} |}.

Definition state_new : State :=
  setLoadedThreadId None
    (setLocation {| q_thread_id := None; q_threadId := None |} ChatSpec.state_T1).

Lemma reply_thread_tracked_witness :
  let s' := fst (onSend_end (ChatSpec.platform_of 200 "") ChatSpec.settings_example
                            pending_new (Normal ChatSpec.result_T2) state_new 2) in
  loadedThreadId s' = Some "T2" /\
  getThreadIdFromLocation (location s') = Some "T2" /\
  map text (messages s') = ["an earlier answer"; "hi"].
Proof.
  intros s'.
  assert (C : extractConversationContextFromResponseJson (raw ChatSpec.result_T2)
              = Some {| assistantId := None; customerId := None; companyId := Some "acme";
                        threadId := Some "T2"; platform := None;
                        assistantExternalId := None;
                        threadAssistantExternalId := None |}) by reflexivity.
  assert (N : Str.trim "T2" <> "") by discriminate.
  destruct (reply_thread_tracked (ChatSpec.platform_of 200 "") ChatSpec.settings_example
              pending_new ChatSpec.result_T2 state_new 2 0 _ "T2" C eq_refl N eq_refl)
    as [A [_ [B _]]].
  split; [exact A|]. split; [exact B|]. vm_compute. reflexivity.
Defined.

(** X15. A reply that names the very thread the page URL carries
    already, as the reply to a further message of a conversation does.
    When the address of the page is written as the client writes it
    (as it is once the client has put the thread id in it),
    [setThreadIdInLocation] finds nothing to change and sends no event,
    so that the send does not take off again the switch that silences
    the URL listener: the switch is left on. The next run of the
    listener (for instance on a step back or forward in the history of
    the browser) is then swallowed: it only takes the switch off,
    wherever the URL now points; the list is not reset and no thread is
    loaded. When the address is written in another way (typed with a
    parameter without a value, say), it is rewritten, the event is
    sent, its listener takes the switch off, and nothing is left on. *)
Theorem same_thread_leaves_listener_off (P : Platform) (settings : ChatSettings)
        (p : Pending) (res : send_result) (s : State) (n : nat)
        (ctx : ConversationContext) (tid : string) :
  extractConversationContextFromResponseJson (raw res) = Some ctx ->
  threadId ctx = Some tid ->
  Str.trim tid <> "" ->
  is_close_command (raw res) = false ->
  location s = {| q_thread_id := Some (Str.trim tid); q_threadId := None |} ->
  let s' := fst (onSend_end P settings p (Normal res) s n) in
  suppressNextUrlSync s' = hrefWritten s /\
  hrefWritten s' = true /\
  (hrefWritten s = true ->
   forall (loc : Location) (n' : nat),
     syncFromUrl P (setLocation loc s') n' = (setSuppress false (setLocation loc s'), n')).
Proof.
  intros Hctx Htid Hne Hclose Hloc s'.
  pose proof (ChatSpec.nextThreadId_of_context _ _ _ Hctx Htid Hne) as Hnext.
  assert (Tr : tracking (Some (Str.trim tid))
               = {| q_thread_id := Some (Str.trim tid); q_threadId := None |}).
  { unfold tracking. cbn [or_empty]. rewrite trim_idem.
    apply truthy_true in Hne. now rewrite Hne. }
  assert (F : suppressNextUrlSync s' = hrefWritten s /\ hrefWritten s' = true).
  { unfold s', onSend_end, onSend_resolved, bindM. cbn [Date_now uuid].
    destruct (replayOpenMessages P p (raw res) (lastOpenMsg s) (S (S n))) as [opened n1].
    cbn [fst snd]. rewrite Hclose, Hnext.
    set (s0 := setSuppress true (setLastOpenMsg (snd opened) s)).
    destruct (setThreadIdInLocation_off P (Some (Str.trim tid)) s0 n1 eq_refl)
      as [b [E B]].
    assert (Hb : b = hrefWritten s).
    { change (hrefWritten s0) with (hrefWritten s) in B.
      change (location s0) with (location s) in B. rewrite Tr in B.
      destruct b, (hrefWritten s); try reflexivity.
      - destruct B as [B _]. destruct (B eq_refl) as [_ X]. discriminate X.
      - apply B. now split. }
    subst b.
    destruct (match p_prevThreadId p with
              | Some prev => negb (String.eqb prev (Str.trim tid))
              | None => false
              end); rewrite E; split; reflexivity. }
  destruct F as [F W]. split; [exact F|]. split; [exact W|].
  intros H loc n'. unfold syncFromUrl. cbn [suppressNextUrlSync setLocation].
  now rewrite F, H.
Qed.

(** The second message of a conversation on thread [T2]; and the same
    on a page whose address was typed. *)
Definition state_T2 : State :=
  setLoadedThreadId (Some "T2")
    (setLocation {| q_thread_id := Some "T2"; q_threadId := None |} ChatSpec.state_T1).

Definition state_T2_typed : State :=
  {| messages := messages state_T2; draft := draft state_T2;
     loading := loading state_T2; error := error state_T2;
     selectedId := selectedId state_T2; inspected := inspected state_T2;
     inspectError := inspectError state_T2; loadedThreadId := loadedThreadId state_T2;
     suppressNextUrlSync := suppressNextUrlSync state_T2;
     lastOpenMsg := lastOpenMsg state_T2; location := location state_T2;
     hrefWritten := false; threadLoads := threadLoads state_T2 |}.

Definition pending_T2 : Pending :=
  {| p_text := "hello"; p_prevThreadId := Some "T2"; p_sentAt := 1000;
     p_userMsg := {| id := "m1"; role := user; text := "hello"; createdAt := 1000;
                     answerItems := None; trace := None |} |}.

Lemma same_thread_leaves_listener_off_witness :
  let s' := fst (onSend_end (ChatSpec.platform_of 200 "") ChatSpec.settings_example
                            pending_T2 (Normal ChatSpec.result_T2) state_T2 2) in
  suppressNextUrlSync s' = true /\
  map text (messages
              (fst (syncFromUrl (ChatSpec.platform_of 200 "")
                      (setLocation {| q_thread_id := Some "T1"; q_threadId := None |} s')
                      9)))
  = ["an earlier answer"; "hi"] /\
  suppressNextUrlSync
    (fst (onSend_end (ChatSpec.platform_of 200 "") ChatSpec.settings_example
                     pending_T2 (Normal ChatSpec.result_T2) state_T2_typed 2))
  = false.
Proof.
  intros s'.
  assert (C : extractConversationContextFromResponseJson (raw ChatSpec.result_T2)
              = Some {| assistantId := None; customerId := None; companyId := Some "acme";
                        threadId := Some "T2"; platform := None;
                        assistantExternalId := None;
                        threadAssistantExternalId := None |}) by reflexivity.
  assert (N : Str.trim "T2" <> "") by discriminate.
  destruct (same_thread_leaves_listener_off (ChatSpec.platform_of 200 "")
              ChatSpec.settings_example pending_T2 ChatSpec.result_T2 state_T2 2
              _ "T2" C eq_refl N eq_refl eq_refl)
    as [A [_ B]].
  destruct (same_thread_leaves_listener_off (ChatSpec.platform_of 200 "")
              ChatSpec.settings_example pending_T2 ChatSpec.result_T2 state_T2_typed 2
              _ "T2" C eq_refl N eq_refl eq_refl)
    as [A' _].
  split; [exact A|]. split; [|exact A'].
  fold s'. rewrite (B eq_refl). vm_compute. reflexivity.
Defined.

End ChatSendSpec.

(* ================================================================== *)
(** * A send that fails, and a conversation that closes *)

Module ChatOutcomeSpec.
Import Json Client ChatView Chat StrFacts ChatFlowSpec ChatSendSpec.

Lemma buildMessagesUrl_not_empty (settings : ChatSettings) :
  buildMessagesUrl settings <> "".
Proof.
  unfold buildMessagesUrl. destruct (normalizeBaseUrl (apiBaseUrl settings)); discriminate.
Qed.

(** X16. A send that the server refuses is shown with what was asked
    and what was answered. When the reply has a status outside
    200..299, or a body that is not JSON, or [success: false] (and its
    JSON is not [null]), [onSend] shows the error, gives up waiting,
    and adds after the message typed one message of the assistant that
    spells the error and whose trace holds the address and the payload
    of the request, the status, the reply as it was read and the raw
    text of the body. *)
Theorem failed_send_shown (P : Platform) (settings : ChatSettings) (s : State) (n : nat)
        (st : Z) (body : option string) :
  Str.trim (draft s) <> "" ->
  loading s = false ->
  fetch P (buildMessagesUrl settings)
        (JsonText.stringify (VObj (buildPayload settings (Str.trim (draft s)))))
  = Response st body ->
  nullish (ChatSpec.reply_data st body) = false ->
  resp_ok st = false \/ ChatSpec.unreadable body
  \/ opt_member (ChatSpec.reply_data st body) "success" = VBool false ->
  let s' := fst (onSend P settings s n) in
  exists msg m,
    error s' = Some msg /\
    loading s' = false /\
    messages s' = (messages s ++ [userMsg_of P s n; m])%list /\
    role m = assistant /\
    text m = "Erro ao chamar o backend: " ++ msg /\
    selectedId s' = Some (id m) /\
    trace m = Some {| tr_url := buildMessagesUrl settings;
                      tr_payload := buildPayload settings (Str.trim (draft s));
                      tr_status := st;
                      tr_ok := false;
                      tr_json := ChatSpec.reply_data st body;
                      tr_rawText := body;
                      tr_timingMs := (now_at P (4 + n) - now_at P n)%Z |}.
Proof.
  intros Hd Hl Hf Hnn Hbad s'.
  destruct (ChatSpec.sendMessage_rejects (fetch P) (perf_at P (S (S n)))
              (perf_at P (S (S (S n)))) settings (Str.trim (draft s)) st body Hf Hnn)
    as [Hiff Hatt].
  apply Hiff in Hbad. destruct Hbad as [e He]. specialize (Hatt e He).
  assert (G : Str.is_empty (Str.trim (draft s)) || loading s = false).
  { rewrite Hl, orb_false_r. destruct (Str.trim (draft s)); [congruence|reflexivity]. }
  unfold s', onSend, onSend_begin. rewrite G. unfold bindM, callSendMessage.
  cbn [Date_now uuid ret fst snd p_text]. rewrite He.
  match goal with
  | |- context [onSend_end P settings ?p (Throw e) ?s1 ?k] =>
      pose proof (ChatSpec.onSend_rejected_trace P settings p e _ s1 k Hatt) as H;
      pose proof (onSend_end_settles P settings p (Throw e) s1 k) as K;
      set (r := fst (onSend_end P settings p (Throw e) s1 k)) in *
  end.
  cbn [a_request a_response fst] in H.
  specialize (H (buildMessagesUrl_not_empty settings) Hnn).
  cbv zeta in H, K. destruct H as [H1 [H2 [m [H3 [H4 [H5 H6]]]]]].
  destruct K as [_ [_ [_ [pre [a [M [_ [_ [Sel _]]]]]]]]].
  rewrite H3 in M. apply app_inj_tail in M. destruct M as [_ M]. subst a.
  exists (message e), m.
  split; [exact H1|]. split; [exact H2|]. split.
  { rewrite H3. cbn [messages setLoading setSelectedId setMessages setError setDraft].
    now rewrite <- app_assoc. }
  split; [exact H4|]. split; [exact H5|]. split; [exact Sel|exact H6].
Qed.

(** A server that answers 500 with an error of its own. *)
Definition refusal : string :=
  or_empty (JsonText.stringify
              (VObj [("success", VBool false); ("error", VStr "no such company")])).

Lemma failed_send_shown_witness :
  let s' := fst (onSend (ChatSpec.platform_of 500 refusal) ChatSpec.settings_example
                        ChatSpec.state_T1 0) in
  exists msg m,
    error s' = Some msg /\
    loading s' = false /\
    role m = assistant /\
    text m = "Erro ao chamar o backend: " ++ msg /\
    option_map tr_status (trace m) = Some 500%Z /\
    option_map tr_rawText (trace m) = Some (Some refusal).
Proof.
  intros s'.
  assert (N : Str.trim (draft ChatSpec.state_T1) <> "") by discriminate.
  destruct (failed_send_shown (ChatSpec.platform_of 500 refusal) ChatSpec.settings_example
              ChatSpec.state_T1 0 500 (Some refusal) N eq_refl eq_refl eq_refl
              (or_introl eq_refl))
    as [msg [m [E [L [_ [R [T [_ Tr]]]]]]]].
  exists msg, m. fold s' in E, L.
  split; [exact E|]. split; [exact L|]. split; [exact R|]. split; [exact T|].
  rewrite Tr. split; reflexivity.
Defined.

(** X17. What becomes of a conversation that the reply closes. The
    send leaves the list made anew (the closing banner, the message
    typed, the replayed messages, the answer), no thread in the page
    URL and no thread loaded. When the page URL carried a thread id,
    the event of the change has taken the switch of the listener off
    already, and a run of the listener on the state that the send
    leaves (the run that the effect makes when the loaded thread has
    changed) finds no thread in the URL and resets the conversation:
    the list just made is replaced by the banner of a new conversation
    alone, and nothing is selected. *)
Theorem close_then_reset (P : Platform) (settings : ChatSettings) (p : Pending)
        (res : send_result) (s : State) (n n' : nat) :
  is_close_command (raw res) = true ->
  location s <> {| q_thread_id := None; q_threadId := None |} ->
  let s' := fst (onSend_end P settings p (Normal res) s n) in
  (exists banner a,
      messages s'
      = (banner :: p_userMsg p
           :: fst (fst (replayOpenMessages P p (raw res) (lastOpenMsg s) (S (S n))))
           ++ [a])%list
      /\ text banner = closedText /\ role banner = system /\ role a = assistant) /\
  location s' = {| q_thread_id := None; q_threadId := None |} /\
  loadedThreadId s' = None /\
  suppressNextUrlSync s' = false /\
  messages (fst (syncFromUrl P s' n'))
  = [systemBanner (uuid_at P (S n')) startedText (now_at P n')] /\
  selectedId (fst (syncFromUrl P s' n')) = None.
Proof.
  intros Hclose Hloc s'.
  unfold s', onSend_end, onSend_resolved, bindM. cbn [Date_now uuid].
  destruct (replayOpenMessages P p (raw res) (lastOpenMsg s) (S (S n))) as [opened n1].
  cbn [fst snd]. rewrite Hclose.
  set (s0 := setSuppress true (setLastOpenMsg (snd opened) s)).
  destruct (setThreadIdInLocation_off P None s0 n1 eq_refl) as [b [E [B _]]].
  assert (Hb : b = false).
  { destruct b; [|reflexivity]. exfalso. apply Hloc. now apply B. }
  subst b. rewrite E. cbn [fst snd ret].
  split; [eexists; eexists; split; [reflexivity|repeat split]|].
  repeat split.
Qed.

Definition reply_close : value :=
  ChatSpec.reply_of [("company_id", VStr "acme"); ("command", VStr "#close");
                     ("assistant_response", VObj [("answer", VStr "bye")])].

Definition result_close : send_result :=
  {| answerText := "bye"; Client.answerItems := [text_item "bye"]; raw := reply_close;
     status := 200; ok := true;
     request := (buildMessagesUrl ChatSpec.settings_example,
                 buildPayload ChatSpec.settings_example "hello");
     rawText := JsonText.stringify reply_close; timingMs := 1 |}.

Lemma close_then_reset_witness :
  let s' := fst (onSend_end (ChatSpec.platform_of 200 "") ChatSpec.settings_example
                            ChatSpec.pending_T1 (Normal result_close)
                            ChatSpec.state_T1 2) in
  map text (messages s') = [closedText; "hello"; "bye"] /\
  map text (messages (fst (syncFromUrl (ChatSpec.platform_of 200 "") s' 6)))
  = [startedText].
Proof.
  intros s'.
  assert (L : location ChatSpec.state_T1 <> {| q_thread_id := None; q_threadId := None |})
    by discriminate.
  destruct (close_then_reset (ChatSpec.platform_of 200 "") ChatSpec.settings_example
              ChatSpec.pending_T1 result_close ChatSpec.state_T1 2 6 eq_refl L)
    as [_ [_ [_ [_ [M _]]]]].
  fold s' in M. split; [vm_compute; reflexivity|]. rewrite M. reflexivity.
Defined.

End ChatOutcomeSpec.

(* ================================================================== *)
(** * The open messages shown again after a reply *)

Module ChatReplaySpec.
Import Json Client ChatView Chat StrFacts.

(** [l1] is [l2] with some of its elements left out. *)
Inductive subseq {A : Type} : list A -> list A -> Prop :=
| subseq_nil : subseq [] []
| subseq_skip (x : A) (l1 l2 : list A) : subseq l1 l2 -> subseq l1 (x :: l2)
| subseq_keep (x : A) (l1 l2 : list A) : subseq l1 l2 -> subseq (x :: l1) (x :: l2).

Definition event_of (m : ChatMessage) : string * Z := (text m, createdAt m).

Definition replayed (m : ChatMessage) : Prop :=
  role m = assistant /\ trace m = None /\ answerItems m = None.

(** X18. The messages that a reply makes [onSend] show again are some
    of the events found in its steps, in their order, each as a message
    of the assistant without a trace, with the text and the time of the
    event. An event is compared with the last open message noted (by
    the push channel or by an earlier replay) and with no other: when
    that note is of the same thread and less than ten seconds old,
    events with that very text are not shown again and the note stays;
    an event with another text than the note is shown, also when the
    push channel has shown it before the message noted last. *)
Theorem replayed_messages (P : Platform) (tid : string) (now : Z)
        (events : list (string * Z)) (last : option OpenMark) (n : nat) :
  let r := fst (openMsgs_loop P tid now events last n) in
  subseq (map event_of (fst r)) events /\
  Forall replayed (fst r) /\
  (match last with
   | Some l =>
       m_threadId l = tid /\ (now - m_ts l < 10000)%Z
       /\ Forall (fun e => fst e = m_text l) events
   | None => False
   end -> r = ([], last)) /\
  (forall t ts rest,
      events = (t, ts) :: rest ->
      match last with
      | Some l => m_text l <> t
      | None => True
      end ->
      exists m ms, fst r = m :: ms /\ event_of m = (t, ts) /\ id m = uuid_at P n).
Proof.
  revert last n. induction events as [|[t ts] rest IH]; intros last n.
  - cbn. repeat split; [constructor|constructor|discriminate].
  - cbn [openMsgs_loop].
    destruct (match last with Some _ => _ | None => _ end) eqn:D.
    + destruct (IH last n) as [I1 [I2 [I3 _]]].
      split; [now constructor|]. split; [exact I2|]. split.
      * destruct last as [l|]; [|contradiction]. intros [H1 [H2 H3]].
        apply I3. inversion H3; subst. now repeat split.
      * intros t' ts' rest' [= <- <- <-] N. exfalso.
        destruct last as [l|]; [|discriminate D].
        apply andb_true_iff in D. destruct D as [D _].
        apply andb_true_iff in D. destruct D as [_ D].
        apply String.eqb_eq in D. contradiction.
    + unfold bindM. cbn [uuid].
      destruct (IH (Some {| m_threadId := tid; m_text := t; m_ts := ts |}) (S n))
        as [I1 [I2 _]].
      destruct (openMsgs_loop P tid now rest
                  (Some {| m_threadId := tid; m_text := t; m_ts := ts |}) (S n))
        as [[ms mark] n1].
      cbn [fst snd ret] in *. split; [|split; [|split]].
      * cbn [map]. unfold event_of at 1. cbn [text createdAt]. now constructor.
      * constructor; [now repeat split|exact I2].
      * destruct last as [l|]; [|contradiction]. intros [H1 [H2 H3]]. exfalso.
        inversion H3 as [|e es He Hes]; subst. cbn [fst] in He. subst t.
        rewrite !String.eqb_refl in D. apply Z.ltb_lt in H2. rewrite H2 in D.
        discriminate D.
      * intros t' ts' rest' [= <- <- <-] _. eexists. eexists.
        split; [reflexivity|]. split; reflexivity.
Qed.

End ChatReplaySpec.

(* ================================================================== *)
(** * The push channel, the panel and the thread history:
      [src/components/Chat.tsx] *)

Module ChatPanelSpec.
Import Json Client ChatView Chat ChatPanel StrFacts.

(** ** The push channel *)

(** The text of a pushed open message, when [data] holds one. *)
Definition open_text (data : string) : option string :=
  if negb (Str.truthy (Str.trim data)) then None
  else
    match JsonText.parse data with
    | None => None
    | Some msg =>
        if negb (truthy msg && typeof_object msg) then None
        else
          match opt_member msg "type", opt_member msg "text" with
          | VStr ty, VStr t =>
              if String.eqb ty "open_message" && Str.truthy (Str.trim t)
              then Some (Str.trim t) else None
          | _, _ => None
          end
    end.

Definition pushed (P : Platform) (tid txt : string) (n : nat) (s : State) : State :=
  setMessages
    (fun prev =>
       (prev ++ [{| id := uuid_at P (S n); role := assistant; text := txt;
                    createdAt := now_at P n; answerItems := None;
                    trace := None |}])%list)
    (setLastOpenMsg (Some {| m_threadId := tid; m_text := txt; m_ts := now_at P n |}) s).

Lemma onStreamMessage_cases (P : Platform) (tid data : string) (s : State) (n : nat) :
  onStreamMessage P tid data s n
  = match open_text data with
    | None => (s, n)
    | Some txt =>
        if match lastOpenMsg s with
           | Some l =>
               String.eqb (m_threadId l) tid && String.eqb (m_text l) txt
               && (now_at P n - m_ts l <? 5000)%Z
           | None => false
           end
        then (s, S n)
        else (pushed P tid txt n s, S (S n))
    end.
Proof.
  unfold onStreamMessage, open_text.
  destruct (negb (Str.truthy (Str.trim data))); [reflexivity|].
  destruct (JsonText.parse data) as [msg|]; [|reflexivity].
  destruct (negb (truthy msg && typeof_object msg)); [reflexivity|].
  destruct (opt_member msg "type") as [| |b|k|ty|xs|fs]; try reflexivity.
  destruct (opt_member msg "text") as [| |b|k|t|xs|fs]; try reflexivity.
  destruct (String.eqb ty "open_message" && Str.truthy (Str.trim t)); [|reflexivity].
  unfold bindM. cbn [Date_now uuid].
  destruct (match lastOpenMsg s with Some _ => _ | None => _ end); reflexivity.
Qed.

(** [data] is the JSON text of an object whose [type] is
    [open_message] and whose [text] is a string that is [t] once the
    white space around it is taken away, [t] not being empty. *)
Definition carries (data t : string) : Prop :=
  Str.trim data <> "" /\
  exists msg raw,
    JsonText.parse data = Some msg /\
    opt_member msg "type" = VStr "open_message" /\
    opt_member msg "text" = VStr raw /\
    Str.trim raw = t /\ t <> "".

(** The channel of [tid] has shown the text [t] less than five seconds
    before the time [now]. *)
Definition shown_lately (tid t : string) (now : Z) (s : State) : bool :=
  match lastOpenMsg s with
  | Some l =>
      String.eqb (m_threadId l) tid && String.eqb (m_text l) t
      && (now - m_ts l <? 5000)%Z
  | None => false
  end.

Lemma open_text_carries (data t : string) :
  open_text data = Some t <-> carries data t.
Proof.
  unfold open_text, carries. split.
  - destruct (Str.truthy (Str.trim data)) eqn:D; cbn [negb]; [|discriminate].
    destruct (JsonText.parse data) as [msg|]; [|discriminate].
    destruct (negb _); [discriminate|].
    destruct (opt_member msg "type") as [| |b|k|ty|xs|fs] eqn:Ty; try discriminate.
    destruct (opt_member msg "text") as [| |b'|k'|raw|xs'|fs'] eqn:Tx;
      try discriminate.
    destruct (String.eqb ty "open_message") eqn:Y; [|discriminate]. cbn [andb].
    destruct (Str.truthy (Str.trim raw)) eqn:T; [|discriminate].
    intros [= <-]. apply String.eqb_eq in Y. subst ty.
    split; [now apply truthy_true|]. exists msg, raw.
    split; [reflexivity|]. split; [exact Ty|]. split; [exact Tx|].
    split; [reflexivity|now apply truthy_true].
  - intros [D [msg [raw [Pm [Ty [Tx [Tr Ne]]]]]]].
    assert (D' : Str.truthy (Str.trim data) = true).
    { unfold Str.truthy. destruct (Str.trim data); [congruence|reflexivity]. }
    rewrite D', Pm. cbn [negb].
    assert (O : truthy msg && typeof_object msg = true).
    { destruct msg; try discriminate. reflexivity. }
    rewrite O, Ty, Tx. cbn [negb]. subst t.
    assert (T : Str.truthy (Str.trim raw) = true).
    { unfold Str.truthy. destruct (Str.trim raw); [congruence|reflexivity]. }
    now rewrite T.
Qed.

(** X19. A message of the push channel, for the channel of the thread
    [tid]. Data that carries no text (blank, not JSON, not an object,
    a [type] other than [open_message], a [text] that is missing, not a
    string or blank) leaves the chat as it is, and the clock is not
    read. Data that carries the text [t] adds one message of the
    assistant with the text [t], made at the time the clock gives, and
    notes thread, text and time; unless the note says that the channel
    of this thread has shown [t] less than five seconds before: then
    the chat stays as it is. So the same data delivered again within
    five seconds of the message it added adds nothing. *)
Theorem stream_message_once (P : Platform) (tid data : string) (s : State) (n : nat) :
  ((forall t, ~ carries data t) -> onStreamMessage P tid data s n = (s, n)) /\
  (forall t, carries data t ->
     onStreamMessage P tid data s n
     = (if shown_lately tid t (now_at P n) s then (s, S n)
        else (setMessages
                (fun prev =>
                   (prev ++ [{| id := uuid_at P (S n); role := assistant; text := t;
                                createdAt := now_at P n; answerItems := None;
                                trace := None |}])%list)
                (setLastOpenMsg
                   (Some {| m_threadId := tid; m_text := t; m_ts := now_at P n |}) s),
              S (S n))) /\
     forall s' n',
       lastOpenMsg s' = Some {| m_threadId := tid; m_text := t; m_ts := now_at P n |} ->
       (now_at P n' - now_at P n < 5000)%Z ->
       onStreamMessage P tid data s' n' = (s', S n')).
Proof.
  split.
  - intros H. rewrite onStreamMessage_cases.
    destruct (open_text data) as [t|] eqn:O; [|reflexivity].
    apply open_text_carries in O. now apply H in O.
  - intros t C. apply open_text_carries in C. split.
    + rewrite onStreamMessage_cases, C. reflexivity.
    + intros s' n' L W. rewrite onStreamMessage_cases, C, L.
      cbn [m_threadId m_text m_ts]. rewrite !String.eqb_refl.
      apply Z.ltb_lt in W. now rewrite W.
Qed.

(** [{ type: 'open_message', text: ' hi ' }] as the channel delivers it. *)
Definition open_message_example : string :=
  or_empty (JsonText.stringify
              (VObj [("type", VStr "open_message"); ("text", VStr " hi ")])).

Lemma stream_message_once_witness :
  carries open_message_example "hi" /\
  messages (fst (onStreamMessage (ChatSpec.platform_of 200 "") "T1"
                   open_message_example ChatSpec.state_T1 0))
  = [ChatSpec.old_message;
     {| id := "m1"; role := assistant; text := "hi"; createdAt := 1000%Z;
        answerItems := None; trace := None |}].
Proof.
  assert (C : carries open_message_example "hi").
  { split; [discriminate|].
    exists (VObj [("type", VStr "open_message"); ("text", VStr " hi ")]), " hi ".
    split; [vm_compute; reflexivity|]. repeat split. discriminate. }
  split; [exact C|].
  destruct (stream_message_once (ChatSpec.platform_of 200 "") "T1"
              open_message_example ChatSpec.state_T1 0) as [_ H].
  destruct (H "hi" C) as [E _]. rewrite E. reflexivity.
Defined.

(** ** The context shown in the panel *)

Lemma first_ctx_app (a b : list ChatMessage) :
  first_ctx (a ++ b)%list
  = match first_ctx a with
    | Some c => Some c
    | None => first_ctx b
    end.
Proof.
  induction a as [|m r IH]; [reflexivity|].
  cbn [app first_ctx]. destruct (ctx_of m); [reflexivity|exact IH].
Qed.

Lemma first_ctx_none (ms : list ChatMessage) :
  first_ctx ms = None <-> Forall (fun m => ctx_of m = None) ms.
Proof.
  induction ms as [|m r IH]; cbn [first_ctx].
  - split; [constructor|reflexivity].
  - destruct (ctx_of m) eqn:E.
    + split; [discriminate|]. intros H. inversion H; congruence.
    + rewrite IH. split; [now constructor|]. intros H. now inversion H.
Qed.

Lemma first_ctx_in (ms : list ChatMessage) (c : ConversationContext) :
  first_ctx ms = Some c -> exists m, In m ms /\ ctx_of m = Some c.
Proof.
  induction ms as [|m r IH]; [discriminate|].
  cbn [first_ctx]. destruct (ctx_of m) eqn:E.
  - intros [= <-]. exists m. split; [now left|exact E].
  - intros H. destruct (IH H) as [x [I X]]. exists x. split; [now right|exact X].
Qed.

Lemma in_firstn {A : Type} (k : nat) (l : list A) (x : A) :
  In x (firstn k l) -> In x l.
Proof. intros H. rewrite <- (firstn_skipn k l). apply in_or_app. now left. Qed.

Lemma findIndex_none (i : nat) (ms : list ChatMessage) : findIndex i None ms = None.
Proof. revert i. induction ms as [|m r IH]; intros i; [reflexivity|apply IH]. Qed.

Lemma findIndex_found (pre post : list ChatMessage) (m : ChatMessage) (i : nat) :
  Forall (fun x => id x <> id m) pre ->
  findIndex i (Some (id m)) (pre ++ m :: post) = Some (i + List.length pre).
Proof.
  intros F. revert i. induction F as [|x r Hx _ IH]; intros i.
  - cbn. rewrite String.eqb_refl. f_equal. lia.
  - cbn [app findIndex]. destruct (String.eqb_spec (id x) (id m)); [contradiction|].
    rewrite IH. cbn. f_equal. lia.
Qed.

(** X20. The context that the panel shows. With a message selected it
    is the context of that message or, failing that, of the nearest
    message above it that has one; when none of them has one, and when
    nothing is selected, it is the context of the last message of the
    list that has one. The panel is without a context only when no
    message of the list has one, and a context shown is always that of
    a message of the list. *)
Theorem activeCtx_nearest (pre post : list ChatMessage) (m : ChatMessage)
        (sel : option string) :
  Forall (fun x => id x <> id m) pre ->
  let ms := (pre ++ m :: post)%list in
  activeCtx ms (Some (id m))
  = match first_ctx (m :: rev pre) with
    | Some c => Some c
    | None => first_ctx (rev post)
    end /\
  activeCtx ms None = first_ctx (rev ms) /\
  (activeCtx ms sel = None <-> Forall (fun x => ctx_of x = None) ms) /\
  (forall c, activeCtx ms sel = Some c -> exists x, In x ms /\ ctx_of x = Some c).
Proof.
  intros F ms.
  assert (A : forall l s, activeCtx l s = first_ctx (rev l)
                          \/ exists k c, activeCtx l s = Some c
                                         /\ first_ctx (rev (firstn k l)) = Some c).
  { intros l s. unfold activeCtx. destruct (findIndex 0 s l) as [i|]; [|now left].
    destruct (first_ctx (rev (firstn (S i) l))) as [c|] eqn:E; [|now left].
    right. now exists (S i), c. }
  split; [|split; [unfold activeCtx; now rewrite findIndex_none|split]].
  - unfold activeCtx, ms. rewrite (findIndex_found pre post m 0 F). cbn [Nat.add].
    replace (firstn (S (List.length pre)) (pre ++ m :: post)) with (pre ++ [m])%list.
    2:{ rewrite firstn_app, firstn_all2 by lia.
        replace (S (List.length pre) - List.length pre) with 1 by lia. reflexivity. }
    rewrite rev_app_distr. cbn [rev app].
    destruct (first_ctx (m :: rev pre)) as [c|] eqn:E; [reflexivity|].
    rewrite rev_app_distr. cbn [rev]. rewrite <- app_assoc. cbn [app].
    rewrite first_ctx_app, E. now destruct (first_ctx (rev post)).
  - destruct (A ms sel) as [E|[k [c [E1 E2]]]].
    + rewrite E, first_ctx_none. split; intros H.
      * apply Forall_rev in H. now rewrite rev_involutive in H.
      * now apply Forall_rev.
    + rewrite E1. split; [discriminate|]. intros H. exfalso.
      apply first_ctx_in in E2. destruct E2 as [x [I X]].
      apply in_rev in I. apply in_firstn in I.
      rewrite Forall_forall in H. rewrite (H x I) in X. discriminate.
  - intros c H. destruct (A ms sel) as [E|[k [c' [E1 E2]]]].
    + rewrite E in H. apply first_ctx_in in H. destruct H as [x [I X]].
      exists x. split; [now apply in_rev in I|exact X].
    + rewrite E1 in H. injection H as ->.
      apply first_ctx_in in E2. destruct E2 as [x [I X]].
      exists x. split; [|exact X]. apply in_rev in I. now apply in_firstn in I.
Qed.

Definition message_plain (i : string) : ChatMessage :=
  {| id := i; role := user; text := "hello"; createdAt := 0;
     answerItems := None; trace := None |}.

Definition message_of_reply (i : string) (reply : value) : ChatMessage :=
  {| id := i; role := assistant; text := "hi"; createdAt := 0;
     answerItems := None;
     trace := Some {| tr_url := "/v1/messages/simple/acme"; tr_payload := [];
                      tr_status := 200; tr_ok := true; tr_json := reply;
                      tr_rawText := None; tr_timingMs := 1 |} |}.

Lemma activeCtx_nearest_witness :
  option_map threadId
    (activeCtx [message_of_reply "a" ChatSpec.reply_T2; message_plain "b";
                message_of_reply "c" (ChatSpec.reply_of [("company_id", VStr "acme");
                                                         ("thread_id", VStr "T3")])]
               (Some "b"))
  = Some (Some "T2").
Proof.
  pose proof (activeCtx_nearest [message_of_reply "a" ChatSpec.reply_T2]
                [message_of_reply "c" (ChatSpec.reply_of [("company_id", VStr "acme");
                                                          ("thread_id", VStr "T3")])]
                (message_plain "b") None) as H.
  destruct H as [H _].
  - repeat constructor. discriminate.
  - cbn [app message_plain id] in H. rewrite H. reflexivity.
Defined.

(** ** The messages of a loaded thread *)

Lemma or_else_same (a : option string) : or_else a a = a.
Proof. unfold or_else. now destruct (some_text a). Qed.

Lemma getString_field (k key : string) (obj : value) (fs : fields) :
  lookup k fs = Some (or_undefined (opt_member obj key)) ->
  getString (VObj fs) k = getString obj key.
Proof.
  intros H. unfold getString. unfold opt_member at 1. cbn [member]. rewrite H.
  destruct (opt_member obj key); reflexivity.
Qed.

(** The context of a row of the history, read from the thread and from
    the row. *)
Definition history_ctx (thread row : value) : ConversationContext :=
  let ta := or_null (opt_member row "thread_assistant") in
  let asst := or_null (opt_member ta "assistant") in
  {| assistantId := getString ta "assistant_id";
     customerId := getString thread "customer_id";
     companyId := getString thread "company_id";
     threadId := getString thread "id";
     platform :=
       (let p := toLowerCase (or_empty (or_else (getString asst "platform") (Some ""))) in
        if Str.truthy p then Some p else None);
     assistantExternalId := getString asst "external_id";
     threadAssistantExternalId := getString ta "external_id" |}.

Definition names_any (c : ConversationContext) : bool :=
  some_text (assistantId c) || some_text (customerId c)
  || some_text (companyId c) || some_text (platform c)
  || some_text (assistantExternalId c)
  || some_text (threadAssistantExternalId c).

(** The context read from the data of a reply. *)
Definition data_ctx (data : value) : ConversationContext :=
  {| assistantId := or_else (getString data "assistant_id")
                            (getString data "thread_current_assistant_id");
     customerId := getString data "customer_id";
     companyId := getString data "company_id";
     threadId := getString data "thread_id";
     platform :=
       (let p := toLowerCase (or_empty (or_else (getString data "platform") (Some ""))) in
        if Str.truthy p then Some p else None);
     assistantExternalId := getString data "external_id";
     threadAssistantExternalId := getString data "thread_assistant_external_id" |}.

Lemma context_of_data (a b : value) (d : fields) :
  extractConversationContextFromResponseJson
    (VObj [("success", a); ("provider", b); ("data", VObj d)])
  = if names_any (data_ctx (VObj d)) then Some (data_ctx (VObj d)) else None.
Proof. reflexivity. Qed.

(** X21. The trace made up for an answer of a loaded thread gives the
    panel the ids of that thread and of the assistant that answered:
    the context read back from it holds the fields of the thread and of
    the row, each as a string. As for a live reply, there is no context
    (and so no thread id in the panel) when the row names no
    assistant, customer, company, platform or external id. *)
Theorem history_context (settings : ChatSettings) (thread row : value) (timingMs : Z) :
  extractConversationContextFromResponseJson
    (tr_json (buildSyntheticTraceFromThreadMessage settings thread row timingMs))
  = (if names_any (history_ctx thread row) then Some (history_ctx thread row) else None)
  /\ tr_ok (buildSyntheticTraceFromThreadMessage settings thread row timingMs) = true
  /\ tr_status (buildSyntheticTraceFromThreadMessage settings thread row timingMs) = 200%Z.
Proof.
  split; [|split; reflexivity].
  unfold buildSyntheticTraceFromThreadMessage. cbn [tr_json].
  unfold syntheticPayload. rewrite context_of_data.
    set (ta := or_null (opt_member row "thread_assistant")).
    set (asst := or_null (opt_member ta "assistant")).
    set (data := VObj _).
    assert (E1 : getString data "assistant_id" = getString ta "assistant_id")
      by (apply getString_field; reflexivity).
    assert (E2 : getString data "thread_current_assistant_id" = getString ta "assistant_id")
      by (apply getString_field; reflexivity).
    assert (E3 : getString data "customer_id" = getString thread "customer_id")
      by (apply getString_field; reflexivity).
    assert (E4 : getString data "company_id" = getString thread "company_id")
      by (apply getString_field; reflexivity).
    assert (E5 : getString data "thread_id" = getString thread "id")
      by (apply getString_field; reflexivity).
    assert (E6 : getString data "platform" = getString asst "platform")
      by (apply getString_field; reflexivity).
    assert (E7 : getString data "external_id" = getString asst "external_id")
      by (apply getString_field; reflexivity).
    assert (E8 : getString data "thread_assistant_external_id" = getString ta "external_id")
      by (apply getString_field; reflexivity).
    assert (E : data_ctx data = history_ctx thread row).
    { unfold data_ctx, history_ctx. fold ta. fold asst.
      now rewrite E1, E2, E3, E4, E5, E6, E7, E8, or_else_same. }
    now rewrite E.
Qed.

(** A message made from a row of the history: a question without a
    trace, or an answer with the trace made up for it. *)
Definition history_message (m : ChatMessage) : Prop :=
  Str.trim (text m) <> "" /\ answerItems m = None /\
  match role m with
  | user => trace m = None
  | assistant =>
      exists tr, trace m = Some tr /\ tr_ok tr = true /\ tr_status tr = 200%Z
                 /\ (0 <= tr_timingMs tr)%Z
  | system => False
  end.

Lemma asked_of_ok (P : Platform) (row : value) (c : Z) (n : nat) :
  Forall history_message (fst (asked_of P row c n))
  /\ List.length (fst (asked_of P row c n)) <= 1.
Proof.
  unfold asked_of.
  destruct (opt_member row "input") as [| |b|q|input|xs|fs];
    try (split; [constructor|cbn; lia]).
  destruct (Str.truthy (Str.trim input)) eqn:T; [|split; [constructor|cbn; lia]].
  split; [|cbn; lia]. repeat constructor. now apply truthy_true.
Qed.

Lemma answered_of_ok (P : Platform) (settings : ChatSettings) (thread row : value)
      (c : Z) (r : option Z) (n : nat) :
  Forall history_message (fst (answered_of P settings thread row c r n))
  /\ List.length (fst (answered_of P settings thread row c r n)) <= 1.
Proof.
  unfold answered_of.
  destruct (opt_member row "output") as [| |b|q|output|xs|fs];
    try (split; [constructor|cbn; lia]).
  destruct (Str.truthy (Str.trim output)) eqn:T; [|split; [constructor|cbn; lia]].
  split; [|cbn; lia]. repeat constructor; [now apply truthy_true|].
  cbn. eexists. split; [reflexivity|]. cbn. repeat split.
  destruct r; lia.
Qed.

Lemma row_messages_ok (P : Platform) (number_ms : number -> option Z)
      (settings : ChatSettings) (thread row : value) (n : nat) :
  Forall history_message (fst (row_messages P number_ms settings thread row n))
  /\ List.length (fst (row_messages P number_ms settings thread row n)) <= 2.
Proof.
  unfold row_messages, bindM.
  destruct (parseDateToMs P number_ms (opt_member row "created_at") n) as [c n1].
  assert (R : forall z : option Z * nat,
             Forall history_message
               (fst (let (repliedAt, n2) := z in
                     let (asked, n3) := asked_of P row c n2 in
                     let (answered, n4) :=
                       answered_of P settings thread row c repliedAt n3 in
                     ret (asked ++ answered)%list n4))
             /\ List.length
                  (fst (let (repliedAt, n2) := z in
                        let (asked, n3) := asked_of P row c n2 in
                        let (answered, n4) :=
                          answered_of P settings thread row c repliedAt n3 in
                        ret (asked ++ answered)%list n4)) <= 2).
  { intros [repliedAt n2].
    destruct (asked_of_ok P row c n2) as [A1 A2].
    destruct (asked_of P row c n2) as [asked n3].
    destruct (answered_of_ok P settings thread row c repliedAt n3) as [B1 B2].
    destruct (answered_of P settings thread row c repliedAt n3) as [answered n4].
    cbn [fst ret] in *. split; [now apply Forall_app|rewrite length_app; lia]. }
  destruct (nullish (opt_member row "replied_at")).
  - exact (R (None, n1)).
  - destruct (parseDateToMs P number_ms (opt_member row "replied_at") n1) as [r n2].
    exact (R (Some r, n2)).
Qed.

Lemma concat_length_le2 {A : Type} (ls : list (list A)) :
  Forall (fun l => List.length l <= 2) ls ->
  List.length (List.concat ls) <= 2 * List.length ls.
Proof.
  induction 1 as [|l r H _ IH]; [reflexivity|].
  cbn [List.concat]. rewrite length_app. cbn [List.length]. lia.
Qed.

(** Who speaks and what is said. *)
Definition spoken (m : ChatMessage) : ChatRole * string := (role m, text m).

(** What a row of the history says: its [input] as the user, then its
    [output] as the assistant, each only when it is a string with a
    character that is not white space. *)
Definition said (who : ChatRole) (v : value) : list (ChatRole * string) :=
  match v with
  | VStr t => if Str.is_empty (Str.trim t) then [] else [(who, t)]
  | _ => []
  end.

Definition row_says (row : value) : list (ChatRole * string) :=
  (said user (opt_member row "input") ++ said assistant (opt_member row "output"))%list.

Lemma asked_of_says (P : Platform) (row : value) (c : Z) (n : nat) :
  map spoken (fst (asked_of P row c n)) = said user (opt_member row "input").
Proof.
  unfold asked_of, said, Str.truthy.
  destruct (opt_member row "input") as [| |b|q|input|xs|fs]; try reflexivity.
  destruct (Str.is_empty (Str.trim input)); reflexivity.
Qed.

Lemma answered_of_says (P : Platform) (settings : ChatSettings) (thread row : value)
      (c : Z) (r : option Z) (n : nat) :
  map spoken (fst (answered_of P settings thread row c r n))
  = said assistant (opt_member row "output").
Proof.
  unfold answered_of, said, Str.truthy.
  destruct (opt_member row "output") as [| |b|q|output|xs|fs]; try reflexivity.
  destruct (Str.is_empty (Str.trim output)); reflexivity.
Qed.

Lemma row_messages_says (P : Platform) (number_ms : number -> option Z)
      (settings : ChatSettings) (thread row : value) (n : nat) :
  map spoken (fst (row_messages P number_ms settings thread row n)) = row_says row.
Proof.
  unfold row_messages, bindM, row_says.
  destruct (parseDateToMs P number_ms (opt_member row "created_at") n) as [c n1].
  assert (R : forall z : option Z * nat,
             map spoken
               (fst (let (repliedAt, n2) := z in
                     let (asked, n3) := asked_of P row c n2 in
                     let (answered, n4) :=
                       answered_of P settings thread row c repliedAt n3 in
                     ret (asked ++ answered)%list n4))
             = (said user (opt_member row "input")
                ++ said assistant (opt_member row "output"))%list).
  { intros [repliedAt n2].
    pose proof (asked_of_says P row c n2) as A.
    destruct (asked_of P row c n2) as [asked n3].
    pose proof (answered_of_says P settings thread row c repliedAt n3) as B.
    destruct (answered_of P settings thread row c repliedAt n3) as [answered n4].
    cbn [fst ret] in *. now rewrite map_app, A, B. }
  destruct (nullish (opt_member row "replied_at")).
  - exact (R (None, n1)).
  - destruct (parseDateToMs P number_ms (opt_member row "replied_at") n1) as [r n2].
    exact (R (Some r, n2)).
Qed.

Lemma mapM_says {A B C : Type} (f : A -> M (list B)) (view : B -> C)
      (says : A -> list C) (xs : list A) :
  (forall x n, map view (fst (f x n)) = says x) ->
  forall n, map view (List.concat (fst (mapM f xs n))) = flat_map says xs.
Proof.
  intros H. induction xs as [|x r IH]; intros n; [reflexivity|].
  cbn [mapM flat_map]. unfold bindM. pose proof (H x n) as Hx.
  destruct (f x n) as [y n1]. pose proof (IH n1) as I.
  destruct (mapM f r n1) as [ys n2]. cbn [fst ret List.concat] in *.
  now rewrite map_app, Hx, I.
Qed.

(** X22. The list that a loaded thread puts in the chat: first the
    banner that names the thread, then, row by row and in the order of
    the rows (the entries of [messages] when it is an array), the
    [input] of the row as a message of the user and its [output] as a
    message of the assistant, each with its text as it is, and each
    only when it is a string with a character that is not white space. A question has no trace; an answer carries the trace
    made up for it, with status 200 and a time taken that is not
    negative. The list is not made (and the load fails) only when
    [messages] of the reply is neither an array nor a string and is not
    falsy. *)
Theorem threadMessages_shape (P : Platform) (number_ms : number -> option Z)
        (settings : ChatSettings) (tid : string) (json : value) (n : nat) :
  match fst (threadMessages P number_ms settings tid json n) with
  | Normal ms =>
      exists rest rows,
        rows_of json = Normal rows /\
        (forall xs, opt_member json "messages" = VArr xs -> rows = xs) /\
        ms = systemBanner (uuid_at P n) ("Thread carregada: " ++ tid) (now_at P (S n))
               :: rest /\
        map spoken rest = flat_map row_says rows /\
        Forall history_message rest /\
        List.length rest <= 2 * List.length rows
  | Throw e =>
      rows_of json = Throw e /\
      truthy (opt_member json "messages") = true /\
      isArray (opt_member json "messages") = false /\
      is_string (opt_member json "messages") = false
  end.
Proof.
  unfold threadMessages, bindM. cbn [uuid Date_now].
  destruct (rows_of json) as [rows|e] eqn:R.
  - destruct (ChatFlowSpec.mapM_Forall
                (row_messages P number_ms settings (opt_member json "thread"))
                (fun l => Forall history_message l /\ List.length l <= 2) rows
                (row_messages_ok P number_ms settings (opt_member json "thread"))
                (S (S n))) as [F L].
    pose proof (mapM_says
                  (row_messages P number_ms settings (opt_member json "thread"))
                  spoken row_says rows
                  (row_messages_says P number_ms settings (opt_member json "thread"))
                  (S (S n))) as V.
    destruct (mapM (row_messages P number_ms settings (opt_member json "thread")) rows
                   (S (S n))) as [out n1].
    cbn [fst ret] in *. exists (List.concat out), rows.
    split; [reflexivity|]. split.
    { intros xs Hx. unfold rows_of in R. rewrite Hx in R. cbn in R. congruence. }
    split; [reflexivity|]. split; [exact V|]. split.
    + apply Forall_concat. eapply Forall_impl; [|exact F]. now intros l [H _].
    + rewrite <- L. apply concat_length_le2.
      eapply Forall_impl; [|exact F]. now intros l [_ H].
  - cbn [fst ret]. split; [reflexivity|].
    unfold rows_of in R.
    destruct (opt_member json "messages") as [| |b|q|s|xs|fs]; cbn in R |- *;
      try discriminate; try (destruct b; discriminate);
      try (destruct (negb _); discriminate); repeat split.
    + destruct b; [reflexivity|discriminate].
    + destruct (Z.eqb (mantissa q) 0); [discriminate|reflexivity].
Qed.

(** ** One base address *)

(** X23. The panel, the push channel and [sendMessage] put their paths
    after the same base address: the saved address trimmed and without
    the slashes that end it, so that a path never follows a double
    slash; with no address saved the paths are relative to the page. *)
Theorem one_base_address (settings : ChatSettings) (path tid : string) :
  apiBase settings = normalizeBaseUrl (apiBaseUrl settings) /\
  buildApiUrl settings path = apiBase settings ++ with_slash path /\
  streamUrl settings tid
  = apiBase settings ++ "/v1/stream?session_id=" ++ Str.encodeURIComponent tid /\
  buildMessagesUrl settings
  = buildApiUrl settings
      ("v1/messages/simple/" ++ Str.encodeURIComponent (Client.companyId settings)) /\
  ClientFacts.ends_with "/" (apiBase settings) = false /\
  (apiBaseUrl settings = None -> apiBase settings = "").
Proof.
  assert (A : apiBase settings = normalizeBaseUrl (apiBaseUrl settings)).
  { unfold apiBase, normalizeBaseUrl.
    destruct (Str.trim (or_empty (apiBaseUrl settings))); reflexivity. }
  assert (B : forall p, buildApiUrl settings p = apiBase settings ++ with_slash p).
  { intros p. unfold buildApiUrl. destruct (apiBase settings); reflexivity. }
  split; [exact A|]. split; [apply B|]. split; [|split; [|split]].
  - unfold streamUrl. destruct (apiBase settings); reflexivity.
  - rewrite B. unfold buildMessagesUrl. rewrite <- A. reflexivity.
  - apply ClientFacts.strip_trailing_last.
  - intros H. unfold apiBase. now rewrite H.
Qed.

(** X24. The API chosen in the form is the one that the chat uses and
    shows: for settings handed over by the start button, the base
    address of every request is the address of the chosen option (none
    for DEV, whose paths go to the page's own origin), and the header
    shows the chosen name. *)
Theorem chosen_api_used (f : Onboarding.Form) (s : ChatSettings) (path : string) :
  Onboarding.start f = Some s ->
  apiBase s = Onboarding.baseUrl_of (Onboarding.apiEnv f) /\
  headerApiEnv s = Onboarding.apiEnv f /\
  buildApiUrl s path = Onboarding.baseUrl_of (Onboarding.apiEnv f) ++ with_slash path /\
  buildMessagesUrl s
  = Onboarding.baseUrl_of (Onboarding.apiEnv f) ++ "/v1/messages/simple/"
      ++ Str.encodeURIComponent (Str.trim (Onboarding.f_companyId f)).
Proof.
  unfold Onboarding.start. destruct (_ || _); [discriminate|]. intros [= <-].
  destruct (Onboarding.apiEnv f); repeat split.
Qed.

Lemma chosen_api_used_witness :
  headerApiEnv OnboardingFlowSpec.settings_of_example = Onboarding.PROD /\
  buildApiUrl OnboardingFlowSpec.settings_of_example "v1/companies/acme"
  = "https://api.zibb.com.br/v1/companies/acme" /\
  buildMessagesUrl OnboardingFlowSpec.settings_of_example
  = "https://api.zibb.com.br/v1/messages/simple/acme".
Proof.
  destruct (chosen_api_used OnboardingFlowSpec.form_example
              OnboardingFlowSpec.settings_of_example "v1/companies/acme" eq_refl)
    as [_ [A [B C]]].
  split; [exact A|]. split; [exact B|exact C].
Defined.

(** ** The bubble of a message *)

(** X25. A text that [tryParseCtaUrl] reads as a call to action is
    read by [tryParseDisparoItemsFromText] before it, as the object
    that the text spells: the bubble of an assistant message without
    segments of its own shows that object (with its [message] and any
    other field), and the branch of the bubble that calls
    [tryParseCtaUrl] is never taken. *)
Theorem cta_text_is_a_segment (api : Url.Api) (depth : nat) (origin page : option string)
        (m : ChatMessage) (it : value) :
  tryParseCtaUrl (text m) = Some it ->
  exists fs,
    JsonText.parse (Str.trim (text m)) = Some (VObj fs) /\
    tryParseDisparoItemsFromText (text m) = Some [VObj fs] /\
    it = VObj [("type", VStr "cta_url"); ("url", opt_member (VObj fs) "url");
               ("display", opt_member (VObj fs) "display")] /\
    (role m = assistant ->
     match answerItems m with Some (_ :: _) => False | _ => True end ->
     renderBubble api depth origin page m
     = Segments (MessageContent api depth origin page [VObj fs])).
Proof.
  unfold tryParseCtaUrl.
  destruct (Str.is_empty (text m)) eqn:E0; [discriminate|].
  destruct (negb (Str.startsWith (Str.trim (text m)) "{")) eqn:E1; [discriminate|].
  destruct (negb (Str.includes (Str.trim (text m)) typeText)) eqn:E2; [discriminate|].
  destruct (negb (Str.includes (Str.trim (text m)) "cta_url")); [discriminate|].
  cbn [orb].
  destruct (JsonText.parse (Str.trim (text m))) as [o|] eqn:Hp; [|discriminate].
  destruct (opt_member o "type") as [| |b|k|ty|xs|gs] eqn:Ty; try discriminate.
  destruct (opt_member o "url") as [| |b|k|u|xs|gs] eqn:U; try discriminate.
  destruct (_ && _); [|discriminate]. intros [= <-].
  destruct o as [| |b|k|s|xs|fs]; try discriminate Ty.
  exists fs.
  assert (T : tryParseDisparoItemsFromText (text m) = Some [VObj fs]).
  { unfold tryParseDisparoItemsFromText. rewrite E0.
    apply negb_false_iff in E1, E2.
    assert (N : Str.is_empty (Str.trim (text m)) = false).
    { destruct (Str.trim (text m)); [discriminate E1|reflexivity]. }
    rewrite N, E1, E2, Hp. reflexivity. }
  split; [reflexivity|]. split; [exact T|]. split; [now rewrite U|].
  intros R A. unfold renderBubble. rewrite R, T.
  destruct (answerItems m) as [[|x xs]|]; [reflexivity|contradiction|reflexivity].
Qed.

Definition cta_text : string :=
  or_empty (JsonText.stringify
              (VObj [("type", VStr "cta_url"); ("url", VStr "https://x");
                     ("display", VStr "Open"); ("message", VStr "Pay here")])).

Definition cta_message : ChatMessage :=
  {| id := "m1"; role := assistant; text := cta_text; createdAt := 0;
     answerItems := Some []; trace := None |}.

Lemma cta_text_is_a_segment_witness :
  renderBubble SimpleUrl.api 2 None None cta_message
  = Segments [NLink "https://x" (VStr "Open") (Some "Pay here")].
Proof.
  destruct (cta_text_is_a_segment SimpleUrl.api 2 None None cta_message
              (VObj [("type", VStr "cta_url"); ("url", VStr "https://x");
                     ("display", VStr "Open")]))
    as [fs [Hp [_ [_ H]]]].
  - vm_compute. reflexivity.
  - rewrite (H eq_refl I).
    assert (F : Some (VObj fs)
                = Some (VObj [("type", VStr "cta_url"); ("url", VStr "https://x");
                              ("display", VStr "Open"); ("message", VStr "Pay here")])).
    { rewrite <- Hp. vm_compute. reflexivity. }
    injection F as ->. vm_compute. reflexivity.
Defined.

(** ** The replies read by the panel *)

(** X26. The readers of the panel differ on a reply that is not JSON.
    [inspectCustomer] and [inspectCompany] look at the status first:
    they fail exactly on a status outside 200..299, always with the
    status and the body in the message, and on a good status they show
    a body that is not JSON as [{ raw: text }]. [inspectAssistant] and
    [loadThreadToChat] parse first: they agree with the former on a
    body that is JSON or empty, but on a body that is not JSON they
    fail with the syntax error of the parser, on a good status and on a
    bad one alike, so that a failure of the server whose body is an
    error page is shown without its status. *)
Theorem panel_readers (parse_error : string -> js_error) (st : Z) (text : string) :
  match parse_body parse_error text with
  | Normal json =>
      read_parsed parse_error st text = read_lenient parse_error st text /\
      read_lenient parse_error st text
      = (if resp_ok st then Normal json else Throw (http_error st text))
  | Throw e =>
      e = parse_error text /\ JsonText.parse text = None /\
      Str.truthy text = true /\
      read_parsed parse_error st text = Throw (parse_error text) /\
      read_lenient parse_error st text
      = (if resp_ok st then Normal (VObj [("raw", VStr text)])
         else Throw (http_error st text))
  end.
Proof.
  unfold read_parsed, read_lenient.
  destruct (parse_body parse_error text) as [json|e] eqn:B; cbn [bind].
  - destruct (resp_ok st); split; reflexivity.
  - unfold parse_body in B. destruct text as [|c r]; [discriminate|].
    cbn [Str.is_empty] in B.
    destruct (JsonText.parse (String c r)); [discriminate|]. injection B as <-.
    repeat split. destruct (resp_ok st); reflexivity.
Qed.

End ChatPanelSpec.

(* ================================================================== *)
(** * What a node of the inspector shows of itself:
      [src/components/JsonTree.tsx] *)

Module JsonTreeViewSpec.
Import Json JsonTree JsonTreeView.

(** X27. The number shown beside a collapsed array or object is the
    number of children that the node shows when it is opened, whatever
    order the collation gives to the keys. *)
Theorem count_is_children (localeCompare : string -> string -> Z) (v : value) :
  count v = List.length (entries localeCompare v).
Proof.
  destruct v as [| |b|n|s|xs|fs]; try reflexivity.
  - cbn [count entries]. symmetry. apply JsonTreeSpec.array_entries_length.
  - cbn [count entries]. rewrite length_map. unfold sortKeys.
    apply Permutation_length.
    exact (ArrFacts.sort_perm localeCompare (keys fs)).
Qed.

(** X28. A string is shown as its JSON literal, which reads back as the
    string: two strings that differ are never shown alike, and a
    string is never shown like [null], a number or a boolean. *)
Theorem string_shown_as_literal (s t : string) :
  JsonText.parse (renderPrimitive (VStr s)) = Some (VStr s) /\
  (renderPrimitive (VStr s) = renderPrimitive (VStr t) <-> s = t) /\
  JsonText.parse (renderPrimitive VNull) = Some VNull /\
  JsonText.parse (renderPrimitive (VBool true)) = Some (VBool true) /\
  JsonText.parse (renderPrimitive (VBool false)) = Some (VBool false).
Proof.
  assert (R : forall x, JsonText.parse (JsonText.quote x) = Some (VStr x)).
  { intros x. unfold JsonText.parse.
    rewrite <- (StrFacts.append_empty_r (JsonText.quote x)).
    rewrite JsonTextFacts.lex_quote. reflexivity. }
  split; [apply R|]. split; [|repeat split].
  cbn [renderPrimitive]. split; [|now intros ->].
  intros H. pose proof (R s) as Rs. rewrite H, R in Rs. congruence.
Qed.

(** ** The first render *)

Definition line_depth (l : line) : nat :=
  match l with
  | LPrimitive d _ _ | LCollapsed d _ _ _ | LOpen d _ _ | LClose d _ => d
  end.

Definition is_collapsed (l : line) : bool :=
  match l with LCollapsed _ _ _ _ => true | _ => false end.

Definition is_open (l : line) : bool :=
  match l with LOpen _ _ _ => true | _ => false end.

Definition is_close (l : line) : bool :=
  match l with LClose _ _ => true | _ => false end.

Lemma filter_flat_map_length {A B : Type} (p q : B -> bool) (f : A -> list B)
      (xs : list A) :
  (forall x, List.length (filter p (f x)) = List.length (filter q (f x))) ->
  List.length (filter p (flat_map f xs)) = List.length (filter q (flat_map f xs)).
Proof.
  intros H. induction xs as [|x r IH]; [reflexivity|].
  cbn [flat_map]. rewrite !filter_app, !length_app, H, IH. reflexivity.
Qed.

Lemma filter_wrap_length {A : Type} (p : A -> bool) (x y : A) (l : list A) :
  List.length (filter p (x :: l ++ [y]))
  = (if p x then 1 else 0) + List.length (filter p l) + (if p y then 1 else 0).
Proof.
  cbn [filter]. rewrite filter_app. cbn [filter].
  destruct (p x), (p y); cbn [List.length]; rewrite length_app; cbn [List.length]; lia.
Qed.

Lemma Node_lines (localeCompare : string -> string -> Z) (levels : nat) :
  forall (depth : nat) (keyLabel : option string) (v : value),
    Forall (fun l => depth <= line_depth l <= depth + levels
                     /\ (is_collapsed l = true -> line_depth l = depth + levels))
           (Node localeCompare levels depth keyLabel v)
    /\ List.length (filter is_open (Node localeCompare levels depth keyLabel v))
       = List.length (filter is_close (Node localeCompare levels depth keyLabel v)).
Proof.
  induction levels as [|levels IH]; intros depth keyLabel v.
  - cbn [Node]. destruct (negb (expandable v)); split; try reflexivity;
      repeat constructor; cbn; try lia; try discriminate.
  - cbn [Node]. destruct (negb (expandable v)).
    + split; [|reflexivity]. repeat constructor; cbn; try lia; try discriminate.
    + split.
      * constructor; [cbn; split; [lia|discriminate]|].
        apply Forall_app. split.
        -- apply Forall_flat_map. apply Forall_forall. intros e _.
           destruct (IH (S depth) (Some (JsonTree.label e)) (JsonTree.child e)) as [F _].
           eapply Forall_impl; [|exact F]. cbn beta. intros l [H1 H2].
           split; [lia|]. intros C. rewrite (H2 C). lia.
        -- repeat constructor; cbn; try lia; try discriminate.
      * rewrite !filter_wrap_length. cbn [is_open is_close].
        rewrite (filter_flat_map_length is_open is_close).
        -- lia.
        -- intros e. apply IH.
Qed.

(** X29. The tree as it is first shown, for a [defaultExpandedDepth] of
    [d]: no line lies deeper than [d]; a node is shown collapsed only at
    depth [d]; every line that opens a node has its closing line. A value that is neither an array
    nor an object is one line with the value as [renderPrimitive] shows
    it, and with [d = 0] an array or an object is one collapsed line
    with its count. *)
Theorem tree_first_render (localeCompare : string -> string -> Z) (v : value) (d : nat) :
  let ls := JsonTree localeCompare v d in
  Forall (fun l => line_depth l <= d /\ (is_collapsed l = true -> line_depth l = d)) ls /\
  List.length (filter is_open ls) = List.length (filter is_close ls) /\
  (expandable v = false -> ls = [LPrimitive 0 None (renderPrimitive v)]) /\
  (expandable v = true ->
   JsonTree localeCompare v 0 = [LCollapsed 0 None (isArray v) (count v)]).
Proof.
  intros ls. unfold ls, JsonTree.
  destruct (Node_lines localeCompare d 0 None v) as [F B].
  split; [|split; [exact B|split]].
  - eapply Forall_impl; [|exact F]. cbn beta. intros l [[_ H1] H2]. split; [lia|exact H2].
  - intros E. destruct d; cbn [Node]; now rewrite E.
  - intros E. cbn [Node]. now rewrite E.
Qed.

End JsonTreeViewSpec.
